(** * SkyCast: the weather-query service, its validators and the XML export

    A shallow embedding of [lib/weatherService.ts], [lib/exportService.ts],
    [utils/weatherApi.ts] and of the pagination code of the two list
    handlers, followed by the properties of the specification.

    Conventions of the embedding.
    - A JavaScript [Date] is its time value, a [Z] number of milliseconds
      since the epoch; an Invalid Date is [None].
    - Calendar arithmetic of [Date] ([setFullYear], [setDate], [format])
      is written out for a process whose local time zone is UTC.
    - A JavaScript [number] is a rational [Q]; integer-valued quantities
      that the code only counts with (page, limit, lengths) are [Z].
    - A JavaScript string is a [string] of bytes.
    - An [async] method is a computation in the monad [M] below: it
      threads the world (the two collections, the write log and what the
      outside world will answer next) and either returns or throws.  A
      thrown exception keeps the state changes made before it, as in
      JavaScript. *)

From Stdlib Require Import ZArith QArith Qround Bool List String Ascii Lia.
From Stdlib Require Import Sorting.Sorted DecimalString.
Import ListNotations.

Local Open Scope string_scope.
Local Open Scope Z_scope.

(* ===================================================================== *)
(** ** JavaScript odds and ends *)
(* ===================================================================== *)

Module JS.

(** Truthiness of a string: only the empty string is falsy. *)
Definition truthy_string (s : string) : bool :=
  match s with EmptyString => false | _ => true end.

(** Truthiness of an optional string ([undefined] is falsy). *)
Definition truthy (o : option string) : bool :=
  match o with Some s => truthy_string s | None => false end.

(** [a || b] on optional strings, [b] being a string. *)
Definition or_string (o : option string) (d : string) : string :=
  match o with
  | Some s => if truthy_string s then s else d
  | None => d
  end.

(** [a || b] on optional arrays: every array, also the empty one, is
    truthy. *)
Definition or_list {A} (o : option (list A)) (d : list A) : list A :=
  match o with Some l => l | None => d end.

(** [Array.prototype.join]. *)
Fixpoint join (sep : string) (l : list string) : string :=
  match l with
  | [] => ""
  | [x] => x
  | x :: r => x ++ sep ++ join sep r
  end.

(** [s.replace(/c/g, rep)] for a one-character pattern [c]. *)
Fixpoint replace_all (c : ascii) (rep : string) (s : string) : string :=
  match s with
  | EmptyString => EmptyString
  | String a r =>
      if Ascii.eqb a c then rep ++ replace_all c rep r
      else String a (replace_all c rep r)
  end.

Definition is_digit (a : ascii) : bool :=
  let n := N_of_ascii a in (48 <=? n)%N && (n <=? 57)%N.

Definition digit_val (a : ascii) : Z := Z.of_N (N_of_ascii a) - 48.

(** White space in the ASCII range: tab, line feed, vertical tab, form
    feed, carriage return and space. *)
Definition is_space (a : ascii) : bool :=
  let n := N_of_ascii a in
  ((9 <=? n)%N && (n <=? 13)%N) || (n =? 32)%N.

Fixpoint skip_spaces (s : string) : string :=
  match s with
  | String a r => if is_space a then skip_spaces r else s
  | EmptyString => s
  end.

(** The digits read by [parseInt]: the longest prefix of decimal digits,
    accumulated from the left; [None] when there is none. *)
Fixpoint read_digits (acc : option Z) (s : string) : option Z :=
  match s with
  | String a r =>
      if is_digit a
      then read_digits (Some (10 * match acc with Some n => n | None => 0 end
                              + digit_val a)) r
      else acc
  | EmptyString => acc
  end.

(** [parseInt(s, 10)]; [None] is NaN. *)
Definition parseInt (s : string) : option Z :=
  match skip_spaces s with
  | String "-" r => option_map Z.opp (read_digits None r)
  | String "+" r => read_digits None r
  | r => read_digits None r
  end.

(** [parseInt(s, 10) || d]: NaN and 0 are falsy. *)
Definition parseInt_or (s : string) (d : Z) : Z :=
  match parseInt s with
  | Some 0 => d
  | Some n => n
  | None => d
  end.

(** ASCII part of [toLowerCase]. *)
Definition lower (a : ascii) : ascii :=
  let n := N_of_ascii a in
  if (65 <=? n)%N && (n <=? 90)%N then ascii_of_N (n + 32) else a.

Fixpoint toLowerCase (s : string) : string :=
  match s with
  | EmptyString => EmptyString
  | String a r => String (lower a) (toLowerCase r)
  end.

Fixpoint all_space (s : string) : bool :=
  match s with
  | EmptyString => true
  | String a r => is_space a && all_space r
  end.

(** Removes the white space at the end of a string. *)
Fixpoint trim_end (s : string) : string :=
  match s with
  | EmptyString => EmptyString
  | String a r => if all_space s then EmptyString else String a (trim_end r)
  end.

Definition trim (s : string) : string := trim_end (skip_spaces s).

(** [s.replace(/\s+/g, ' ')]: every maximal run of white space becomes
    one space.  [in_run] tells whether the previous character was white
    space. *)
Fixpoint collapse_spaces (in_run : bool) (s : string) : string :=
  match s with
  | EmptyString => EmptyString
  | String a r =>
      if is_space a
      then (if in_run then collapse_spaces true r
            else String " " (collapse_spaces true r))
      else String a (collapse_spaces false r)
  end.

(** The value of a numeric expression that can leave the finite numbers:
    [Math.ceil(a / b)] is [Infinity] or [NaN] when [b] is 0. *)
Inductive num : Type :=
| Fin (z : Z)
| Infinity
| NaN.

(** [Math.ceil(a / b)] for integers [a >= 0] and [b]. *)
Definition ceil_div (a b : Z) : num :=
  if b =? 0 then (if a =? 0 then NaN else Infinity)
  else Fin (Qceiling (Qmake a 1 / Qmake b 1)).

End JS.

(* ===================================================================== *)
(** ** Dates *)
(* ===================================================================== *)

Module JSDate.

Definition msPerDay : Z := 24 * 60 * 60 * 1000.

(** Day number (days since 1970-01-01) of the civil date [y]-[m]-[d],
    in the proleptic Gregorian calendar; [d] may run over the end of the
    month, as in ECMAScript's MakeDay. *)
Definition days_from_civil (y m d : Z) : Z :=
  let y' := if m <=? 2 then y - 1 else y in
  let era := y' / 400 in
  let yoe := y' - era * 400 in
  let mp := (m + 9) mod 12 in
  let doy := (153 * mp + 2) / 5 + d - 1 in
  let doe := yoe * 365 + yoe / 4 - yoe / 100 + doy in
  era * 146097 + doe - 719468.

(** The civil date (year, month, day of month) of a day number. *)
Definition civil_from_days (z : Z) : Z * Z * Z :=
  let z' := z + 719468 in
  let era := z' / 146097 in
  let doe := z' - era * 146097 in
  let yoe := (doe - doe / 1460 + doe / 36524 - doe / 146096) / 365 in
  let doy := doe - (365 * yoe + yoe / 4 - yoe / 100) in
  let mp := (5 * doy + 2) / 153 in
  let d := doy - (153 * mp + 2) / 5 + 1 in
  let m := if mp <? 10 then mp + 3 else mp - 9 in
  let y := yoe + era * 400 in
  (if m <=? 2 then y + 1 else y, m, d).

Definition day_of (t : Z) : Z := t / msPerDay.
Definition time_in_day (t : Z) : Z := t mod msPerDay.

Definition getFullYear (t : Z) : Z :=
  let '(y, _, _) := civil_from_days (day_of t) in y.

Definition getDate (t : Z) : Z :=
  let '(_, _, d) := civil_from_days (day_of t) in d.

(** [d.setFullYear(y)]: same month, day of month and time of day in the
    year [y]. *)
Definition setFullYear (t : Z) (y : Z) : Z :=
  let '(_, m, d) := civil_from_days (day_of t) in
  days_from_civil y m d * msPerDay + time_in_day t.

(** [d.setDate(n)]: day [n] of the month of [d], same time of day. *)
Definition setDate (t : Z) (n : Z) : Z :=
  let '(y, m, _) := civil_from_days (day_of t) in
  days_from_civil y m n * msPerDay + time_in_day t.

Definition digit_char (n : Z) : ascii := ascii_of_N (Z.to_N (48 + n mod 10)).

Definition pad2 (n : Z) : string :=
  String (digit_char (n / 10)) (String (digit_char n) EmptyString).

Definition pad4 (n : Z) : string :=
  String (digit_char (n / 1000)) (String (digit_char (n / 100)) (pad2 n)).

(** date-fns [format(d, 'yyyy-MM-dd')] for the years 0 to 9999. *)
Definition format_yyyy_MM_dd (t : Z) : string :=
  let '(y, m, d) := civil_from_days (day_of t) in
  pad4 y ++ "-" ++ pad2 m ++ "-" ++ pad2 d.

(** date-fns [isValid], [isAfter] and [isBefore]: comparisons of the time
    values, false as soon as one date is invalid. *)
Definition isValid (d : option Z) : bool :=
  match d with Some _ => true | None => false end.

Definition isAfter (a b : option Z) : bool :=
  match a, b with Some x, Some y => y <? x | _, _ => false end.

Definition isBefore (a b : option Z) : bool :=
  match a, b with Some x, Some y => x <? y | _, _ => false end.

(** The calendar-date form [yyyy-MM-dd] of ISO 8601, read as midnight of
    that day: the one form of [parseISO] that the application itself
    produces (see [format_yyyy_MM_dd]).  Anything else is an Invalid
    Date here. *)
Definition two_digits (a b : ascii) : option Z :=
  if JS.is_digit a && JS.is_digit b
  then Some (10 * JS.digit_val a + JS.digit_val b) else None.

Definition parse_calendar_date (s : string) : option Z :=
  match s with
  | String y1 (String y2 (String y3 (String y4 (String "-"
      (String m1 (String m2 (String "-"
        (String d1 (String d2 EmptyString))))))))) =>
      match two_digits y1 y2, two_digits y3 y4,
            two_digits m1 m2, two_digits d1 d2 with
      | Some yh, Some yl, Some m, Some d =>
          let y := 100 * yh + yl in
          let days := days_from_civil y m d in
          if (1 <=? m) && (m <=? 12) && (1 <=? d)
             && (days <? days_from_civil y (m + 1) 1)
          then Some (days * msPerDay) else None
      | _, _, _, _ => None
      end
  | _ => None
  end.

End JSDate.

Import JSDate.

(* ===================================================================== *)
(** ** The data model ([types/weather.ts]) *)
(* ===================================================================== *)

Definition number : Type := Q.

(** A [Date]: milliseconds since the epoch. *)
Definition Date : Type := Z.

Record WeatherData : Type := {
  wd_name : string;
  wd_country : string;
  temperature : number;
  wd_description : string;
  wd_icon : string;
  feelsLike : number;
  wd_humidity : number;
  pressure : number;
  wd_windSpeed : number;
  windDirection : number;
  visibility : number;
  clouds : number;
  sunrise : number;
  sunset : number
}.

Record ForecastItem : Type := {
  fi_date : string;
  temperature_min : number;
  temperature_max : number;
  fi_description : string;
  fi_icon : string;
  fi_humidity : number;
  fi_windSpeed : number;
  pop : number
}.

Record ForecastData : Type := {
  city_name : string;
  city_country : string;
  list_ : list ForecastItem
}.

Record Coordinates : Type := { lat : number; lon : number }.

Record DateRange : Type := { startDate : string; endDate : string }.

Record DateRangeValidation : Type := {
  isValid : bool;
  errors : list string;
  adjustedRange : option DateRange
}.

Record LocationMatch : Type := {
  lm_name : string;
  lm_country : string;
  lm_state : option string;
  lm_coordinates : Coordinates;
  (** [None] is NaN. *)
  confidence : option number
}.

(** A 12-byte MongoDB ObjectId, as the number it encodes. *)
Definition ObjectId : Type := N.

(** The fields of a weather query other than [_id]
    ([Omit<WeatherQuery, '_id'>]). *)
Record WeatherQuery : Type := {
  location : string;
  locationNormalized : string;
  coordinates : option Coordinates;
  dateRange : DateRange;
  weatherData : WeatherData;
  forecastData : option ForecastData;
  createdAt : Date;
  updatedAt : Date;
  tags : option (list string);
  userNotes : option string
}.

Record AIInsight : Type := {
  queryId : string;
  ai_location : string;
  insight : string;
  recommendations : option (list string);
  weatherSummary : string;
  travelAdvice : option string;
  clothingRecommendations : option (list string);
  activitySuggestions : option (list string);
  generatedAt : Date;
  model : string
}.

(** A document as the methods return it: the fields and [_id] as a
    string. *)
Definition WithId (A : Type) : Type := (option string * A)%type.

Record CreateWeatherQueryRequest : Type := {
  cr_location : string;
  cr_dateRange : DateRange;
  cr_userNotes : option string;
  cr_tags : option (list string)
}.

Record UpdateWeatherQueryRequest : Type := {
  up_location : option string;
  up_dateRange : option DateRange;
  up_userNotes : option string;
  up_tags : option (list string)
}.

Record WeatherQueryFilters : Type := {
  f_location : option string;
  f_dateFrom : option string;
  f_dateTo : option string;
  f_tags : option (list string);
  f_hasAIInsight : option bool
}.

Record PaginatedResponse (A : Type) : Type := {
  data : list A;
  totalCount : Z;
  page_ : Z;
  limit_ : Z;
  totalPages : JS.num
}.
Arguments data {A}.
Arguments totalCount {A}.
Arguments page_ {A}.
Arguments limit_ {A}.
Arguments totalPages {A}.

(* ===================================================================== *)
(** ** Libraries the service calls *)
(* ===================================================================== *)

(** The options given to [new Fuse(list, options)]. *)
Record FuseOptions : Type := {
  keys : list string;
  threshold : number
}.

(** What the service takes from its libraries without this development
    looking inside them. *)
Class Platform : Type := {
  (** date-fns [parseISO]; [None] is an Invalid Date. *)
  parseISO : string -> option Date;
  (** fuse.js: the score, between 0 (perfect) and 1, of an item that
      matches the pattern under the options; [None] when it does not
      match. *)
  fuse_score : FuseOptions -> string -> LocationMatch -> option number;
  (** [new ObjectId(s)]; [None] when the constructor throws. *)
  ObjectId_parse : string -> option ObjectId;
  (** [oid.toString()]. *)
  ObjectId_toString : ObjectId -> string;
  (** MongoDB's [$regex] with the option [i]. *)
  regex_match_i : string -> string -> bool;
  (** [findOneAndUpdate] returns [{ value: document, ... }] when the
      driver includes the result metadata, and the bare document
      otherwise. *)
  includeResultMetadata : bool;
  (** [String(date)] and [String(number)], as template literals do, and
      [date.toISOString()]. *)
  Date_toString : Date -> string;
  Number_toString : number -> string;
  Date_toISOString : Date -> string;
  (** js2xmlparser on the export object built from the queries and the
      insights at an export time; [None] when the call throws. *)
  js2xml : list (WithId WeatherQuery) -> list (WithId AIInsight) -> Date
           -> option string
}.

(* ===================================================================== *)
(** ** The world and the monad of the service methods *)
(* ===================================================================== *)

(** The write commands sent to the database. *)
Inductive DbWrite : Type :=
| InsertQuery (oid : ObjectId)
| UpdateQuery (oid : ObjectId)
| DeleteQuery (oid : ObjectId)
| DeleteInsights (queryId : string).

(** Modelled from the spec: [lib/mongodb] ([getDatabase], [COLLECTIONS])
    is not among the sources.  Following section 6, the document store is
    two collections, query records and insight records, with filtered
    find with sort, skip and limit, count, insert, find by id, update by
    id, delete by id and delete-many by foreign key.  A collection is the
    list of its documents in insertion order, each with its [_id]; the
    store is reachable and its commands do what they say.

    Beside the collections the world holds what the outside will answer:
    the next readings of the clock, the next answers of the weather
    provider to a current-weather and to a forecast request, and the next
    ObjectIds the driver generates.  Each is a sequence, consumed from
    position 0. *)
Record World : Type := {
  weather_queries : list (ObjectId * WeatherQuery);
  ai_insights : list (ObjectId * AIInsight);
  writes : list DbWrite;
  clock : nat -> Date;
  weather_api : nat -> string -> option WeatherData;
  forecast_api : nat -> string -> option ForecastData;
  new_oids : nat -> ObjectId
}.

Definition next {A} (s : nat -> A) : nat -> A := fun n => s (S n).

Definition with_queries (qs : list (ObjectId * WeatherQuery)) (w : World) :=
  {| weather_queries := qs; ai_insights := ai_insights w;
     writes := writes w; clock := clock w; weather_api := weather_api w;
     forecast_api := forecast_api w; new_oids := new_oids w |}.

Definition with_insights (xs : list (ObjectId * AIInsight)) (w : World) :=
  {| weather_queries := weather_queries w; ai_insights := xs;
     writes := writes w; clock := clock w; weather_api := weather_api w;
     forecast_api := forecast_api w; new_oids := new_oids w |}.

Definition log_write (e : DbWrite) (w : World) :=
  {| weather_queries := weather_queries w; ai_insights := ai_insights w;
     writes := writes w ++ [e]; clock := clock w;
     weather_api := weather_api w; forecast_api := forecast_api w;
     new_oids := new_oids w |}.

Definition tick_clock (w : World) :=
  {| weather_queries := weather_queries w; ai_insights := ai_insights w;
     writes := writes w; clock := next (clock w);
     weather_api := weather_api w; forecast_api := forecast_api w;
     new_oids := new_oids w |}.

Definition tick_weather (w : World) :=
  {| weather_queries := weather_queries w; ai_insights := ai_insights w;
     writes := writes w; clock := clock w;
     weather_api := next (weather_api w); forecast_api := forecast_api w;
     new_oids := new_oids w |}.

Definition tick_forecast (w : World) :=
  {| weather_queries := weather_queries w; ai_insights := ai_insights w;
     writes := writes w; clock := clock w;
     weather_api := weather_api w; forecast_api := next (forecast_api w);
     new_oids := new_oids w |}.

Definition tick_oids (w : World) :=
  {| weather_queries := weather_queries w; ai_insights := ai_insights w;
     writes := writes w; clock := clock w;
     weather_api := weather_api w; forecast_api := forecast_api w;
     new_oids := next (new_oids w) |}.

(** How a method ends: it returns a value or throws an [Error] with a
    message. *)
Inductive Result (A : Type) : Type :=
| Return (a : A)
| Throw (message : string).
Arguments Return {A}.
Arguments Throw {A}.

Definition M (A : Type) : Type := World -> Result A * World.

Definition ret {A} (a : A) : M A := fun w => (Return a, w).

Definition throw {A} (message : string) : M A := fun w => (Throw message, w).

Definition bind {A B} (c : M A) (k : A -> M B) : M B :=
  fun w =>
    match c w with
    | (Return a, w') => k a w'
    | (Throw m, w') => (Throw m, w')
    end.

(** [try { c } catch (error) { handler(error.message) }]. *)
Definition try_catch {A} (c : M A) (handler : string -> M A) : M A :=
  fun w =>
    match c w with
    | (Return a, w') => (Return a, w')
    | (Throw m, w') => handler m w'
    end.

(** [Promise.all([a, b])]: both are started; the result is the pair of
    their values, or the first rejection. *)
Definition Promise_all2 {A B} (a : M A) (b : M B) : M (A * B) :=
  fun w =>
    let (ra, w1) := a w in
    let (rb, w2) := b w1 in
    (match ra, rb with
     | Return x, Return y => Return (x, y)
     | Throw m, _ => Throw m
     | Return _, Throw m => Throw m
     end, w2).

Declare Scope monad_scope.
Delimit Scope monad_scope with monad.
Notation "x <- c ;; k" := (bind c (fun x => k))
  (at level 61, c at next level, right associativity) : monad_scope.
Notation "' pat <- c ;; k" := (bind c (fun x => match x with pat => k end))
  (at level 61, pat pattern, c at next level, right associativity)
  : monad_scope.
Notation "c ;; k" := (bind c (fun _ => k))
  (at level 61, right associativity) : monad_scope.
Local Open Scope monad_scope.

(** [new Date()] and [Date.now()]. *)
Definition new_Date : M Date := fun w => (Return (clock w 0%nat), tick_clock w).
Definition Date_now : M Date := new_Date.

Definition quote : string := String (ascii_of_N 34) EmptyString.

(* ===================================================================== *)
(** ** [utils/weatherApi.ts] *)
(* ===================================================================== *)

(** [getCurrentWeather]: the request and the transformation of its answer
    are in a [try] whose [catch] throws one fixed error; [weather_api]
    gives the [WeatherData] the [try] block builds, or [None] when
    anything in it throws. *)
Definition getCurrentWeather (location : string) : M WeatherData :=
  fun w =>
    (match weather_api w 0%nat location with
     | Some weatherData => Return weatherData
     | None => Throw "Failed to fetch current weather data"
     end, tick_weather w).

(** [getForecast], likewise. *)
Definition getForecast (location : string) : M ForecastData :=
  fun w =>
    (match forecast_api w 0%nat location with
     | Some forecastData => Return forecastData
     | None => Throw "Failed to fetch forecast data"
     end, tick_forecast w).

(* ===================================================================== *)
(** ** The database commands *)
(* ===================================================================== *)

Module Db.

Definition find_by_id {A} (oid : ObjectId) (c : list (ObjectId * A))
  : option (ObjectId * A) :=
  find (fun d => N.eqb (fst d) oid) c.

(** Removes the first document with the given [_id]. *)
Fixpoint remove_one {A} (oid : ObjectId) (c : list (ObjectId * A))
  : list (ObjectId * A) :=
  match c with
  | [] => []
  | d :: r => if N.eqb (fst d) oid then r else d :: remove_one oid r
  end.

(** Replaces the first document with the given [_id] by its image. *)
Fixpoint update_one {A} (oid : ObjectId) (f : A -> A)
  (c : list (ObjectId * A)) : list (ObjectId * A) :=
  match c with
  | [] => []
  | d :: r =>
      if N.eqb (fst d) oid then (fst d, f (snd d)) :: r
      else d :: update_one oid f r
  end.

(** [collection.insertOne(doc)]: the driver gives the document a new
    [_id]; the unique index on [_id] refuses a duplicate. *)
Definition insertOne (doc : WeatherQuery) : M ObjectId :=
  fun w =>
    let oid := new_oids w 0%nat in
    let w := log_write (InsertQuery oid) (tick_oids w) in
    match find_by_id oid (weather_queries w) with
    | Some _ => (Throw "E11000 duplicate key error", w)
    | None => (Return oid, with_queries (weather_queries w ++ [(oid, doc)]) w)
    end.

(** [collection.findOne({ _id: oid })]. *)
Definition findOne (oid : ObjectId) : M (option (ObjectId * WeatherQuery)) :=
  fun w => (Return (find_by_id oid (weather_queries w)), w).

(** [collection.deleteOne({ _id: oid })], giving [deletedCount]. *)
Definition deleteOne (oid : ObjectId) : M Z :=
  fun w =>
    let w := log_write (DeleteQuery oid) w in
    match find_by_id oid (weather_queries w) with
    | Some _ => (Return 1, with_queries (remove_one oid (weather_queries w)) w)
    | None => (Return 0, w)
    end.

(** [insightsCollection.deleteMany({ queryId: id })]. *)
Definition deleteMany_insights (id : string) : M unit :=
  fun w =>
    let w := log_write (DeleteInsights id) w in
    (Return tt,
     with_insights
       (filter (fun d => negb (String.eqb (queryId (snd d)) id))
               (ai_insights w)) w).

(** [insightsCollection.findOne({ queryId })]. *)
Definition findOne_insight (id : string) : M (option (ObjectId * AIInsight)) :=
  fun w =>
    (Return (find (fun d => String.eqb (queryId (snd d)) id) (ai_insights w)),
     w).

End Db.

(* ===================================================================== *)
(** ** fuse.js *)
(* ===================================================================== *)

Record Fuse : Type := {
  fuse_docs : list LocationMatch;
  fuse_keys : list string;
  fuse_threshold : number;
  (** [includeScore] is false unless the options ask for it. *)
  fuse_includeScore : bool
}.

Record FuseResult : Type := {
  item : LocationMatch;
  refIndex : nat;
  (** [undefined] unless [includeScore] is set. *)
  score : option number
}.

(** [new Fuse(list, { keys, threshold })]. *)
Definition Fuse_new (docs : list LocationMatch) (ks : list string)
  (th : number) : Fuse :=
  {| fuse_docs := docs; fuse_keys := ks; fuse_threshold := th;
     fuse_includeScore := false |}.

(** Inserts a scored item so that scores stay in increasing order, after
    the items of equal score. *)
Fixpoint insert_by_score (x : LocationMatch * nat * number)
  (l : list (LocationMatch * nat * number))
  : list (LocationMatch * nat * number) :=
  match l with
  | [] => [x]
  | y :: r =>
      if Qle_bool (snd y) (snd x) then y :: insert_by_score x r
      else x :: l
  end.

Fixpoint scored_items `{Platform} (f : Fuse) (pattern : string) (i : nat)
  (docs : list LocationMatch) : list (LocationMatch * nat * number) :=
  match docs with
  | [] => []
  | d :: r =>
      match fuse_score {| keys := fuse_keys f; threshold := fuse_threshold f |}
                       pattern d with
      | Some s => (d, i, s) :: scored_items f pattern (S i) r
      | None => scored_items f pattern (S i) r
      end
  end.

(** [fuse.search(pattern)]: the items of the collection that match, best
    score first. *)
Definition Fuse_search `{Platform} (f : Fuse) (pattern : string)
  : list FuseResult :=
  map (fun x : LocationMatch * nat * number =>
         {| item := fst (fst x); refIndex := snd (fst x);
            score := if fuse_includeScore f then Some (snd x) else None |})
      (fold_right insert_by_score []
         (rev (scored_items f pattern 0%nat (fuse_docs f)))).

(* ===================================================================== *)
(** ** [lib/weatherService.ts] *)
(* ===================================================================== *)

Record CommonLocation : Type := {
  cl_name : string;
  cl_country : string;
  cl_state : option string
}.

Definition mkLoc (n c : string) : CommonLocation :=
  {| cl_name := n; cl_country := c; cl_state := None |}.

Definition mkLocState (n c s : string) : CommonLocation :=
  {| cl_name := n; cl_country := c; cl_state := Some s |}.

(** Common city names for fuzzy matching. *)
Definition COMMON_LOCATIONS : list CommonLocation :=
  [ mkLocState "New York" "US" "NY";
    mkLoc "London" "GB";
    mkLoc "Tokyo" "JP";
    mkLoc "Paris" "FR";
    mkLoc "Sydney" "AU";
    mkLocState "Los Angeles" "US" "CA";
    mkLocState "Chicago" "US" "IL";
    mkLoc "Toronto" "CA";
    mkLoc "Berlin" "DE";
    mkLoc "Mumbai" "IN";
    mkLoc "Singapore" "SG";
    mkLoc "Dubai" "AE";
    mkLoc ("S" ++ String (ascii_of_N 195) (String (ascii_of_N 163) "o Paulo"))
          "BR";
    mkLoc "Mexico City" "MX";
    mkLoc "Moscow" "RU" ].

(** The state of a [WeatherService] object. *)
Record WeatherService : Type := { fuse : Fuse }.

(** The constructor: the Fuse index is built over an empty list. *)
Definition constructor : WeatherService :=
  {| fuse := Fuse_new [] ["name"; "country"; "state"] (3 # 10) |}.

Definition weatherService : WeatherService := constructor.

Section Service.

Context `{Platform}.

(** [errors.push(e)] when [c] holds. *)
Definition push_if (c : bool) (e : string) (errors : list string)
  : list string :=
  if c then errors ++ [e] else errors.

Definition no_errors (errors : list string) : bool :=
  (Z.of_nat (List.length errors) =? 0).

(** *** Validation *)

Definition validateDateRange (dateRange : DateRange) : M DateRangeValidation :=
  let start := parseISO (startDate dateRange) in
  let end_ := parseISO (endDate dateRange) in
  let errors := [] in
  let errors := push_if (negb (JSDate.isValid start))
                        "Start date is invalid" errors in
  let errors := push_if (negb (JSDate.isValid end_))
                        "End date is invalid" errors in
  errors <-
    (if no_errors errors then
       let errors := push_if (isAfter start end_)
                       "Start date cannot be after end date" errors in
       oneYearAgo <- new_Date ;;
       let oneYearAgo := setFullYear oneYearAgo (getFullYear oneYearAgo - 1) in
       let errors := push_if (isBefore start (Some oneYearAgo))
                       "Historical weather data is limited to the past year"
                       errors in
       fiveDaysFromNow <- new_Date ;;
       let fiveDaysFromNow :=
         setDate fiveDaysFromNow (getDate fiveDaysFromNow + 5) in
       let errors := push_if (isAfter start (Some fiveDaysFromNow))
                       "Weather forecasts are only available for the next 5 days with OpenWeatherMap free tier"
                       errors in
       let errors := push_if (isAfter end_ (Some fiveDaysFromNow))
                       "For long-term planning beyond 5 days, consider using current weather patterns and seasonal trends"
                       errors in
       ret errors
     else ret errors) ;;
  adjusted <-
    (if no_errors errors then ret dateRange
     else
       today <- new_Date ;;
       now <- Date_now ;;
       ret {| startDate := format_yyyy_MM_dd today;
              endDate := format_yyyy_MM_dd (now + 5 * 24 * 60 * 60 * 1000) |}) ;;
  ret {| isValid := no_errors errors;
         errors := errors;
         adjustedRange := Some adjusted |}.

(** [1 - result.score!]: NaN, here [None], when the score is undefined. *)
Definition one_minus (s : option number) : option number :=
  option_map (fun x => (1 - x)%Q) s.

Definition zero_coordinates : Coordinates := {| lat := 0%Q; lon := 0%Q |}.

Definition validateLocation (this : WeatherService) (location : string)
  : M (list LocationMatch) :=
  found <-
    try_catch
      (weatherData <- getCurrentWeather location ;;
       ret (Some [ {| lm_name := wd_name weatherData;
                      lm_country := wd_country weatherData;
                      lm_state := None;
                      lm_coordinates := zero_coordinates;
                      confidence := Some 1%Q |} ]))
      (fun _ => ret None) ;;
  match found with
  | Some matches => ret matches
  | None =>
      let fuzzyResults := Fuse_search (fuse this) location in
      ret (map (fun result =>
                  {| lm_name := lm_name (item result);
                     lm_country := lm_country (item result);
                     lm_state := lm_state (item result);
                     lm_coordinates := zero_coordinates;
                     confidence := one_minus (score result) |})
               fuzzyResults)
  end.

Definition normalizeLocation (location : string) : string :=
  JS.collapse_spaces false (JS.trim (JS.toLowerCase location)).

(** [bestMatch.confidence > 0.8]; a comparison with NaN is false. *)
Definition confident (m : LocationMatch) : bool :=
  match confidence m with
  | Some c => negb (Qle_bool c (8 # 10))
  | None => false
  end.

Definition with_id (d : ObjectId * WeatherQuery) : WithId WeatherQuery :=
  (Some (ObjectId_toString (fst d)), snd d).

(** [new ObjectId(id)]. *)
Definition new_ObjectId (id : string) : M ObjectId :=
  match ObjectId_parse id with
  | Some oid => ret oid
  | None => throw "input must be a 24 character hex string, 12 byte Uint8Array, or an integer"
  end.

(** *** CRUD operations *)

Definition createWeatherQuery (this : WeatherService)
  (request : CreateWeatherQueryRequest) : M (WithId WeatherQuery) :=
  dateValidation <- validateDateRange (cr_dateRange request) ;;
  if negb (isValid dateValidation) then
    throw ("Invalid date range: " ++ JS.join ", " (errors dateValidation))
  else
  locationMatches <- validateLocation this (cr_location request) ;;
  match locationMatches with
  | [] =>
      throw ("Location " ++ quote ++ cr_location request ++ quote
             ++ " not found. Please check the spelling and try again.")
  | bestMatch :: _ =>
      let finalLocation :=
        if confident bestMatch then lm_name bestMatch
        else cr_location request in
      try_catch
        ('(weatherData, forecastData) <-
           Promise_all2
             (getCurrentWeather finalLocation)
             (try_catch (f <- getForecast finalLocation ;; ret (Some f))
                        (fun _ => ret None)) ;;
         created_at <- new_Date ;;
         updated_at <- new_Date ;;
         let weatherQuery :=
           {| location := cr_location request;
              locationNormalized := normalizeLocation finalLocation;
              coordinates := Some (lm_coordinates bestMatch);
              dateRange :=
                match adjustedRange dateValidation with
                | Some r => r
                | None => cr_dateRange request
                end;
              weatherData := weatherData;
              forecastData := forecastData;
              createdAt := created_at;
              updatedAt := updated_at;
              tags := Some (JS.or_list (cr_tags request) []);
              userNotes := Some (JS.or_string (cr_userNotes request) "") |} in
         insertedId <- Db.insertOne weatherQuery ;;
         created <- Db.findOne insertedId ;;
         match created with
         | None => throw "Failed to create weather query"
         | Some d => ret (with_id d)
         end)
        (fun message => throw ("Failed to fetch weather data: " ++ message))
  end.

Definition getWeatherQuery (id : string) : M (option (WithId WeatherQuery)) :=
  try_catch
    (oid <- new_ObjectId id ;;
     query <- Db.findOne oid ;;
     match query with
     | None => ret None
     | Some d => ret (Some (with_id d))
     end)
    (fun _ => ret None).

(** The document given to [$set]: the fields it assigns. *)
Record UpdateDoc : Type := {
  set_updatedAt : Date;
  set_location : option string;
  set_locationNormalized : option string;
  set_coordinates : option Coordinates;
  set_weatherData : option WeatherData;
  set_forecastData : option ForecastData;
  set_dateRange : option DateRange;
  set_userNotes : option string;
  set_tags : option (list string)
}.

Definition assign {A} (new : option A) (old : A) : A :=
  match new with Some a => a | None => old end.

Definition assign_opt {A} (new : option A) (old : option A) : option A :=
  match new with Some a => Some a | None => old end.

(** The effect of [{ $set: updateDoc }] on a document. *)
Definition apply_set (u : UpdateDoc) (q : WeatherQuery) : WeatherQuery :=
  {| location := assign (set_location u) (location q);
     locationNormalized :=
       assign (set_locationNormalized u) (locationNormalized q);
     coordinates := assign_opt (set_coordinates u) (coordinates q);
     dateRange := assign (set_dateRange u) (dateRange q);
     weatherData := assign (set_weatherData u) (weatherData q);
     forecastData := assign_opt (set_forecastData u) (forecastData q);
     createdAt := createdAt q;
     updatedAt := set_updatedAt u;
     tags := assign_opt (set_tags u) (tags q);
     userNotes := assign_opt (set_userNotes u) (userNotes q) |}.

(** [collection.findOneAndUpdate({ _id: oid }, { $set: updateDoc },
    { returnDocument: 'after' })]: the document after the update, or
    [None] (null) when no document has this [_id]. *)
Definition findOneAndUpdate (oid : ObjectId) (updateDoc : UpdateDoc)
  : M (option (ObjectId * WeatherQuery)) :=
  fun w =>
    let w := log_write (UpdateQuery oid) w in
    let qs := Db.update_one oid (apply_set updateDoc) (weather_queries w) in
    (Return (Db.find_by_id oid qs), with_queries qs w).

(** [result.value] on what [findOneAndUpdate] resolves to.  With the
    result metadata it is the document or null; without, the result is
    the document itself, which has no field [value], or null, on which
    the property access throws. *)
Definition result_value (result : option (ObjectId * WeatherQuery))
  : M (option (ObjectId * WeatherQuery)) :=
  if includeResultMetadata then ret result
  else match result with
       | Some _ => ret None
       | None => throw "Cannot read properties of null (reading 'value')"
       end.

Definition empty_update (now : Date) : UpdateDoc :=
  {| set_updatedAt := now; set_location := None;
     set_locationNormalized := None; set_coordinates := None;
     set_weatherData := None; set_forecastData := None;
     set_dateRange := None; set_userNotes := None; set_tags := None |}.

(** The block "Handle location update" of [updateWeatherQuery]. *)
Definition handle_location_update (this : WeatherService)
  (updates : UpdateWeatherQueryRequest) (updateDoc : UpdateDoc)
  : M UpdateDoc :=
  if JS.truthy (up_location updates) then
    let new_location := JS.or_string (up_location updates) "" in
    locationMatches <- validateLocation this new_location ;;
    match locationMatches with
    | [] =>
        throw ("Location " ++ quote ++ new_location ++ quote ++ " not found")
    | bestMatch :: _ =>
        let finalLocation :=
          if confident bestMatch then lm_name bestMatch else new_location in
        (* Fetch new weather data for updated location *)
        '(weatherData, forecastData) <-
          Promise_all2
            (getCurrentWeather finalLocation)
            (try_catch (f <- getForecast finalLocation ;; ret (Some f))
                       (fun _ => ret None)) ;;
        ret {| set_updatedAt := set_updatedAt updateDoc;
               set_location := Some new_location;
               set_locationNormalized :=
                 Some (normalizeLocation finalLocation);
               set_coordinates := Some (lm_coordinates bestMatch);
               set_weatherData := Some weatherData;
               set_forecastData :=
                 match forecastData with
                 | Some f => Some f
                 | None => set_forecastData updateDoc
                 end;
               set_dateRange := set_dateRange updateDoc;
               set_userNotes := set_userNotes updateDoc;
               set_tags := set_tags updateDoc |}
    end
  else ret updateDoc.

(** The block "Handle date range update". *)
Definition handle_dateRange_update (updates : UpdateWeatherQueryRequest)
  (updateDoc : UpdateDoc) : M UpdateDoc :=
  match up_dateRange updates with
  | Some range =>
      dateValidation <- validateDateRange range ;;
      if negb (isValid dateValidation) then
        throw ("Invalid date range: " ++ JS.join ", " (errors dateValidation))
      else
        ret {| set_updatedAt := set_updatedAt updateDoc;
               set_location := set_location updateDoc;
               set_locationNormalized := set_locationNormalized updateDoc;
               set_coordinates := set_coordinates updateDoc;
               set_weatherData := set_weatherData updateDoc;
               set_forecastData := set_forecastData updateDoc;
               set_dateRange :=
                 Some match adjustedRange dateValidation with
                      | Some r => r
                      | None => range
                      end;
               set_userNotes := set_userNotes updateDoc;
               set_tags := set_tags updateDoc |}
  | None => ret updateDoc
  end.

(** The block "Handle other updates": a field that is not [undefined]
    is assigned. *)
Definition handle_other_updates (updates : UpdateWeatherQueryRequest)
  (updateDoc : UpdateDoc) : UpdateDoc :=
  {| set_updatedAt := set_updatedAt updateDoc;
     set_location := set_location updateDoc;
     set_locationNormalized := set_locationNormalized updateDoc;
     set_coordinates := set_coordinates updateDoc;
     set_weatherData := set_weatherData updateDoc;
     set_forecastData := set_forecastData updateDoc;
     set_dateRange := set_dateRange updateDoc;
     set_userNotes := assign_opt (up_userNotes updates)
                                 (set_userNotes updateDoc);
     set_tags := assign_opt (up_tags updates) (set_tags updateDoc) |}.

Definition updateWeatherQuery (this : WeatherService) (id : string)
  (updates : UpdateWeatherQueryRequest) : M (option (WithId WeatherQuery)) :=
  try_catch
    (now <- new_Date ;;
     let updateDoc := empty_update now in
     updateDoc <- handle_location_update this updates updateDoc ;;
     updateDoc <- handle_dateRange_update updates updateDoc ;;
     let updateDoc := handle_other_updates updates updateDoc in
     oid <- new_ObjectId id ;;
     result <- findOneAndUpdate oid updateDoc ;;
     value <- result_value result ;;
     match value with
     | None => ret None
     | Some d => ret (Some (with_id d))
     end)
    (fun message => throw ("Failed to update weather query: " ++ message)).

Definition deleteWeatherQuery (id : string) : M bool :=
  try_catch
    ((* Also delete associated AI insights *)
     Db.deleteMany_insights id ;;
     oid <- new_ObjectId id ;;
     deletedCount <- Db.deleteOne oid ;;
     ret (deletedCount =? 1))
    (fun _ => ret false).

(** *** Listing *)

(** The MongoDB filter that [listWeatherQueries] builds. *)
Record Query : Type := {
  q_locationNormalized_regex : option string;
  q_startDate_gte : option string;
  q_startDate_lte : option string;
  q_tags_in : option (list string)
}.

Definition non_empty {A} (o : option (list A)) : bool :=
  match o with Some (_ :: _) => true | _ => false end.

Definition build_query (filters : WeatherQueryFilters) : Query :=
  {| q_locationNormalized_regex :=
       if JS.truthy (f_location filters)
       then Some (normalizeLocation (JS.or_string (f_location filters) ""))
       else None;
     q_startDate_gte :=
       if JS.truthy (f_dateFrom filters) then f_dateFrom filters else None;
     q_startDate_lte :=
       if JS.truthy (f_dateTo filters) then f_dateTo filters else None;
     q_tags_in :=
       if non_empty (f_tags filters) then f_tags filters else None |}.

Definition holds {A} (o : option A) (p : A -> bool) : bool :=
  match o with Some a => p a | None => true end.

(** Whether a document satisfies the filter; strings compare as MongoDB
    compares them, byte by byte. *)
Definition matches (q : Query) (d : ObjectId * WeatherQuery) : bool :=
  holds (q_locationNormalized_regex q)
        (fun r => regex_match_i r (locationNormalized (snd d)))
  && holds (q_startDate_gte q)
           (fun lo => String.leb lo (startDate (dateRange (snd d))))
  && holds (q_startDate_lte q)
           (fun hi => String.leb (startDate (dateRange (snd d))) hi)
  && holds (q_tags_in q)
           (fun ts =>
              existsb (fun t => existsb (String.eqb t) ts)
                      (JS.or_list (tags (snd d)) [])).

(** [sort({ createdAt: -1 })]: newest first, documents created at the
    same instant in collection order. *)
Fixpoint insert_newest_first (d : ObjectId * WeatherQuery)
  (l : list (ObjectId * WeatherQuery)) : list (ObjectId * WeatherQuery) :=
  match l with
  | [] => [d]
  | e :: r =>
      if createdAt (snd d) <=? createdAt (snd e)
      then e :: insert_newest_first d r
      else d :: l
  end.

Definition sort_newest_first (l : list (ObjectId * WeatherQuery))
  : list (ObjectId * WeatherQuery) :=
  fold_right insert_newest_first [] (rev l).

(** [cursor.limit(n)]: 0 is no limit, and a negative [n] asks for at
    most [-n] documents. *)
Definition cursor_limit {A} (n : Z) (l : list A) : list A :=
  if n =? 0 then l else firstn (Z.to_nat (Z.abs n)) l.

(** [collection.find(query).sort({ createdAt: -1 }).skip(skip)
    .limit(limit).toArray()]; the server refuses a negative skip. *)
Definition find_page (query : Query) (skip limit : Z)
  : M (list (ObjectId * WeatherQuery)) :=
  fun w =>
    if skip <? 0 then (Throw "Skip value must be non-negative", w)
    else
      (Return (cursor_limit limit
                 (skipn (Z.to_nat skip)
                    (sort_newest_first
                       (filter (matches query) (weather_queries w))))),
       w).

(** [collection.countDocuments(query)]. *)
Definition countDocuments (query : Query) : M Z :=
  fun w =>
    (Return (Z.of_nat (List.length (filter (matches query)
                                           (weather_queries w)))), w).

Definition listWeatherQueries (filters : WeatherQueryFilters)
  (page limit : Z) : M (PaginatedResponse (WithId WeatherQuery)) :=
  let query := build_query filters in
  let skip := (page - 1) * limit in
  try_catch
    ('(data, totalCount) <-
       Promise_all2 (find_page query skip limit) (countDocuments query) ;;
     let formattedData := map with_id data in
     ret {| data := formattedData;
            totalCount := totalCount;
            page_ := page;
            limit_ := limit;
            totalPages := JS.ceil_div totalCount limit |})
    (fun _ => throw "Failed to fetch weather queries").

End Service.

(* ===================================================================== *)
(** ** The page size in the two list handlers *)
(* ===================================================================== *)

Module Handlers.

(** [pages/api/weather-queries/index.ts], [handleGet]: the query
    parameters [page] and [limit], absent ones replaced by their
    defaults. *)
Definition pageNum (page : option string) : Z :=
  JS.parseInt_or (match page with Some s => s | None => "1" end) 1.

Definition limitNum (limit : option string) : Z :=
  Z.min (JS.parseInt_or (match limit with Some s => s | None => "10" end) 10)
        50.

(** The export handler. *)
Definition export_limitNum (limit : option string) : Z :=
  Z.min (JS.parseInt_or (match limit with Some s => s | None => "100" end) 100)
        1000.

(** What [handleGet] asks of the service. *)
Definition handleGet_list `{Platform} (filters : WeatherQueryFilters)
  (page limit : option string) : M (PaginatedResponse (WithId WeatherQuery)) :=
  listWeatherQueries filters (pageNum page) (limitNum limit).

(** What the export handler asks of the service. *)
Definition export_list `{Platform} (filters : WeatherQueryFilters)
  (limit : option string) : M (PaginatedResponse (WithId WeatherQuery)) :=
  listWeatherQueries filters 1 (export_limitNum limit).

End Handlers.

(* ===================================================================== *)
(** ** [lib/exportService.ts]: the XML export *)
(* ===================================================================== *)

Module ExportService.

Definition ch_amp : ascii := ascii_of_N 38.
Definition ch_lt : ascii := ascii_of_N 60.
Definition ch_gt : ascii := ascii_of_N 62.
Definition ch_quot : ascii := ascii_of_N 34.
Definition ch_apos : ascii := ascii_of_N 39.

Definition nl : string := String (ascii_of_N 10) EmptyString.

(** [escapeXML(text)]; [None] is a null or undefined argument. *)
Definition escapeXML (text : option string) : string :=
  if negb (JS.truthy text) then ""
  else
    JS.replace_all ch_apos "&apos;"
      (JS.replace_all ch_quot "&quot;"
         (JS.replace_all ch_gt "&gt;"
            (JS.replace_all ch_lt "&lt;"
               (JS.replace_all ch_amp "&amp;" (JS.or_string text ""))))).

(** [`${x}`] for an [_id] that may be undefined. *)
Definition show_id (o : option string) : string :=
  match o with Some s => s | None => "undefined" end.

(** [list?.join(sep) || ''] *)
Definition join_or_empty (sep : string) (l : option (list string)) : string :=
  match l with Some xs => JS.join sep xs | None => "" end.

Section Xml.

Context `{Platform}.

Definition show_nat (n : nat) : string :=
  Number_toString (inject_Z (Z.of_nat n)).

(** The text appended to [xml] for one query. *)
Definition query_xml (query : WithId WeatherQuery) : string :=
  let q := snd query in
  "    <query id=" ++ quote ++ show_id (fst query) ++ quote ++ ">" ++ nl
  ++ "      <location>" ++ escapeXML (Some (location q)) ++ "</location>" ++ nl
  ++ "      <dateRange>" ++ nl
  ++ "        <startDate>" ++ startDate (dateRange q) ++ "</startDate>" ++ nl
  ++ "        <endDate>" ++ endDate (dateRange q) ++ "</endDate>" ++ nl
  ++ "      </dateRange>" ++ nl
  ++ "      <weatherData>" ++ nl
  ++ "        <temperature>"
  ++ Number_toString (temperature (weatherData q)) ++ "</temperature>" ++ nl
  ++ "        <description>"
  ++ escapeXML (Some (wd_description (weatherData q)))
  ++ "</description>" ++ nl
  ++ "        <humidity>"
  ++ Number_toString (wd_humidity (weatherData q)) ++ "</humidity>" ++ nl
  ++ "        <windSpeed>"
  ++ Number_toString (wd_windSpeed (weatherData q)) ++ "</windSpeed>" ++ nl
  ++ "        <feelsLike>"
  ++ Number_toString (feelsLike (weatherData q)) ++ "</feelsLike>" ++ nl
  ++ "        <pressure>"
  ++ Number_toString (pressure (weatherData q)) ++ "</pressure>" ++ nl
  ++ "        <visibility>"
  ++ Number_toString (visibility (weatherData q)) ++ "</visibility>" ++ nl
  ++ "      </weatherData>" ++ nl
  ++ "      <metadata>" ++ nl
  ++ "        <createdAt>" ++ Date_toString (createdAt q) ++ "</createdAt>" ++ nl
  ++ "        <userNotes>"
  ++ escapeXML (Some (JS.or_string (userNotes q) "")) ++ "</userNotes>" ++ nl
  ++ "        <tags>"
  ++ escapeXML (Some (join_or_empty ", " (tags q))) ++ "</tags>" ++ nl
  ++ "      </metadata>" ++ nl
  ++ "    </query>" ++ nl.

(** The text appended to [xml] for one insight. *)
Definition insight_xml (ins : WithId AIInsight) : string :=
  let i := snd ins in
  "    <insight id=" ++ quote ++ show_id (fst ins) ++ quote
  ++ " queryId=" ++ quote ++ queryId i ++ quote ++ ">" ++ nl
  ++ "      <location>" ++ escapeXML (Some (ai_location i)) ++ "</location>" ++ nl
  ++ "      <insight>" ++ escapeXML (Some (insight i)) ++ "</insight>" ++ nl
  ++ "      <recommendations>"
  ++ escapeXML (Some (join_or_empty " | " (recommendations i)))
  ++ "</recommendations>" ++ nl
  ++ "      <weatherSummary>" ++ escapeXML (Some (weatherSummary i))
  ++ "</weatherSummary>" ++ nl
  ++ "      <travelAdvice>"
  ++ escapeXML (Some (JS.or_string (travelAdvice i) ""))
  ++ "</travelAdvice>" ++ nl
  ++ "      <clothingRecommendations>"
  ++ escapeXML (Some (join_or_empty " | " (clothingRecommendations i)))
  ++ "</clothingRecommendations>" ++ nl
  ++ "      <activitySuggestions>"
  ++ escapeXML (Some (join_or_empty " | " (activitySuggestions i)))
  ++ "</activitySuggestions>" ++ nl
  ++ "      <metadata>" ++ nl
  ++ "        <generatedAt>" ++ Date_toString (generatedAt i)
  ++ "</generatedAt>" ++ nl
  ++ "        <model>" ++ escapeXML (Some (model i)) ++ "</model>" ++ nl
  ++ "      </metadata>" ++ nl
  ++ "    </insight>" ++ nl.

(** The first two lines of the document. *)
Definition xml_header (exportedAt : Date) (nq ni : nat) : string :=
  "<?xml version=" ++ quote ++ "1.0" ++ quote ++ " encoding=" ++ quote
  ++ "UTF-8" ++ quote ++ "?>" ++ nl
  ++ "<skyCastExport exportedAt=" ++ quote ++ Date_toISOString exportedAt
  ++ quote ++ " format=" ++ quote ++ "xml" ++ quote
  ++ " totalQueries=" ++ quote ++ show_nat nq ++ quote
  ++ " totalInsights=" ++ quote ++ show_nat ni ++ quote ++ ">" ++ nl.

Definition generateSimpleXML (queries : list (WithId WeatherQuery))
  (insights : list (WithId AIInsight)) (timestamp : string) : M string :=
  exportedAt <- new_Date ;;
  let xml := xml_header exportedAt (List.length queries)
                        (List.length insights) in
  (* Weather Queries *)
  let xml := xml ++ "  <weatherQueries>" ++ nl in
  let xml := fold_left (fun xml query => xml ++ query_xml query) queries xml in
  let xml := xml ++ "  </weatherQueries>" ++ nl in
  (* AI Insights *)
  let xml := xml ++ "  <aiInsights>" ++ nl in
  let xml := fold_left (fun xml ins => xml ++ insight_xml ins) insights xml in
  let xml := xml ++ "  </aiInsights>" ++ nl in
  let xml := xml ++ "</skyCastExport>" ++ nl in
  ret xml.

Record ExportFile : Type := {
  file_data : string;
  filename : string;
  mimeType : string
}.

Definition exportToXML (queries : list (WithId WeatherQuery))
  (insights : list (WithId AIInsight)) (timestamp : string) : M ExportFile :=
  exportedAt <- new_Date ;;
  match js2xml queries insights exportedAt with
  | Some xmlData =>
      ret {| file_data := xmlData;
             filename := "skycast_weather_data_" ++ timestamp ++ ".xml";
             mimeType := "application/xml" |}
  | None =>
      (* Fallback to simple XML generation if js2xmlparser fails *)
      simpleXML <- generateSimpleXML queries insights timestamp ;;
      ret {| file_data := simpleXML;
             filename := "skycast_weather_data_" ++ timestamp ++ ".xml";
             mimeType := "application/xml" |}
  end.

End Xml.

End ExportService.

(* ===================================================================== *)
(** ** Vocabulary of the properties *)
(* ===================================================================== *)

(** The two bounds [validateDateRange] computes from a reading of the
    clock. *)
Definition oneYearAgo (now : Date) : Date :=
  setFullYear now (getFullYear now - 1).

Definition fiveDaysFromNow (now : Date) : Date :=
  setDate now (getDate now + 5).

(** The value and the world a computation ends with. *)
Definition result_of {A} (c : M A) (w : World) : Result A := fst (c w).
Definition world_after {A} (c : M A) (w : World) : World := snd (c w).

(** What [validateLocation] returns in a world: the provider's match when
    the lookup succeeds, the results of the fuzzy search otherwise. *)
Definition location_matches `{Platform} (this : WeatherService)
  (location : string) (w : World) : list LocationMatch :=
  match weather_api w 0%nat location with
  | Some weatherData =>
      [ {| lm_name := wd_name weatherData;
           lm_country := wd_country weatherData;
           lm_state := None;
           lm_coordinates := zero_coordinates;
           confidence := Some 1%Q |} ]
  | None =>
      map (fun result =>
             {| lm_name := lm_name (item result);
                lm_country := lm_country (item result);
                lm_state := lm_state (item result);
                lm_coordinates := zero_coordinates;
                confidence := one_minus (score result) |})
          (Fuse_search (fuse this) location)
  end.

(** The location the snapshots are fetched for. *)
Definition final_location (bestMatch : LocationMatch) (location : string)
  : string :=
  if confident bestMatch then lm_name bestMatch else location.

(** The document [createWeatherQuery] inserts. *)
Definition created_document `{Platform} (request : CreateWeatherQueryRequest)
  (bestMatch : LocationMatch) (weatherData : WeatherData)
  (forecast : option ForecastData) (created_at updated_at : Date)
  : WeatherQuery :=
  {| location := cr_location request;
     locationNormalized :=
       normalizeLocation (final_location bestMatch (cr_location request));
     coordinates := Some (lm_coordinates bestMatch);
     dateRange := cr_dateRange request;
     weatherData := weatherData;
     forecastData := forecast;
     createdAt := created_at;
     updatedAt := updated_at;
     tags := Some (JS.or_list (cr_tags request) []);
     userNotes := Some (JS.or_string (cr_userNotes request) "") |}.

(** Nothing was written between two worlds. *)
Definition same_store (w w' : World) : Prop :=
  weather_queries w' = weather_queries w
  /\ ai_insights w' = ai_insights w
  /\ writes w' = writes w.

(** The ways [createWeatherQuery] can end.  The validator has read the
    clock before the two timestamps of the record are taken, so these
    are readings of the clock [clock w1] it leaves. *)
Inductive create_outcome `{Platform} (this : WeatherService)
  (request : CreateWeatherQueryRequest) (w : World)
  : Result (WithId WeatherQuery) -> World -> Prop :=
| create_invalid_range v w1 w' :
    validateDateRange (cr_dateRange request) w = (Return v, w1) ->
    isValid v = false ->
    same_store w w' ->
    create_outcome this request w
      (Throw ("Invalid date range: " ++ JS.join ", " (errors v))) w'
| create_location_not_found v w1 w' :
    validateDateRange (cr_dateRange request) w = (Return v, w1) ->
    isValid v = true ->
    location_matches this (cr_location request) w = [] ->
    same_store w w' ->
    create_outcome this request w
      (Throw ("Location " ++ quote ++ cr_location request ++ quote
              ++ " not found. Please check the spelling and try again.")) w'
| create_fetch_failed v w1 bestMatch rest w' :
    validateDateRange (cr_dateRange request) w = (Return v, w1) ->
    isValid v = true ->
    location_matches this (cr_location request) w = bestMatch :: rest ->
    weather_api w 1%nat (final_location bestMatch (cr_location request))
    = None ->
    same_store w w' ->
    create_outcome this request w
      (Throw "Failed to fetch weather data: Failed to fetch current weather data")
      w'
| create_duplicate_id v w1 bestMatch rest weatherData w' :
    validateDateRange (cr_dateRange request) w = (Return v, w1) ->
    isValid v = true ->
    location_matches this (cr_location request) w = bestMatch :: rest ->
    weather_api w 1%nat (final_location bestMatch (cr_location request))
    = Some weatherData ->
    Db.find_by_id (new_oids w 0%nat) (weather_queries w) <> None ->
    weather_queries w' = weather_queries w ->
    ai_insights w' = ai_insights w ->
    writes w' = (writes w ++ [InsertQuery (new_oids w 0%nat)])%list ->
    create_outcome this request w
      (Throw "Failed to fetch weather data: E11000 duplicate key error") w'
| create_done v w1 bestMatch rest weatherData w' :
    validateDateRange (cr_dateRange request) w = (Return v, w1) ->
    isValid v = true ->
    location_matches this (cr_location request) w = bestMatch :: rest ->
    weather_api w 1%nat (final_location bestMatch (cr_location request))
    = Some weatherData ->
    Db.find_by_id (new_oids w 0%nat) (weather_queries w) = None ->
    let doc :=
      created_document request bestMatch weatherData
        (forecast_api w 0%nat (final_location bestMatch (cr_location request)))
        (clock w1 0%nat) (clock w1 1%nat) in
    weather_queries w'
    = (weather_queries w ++ [(new_oids w 0%nat, doc)])%list ->
    ai_insights w' = ai_insights w ->
    writes w' = (writes w ++ [InsertQuery (new_oids w 0%nat)])%list ->
    create_outcome this request w
      (Return (Some (ObjectId_toString (new_oids w 0%nat)), doc)) w'.

(** What [updateWeatherQuery] answers once [findOneAndUpdate] has run,
    from the document found under the id after the update. *)
Definition update_answer `{Platform} (found : option (ObjectId * WeatherQuery))
  : Result (option (WithId WeatherQuery)) :=
  if includeResultMetadata then Return (option_map with_id found)
  else match found with
       | Some _ => Return None
       | None =>
           Throw "Failed to update weather query: Cannot read properties of null (reading 'value')"
       end.

(** The fields the location block assigns in the update document. *)
Definition location_assigned `{Platform} (this : WeatherService)
  (updates : UpdateWeatherQueryRequest) (w : World) (u : UpdateDoc) : Prop :=
  if JS.truthy (up_location updates) then
    let new_location := JS.or_string (up_location updates) "" in
    exists bestMatch rest snapshot,
      location_matches this new_location w = bestMatch :: rest
      /\ weather_api w 1%nat (final_location bestMatch new_location)
         = Some snapshot
      /\ set_location u = Some new_location
      /\ set_locationNormalized u
         = Some (normalizeLocation (final_location bestMatch new_location))
      /\ set_coordinates u = Some (lm_coordinates bestMatch)
      /\ set_weatherData u = Some snapshot
      /\ set_forecastData u
         = forecast_api w 0%nat (final_location bestMatch new_location)
  else
    set_location u = None /\ set_locationNormalized u = None
    /\ set_coordinates u = None /\ set_weatherData u = None
    /\ set_forecastData u = None.

(** The field the date range block assigns. *)
Definition dateRange_assigned `{Platform} (updates : UpdateWeatherQueryRequest)
  (u : UpdateDoc) : Prop :=
  match up_dateRange updates with
  | Some range =>
      set_dateRange u = Some range
      /\ exists ts te,
           parseISO (startDate range) = Some ts
           /\ parseISO (endDate range) = Some te /\ ts <= te
  | None => set_dateRange u = None
  end.

(** The update document [updateWeatherQuery] sends for a request, in the
    world the method starts in. *)
Definition update_document `{Platform} (this : WeatherService)
  (updates : UpdateWeatherQueryRequest) (w : World) (u : UpdateDoc) : Prop :=
  set_updatedAt u = clock w 0%nat
  /\ location_assigned this updates w u
  /\ dateRange_assigned updates u
  /\ set_userNotes u = up_userNotes updates
  /\ set_tags u = up_tags updates.

(** The ways [updateWeatherQuery] can end: it throws before anything is
    sent to the store, or it sends one update. *)
Inductive update_outcome `{Platform} (this : WeatherService) (id : string)
  (updates : UpdateWeatherQueryRequest) (w : World)
  : Result (option (WithId WeatherQuery)) -> World -> Prop :=
| update_refused message w' :
    same_store w w' ->
    update_outcome this id updates w (Throw message) w'
| update_sent oid u w' :
    ObjectId_parse id = Some oid ->
    update_document this updates w u ->
    weather_queries w' = Db.update_one oid (apply_set u) (weather_queries w) ->
    ai_insights w' = ai_insights w ->
    writes w' = (writes w ++ [UpdateQuery oid])%list ->
    update_outcome this id updates w
      (update_answer (Db.find_by_id oid (weather_queries w'))) w'.

(** The insights that remain after those of a query are deleted. *)
Definition insights_without (id : string) (w : World)
  : list (ObjectId * AIInsight) :=
  filter (fun d => negb (String.eqb (queryId (snd d)) id)) (ai_insights w).

(** The dates of a range parse and the start is not after the end. *)
Definition ordered_range `{Platform} (r : DateRange) : Prop :=
  exists ts te,
    parseISO (startDate r) = Some ts
    /\ parseISO (endDate r) = Some te /\ ts <= te.

(** The start of the date range of a record is not after its end. *)
Definition range_ordered `{Platform} (q : WeatherQuery) : Prop :=
  ordered_range (dateRange q).

(** The coordinates of a record are the placeholder (0, 0). *)
Definition placeholder (q : WeatherQuery) : Prop :=
  coordinates q = Some zero_coordinates.

(** The order of a listing: newest first. *)
Definition newer_or_equal (a b : ObjectId * WeatherQuery) : Prop :=
  createdAt (snd b) <= createdAt (snd a).

(** One call of a method of the service that writes to the store. *)
Inductive service_call `{Platform} (this : WeatherService)
  : World -> World -> Prop :=
| call_create request w :
    service_call this w (world_after (createWeatherQuery this request) w)
| call_update id updates w :
    service_call this w (world_after (updateWeatherQuery this id updates) w)
| call_delete id w :
    service_call this w (world_after (deleteWeatherQuery id) w).

(** The worlds the service reaches from a store without query records. *)
Inductive reachable `{Platform} (this : WeatherService) : World -> Prop :=
| reachable_empty w : weather_queries w = [] -> reachable this w
| reachable_call w w' :
    reachable this w -> service_call this w w' -> reachable this w'.

(** *** XML escaping, in the words of the specification *)

Module XmlSpec.

Import ExportService.

(** The entity that stands for a character in XML text. *)
Definition escape_char (a : ascii) : string :=
  if Ascii.eqb a ch_amp then "&amp;"
  else if Ascii.eqb a ch_lt then "&lt;"
  else if Ascii.eqb a ch_gt then "&gt;"
  else if Ascii.eqb a ch_quot then "&quot;"
  else if Ascii.eqb a ch_apos then "&apos;"
  else String a EmptyString.

(** A text with each of its characters escaped. *)
Fixpoint escape_each (s : string) : string :=
  match s with
  | EmptyString => EmptyString
  | String a r => escape_char a ++ escape_each r
  end.

(** The characters that open or close markup. *)
Definition markup_char (c : ascii) : Prop :=
  c = ch_lt \/ c = ch_gt \/ c = ch_quot \/ c = ch_apos.

(** How often a character occurs in a string. *)
Fixpoint count_char (c : ascii) (s : string) : nat :=
  match s with
  | EmptyString => O
  | String a r => (if Ascii.eqb a c then 1 else 0) + count_char c r
  end%nat.

(** [part] occurs in [s]. *)
Definition occurs (part s : string) : Prop :=
  exists before after, s = before ++ part ++ after.

(** An element whose content is an escaped text. *)
Definition text_element (tag text : string) : string :=
  "<" ++ tag ++ ">" ++ escape_each text ++ "</" ++ tag ++ ">".

(** A query and an insight with their text fields emptied. *)
Definition query_without_text (query : WithId WeatherQuery)
  : WithId WeatherQuery :=
  let q := snd query in
  let wd := weatherData q in
  (fst query,
   {| location := "";
      locationNormalized := locationNormalized q;
      coordinates := coordinates q;
      dateRange := dateRange q;
      weatherData :=
        {| wd_name := wd_name wd; wd_country := wd_country wd;
           temperature := temperature wd; wd_description := "";
           wd_icon := wd_icon wd; feelsLike := feelsLike wd;
           wd_humidity := wd_humidity wd; pressure := pressure wd;
           wd_windSpeed := wd_windSpeed wd;
           windDirection := windDirection wd; visibility := visibility wd;
           clouds := clouds wd; sunrise := sunrise wd; sunset := sunset wd |};
      forecastData := forecastData q;
      createdAt := createdAt q;
      updatedAt := updatedAt q;
      tags := None;
      userNotes := None |}).

Definition insight_without_text (ins : WithId AIInsight) : WithId AIInsight :=
  let i := snd ins in
  (fst ins,
   {| queryId := queryId i; ai_location := ""; insight := "";
      recommendations := None; weatherSummary := ""; travelAdvice := None;
      clothingRecommendations := None; activitySuggestions := None;
      generatedAt := generatedAt i; model := "" |}).

(** The five replacements of [escapeXML], one after the other. *)
Definition replacements (s : string) : string :=
  JS.replace_all ch_apos "&apos;"
    (JS.replace_all ch_quot "&quot;"
       (JS.replace_all ch_gt "&gt;"
          (JS.replace_all ch_lt "&lt;"
             (JS.replace_all ch_amp "&amp;" s)))).

(** The text [generateSimpleXML] returns. *)
Definition simple_xml `{Platform} (queries : list (WithId WeatherQuery))
  (insights : list (WithId AIInsight)) (exportedAt : Date) : string :=
  fold_left (fun xml ins => xml ++ insight_xml ins) insights
    ((fold_left (fun xml query => xml ++ query_xml query) queries
        (xml_header exportedAt (List.length queries) (List.length insights)
         ++ "  <weatherQueries>" ++ nl)
      ++ "  </weatherQueries>" ++ nl)
     ++ "  <aiInsights>" ++ nl)
  ++ "  </aiInsights>" ++ nl ++ "</skyCastExport>" ++ nl.

End XmlSpec.

(* ===================================================================== *)
(** ** A platform and worlds to run the model on *)
(* ===================================================================== *)

Module Sample.

Definition hex_val (a : ascii) : option N :=
  let n := N_of_ascii a in
  if (48 <=? n)%N && (n <=? 57)%N then Some (n - 48)%N
  else if (97 <=? n)%N && (n <=? 102)%N then Some (n - 87)%N
  else if (65 <=? n)%N && (n <=? 70)%N then Some (n - 55)%N
  else None.

Fixpoint parse_hex (acc : N) (s : string) : option N :=
  match s with
  | EmptyString => Some acc
  | String a r =>
      match hex_val a with
      | Some v => parse_hex (16 * acc + v)%N r
      | None => None
      end
  end.

(** The 24 hexadecimal digits form of an ObjectId. *)
Definition oid_parse (s : string) : option ObjectId :=
  if (String.length s =? 24)%nat then parse_hex 0%N s else None.

Definition hex_digit (v : N) : ascii :=
  if (v <? 10)%N then ascii_of_N (48 + v) else ascii_of_N (87 + v).

Fixpoint to_hex (digits : nat) (v : N) (acc : string) : string :=
  match digits with
  | O => acc
  | S k => to_hex k (v / 16)%N (String (hex_digit (v mod 16)%N) acc)
  end.

Definition oid_toString (oid : ObjectId) : string := to_hex 24 oid "".

Fixpoint contains (pattern s : string) : bool :=
  String.prefix pattern s
  || match s with
     | EmptyString => false
     | String _ r => contains pattern r
     end.

(** A pattern without special characters matches the strings that
    contain it, whatever the case of the letters. *)
Definition substring_match_i (pattern s : string) : bool :=
  contains (JS.toLowerCase pattern) (JS.toLowerCase s).

(** Matches an item whose name is the pattern up to the case of the
    letters, with the perfect score. *)
Definition exact_score (o : FuseOptions) (pattern : string)
  (m : LocationMatch) : option number :=
  if String.eqb (JS.toLowerCase pattern) (JS.toLowerCase (lm_name m))
  then Some 0%Q else None.

Definition show_Z (z : Z) : string := NilZero.string_of_int (Z.to_int z).

Definition show_number (q : number) : string :=
  if (Zpos (Qden q) =? 1) then show_Z (Qnum q)
  else show_Z (Qnum q) ++ "/" ++ show_Z (Zpos (Qden q)).

#[export] Instance platform : Platform := {
  parseISO := parse_calendar_date;
  fuse_score := exact_score;
  ObjectId_parse := oid_parse;
  ObjectId_toString := oid_toString;
  regex_match_i := substring_match_i;
  includeResultMetadata := false;
  Date_toString := format_yyyy_MM_dd;
  Number_toString := show_number;
  Date_toISOString := fun t => format_yyyy_MM_dd t ++ "T00:00:00.000Z";
  js2xml := fun _ _ _ => None
}.

(** Noon of 2024-01-10. *)
Definition noon_2024_01_10 : Date :=
  days_from_civil 2024 1 10 * msPerDay + 12 * 60 * 60 * 1000.

Definition weather_of (n c d : string) (t : Z) : WeatherData :=
  {| wd_name := n; wd_country := c; temperature := inject_Z t;
     wd_description := d; wd_icon := "01d"; feelsLike := inject_Z t;
     wd_humidity := 60%Q; pressure := 1013%Q; wd_windSpeed := 12%Q;
     windDirection := 180%Q; visibility := 10%Q; clouds := 0%Q;
     sunrise := 1704873600%Q; sunset := 1704906000%Q |}.

Definition london_weather : WeatherData :=
  weather_of "London" "GB" "light rain" 8.

Definition tokyo_weather : WeatherData :=
  weather_of "Tokyo" "JP" "clear sky" 11.

Definition london_forecast : ForecastData :=
  {| city_name := "London"; city_country := "GB";
     list_ := [ {| fi_date := "Thu, Jan 11"; temperature_min := 3%Q;
                   temperature_max := 9%Q; fi_description := "light rain";
                   fi_icon := "10d"; fi_humidity := 70%Q;
                   fi_windSpeed := 14%Q; pop := 80%Q |} ] |}.

(** A provider that knows London and Tokyo. *)
Definition provider (loc : string) : option WeatherData :=
  if String.eqb loc "London" then Some london_weather
  else if String.eqb loc "Tokyo" then Some tokyo_weather
  else None.

(** A forecast service that answers for London only. *)
Definition forecasts (loc : string) : option ForecastData :=
  if String.eqb loc "London" then Some london_forecast else None.

(** An empty store at noon of 2024-01-10 with a frozen clock. *)
Definition empty_world : World :=
  {| weather_queries := []; ai_insights := []; writes := [];
     clock := fun _ => noon_2024_01_10;
     weather_api := fun _ => provider;
     forecast_api := fun _ => forecasts;
     new_oids := fun n => (N.of_nat n + 1)%N |}.

(** The same with no weather provider in reach. *)
Definition offline_world : World :=
  {| weather_queries := []; ai_insights := []; writes := [];
     clock := fun _ => noon_2024_01_10;
     weather_api := fun _ _ => None;
     forecast_api := fun _ _ => None;
     new_oids := fun n => (N.of_nat n + 1)%N |}.

(** A world whose provider answers the first request and no other. *)
Definition flaky_world : World :=
  {| weather_queries := []; ai_insights := []; writes := [];
     clock := fun _ => noon_2024_01_10;
     weather_api := fun n => match n with O => provider | S _ => fun _ => None end;
     forecast_api := fun _ => forecasts;
     new_oids := fun n => (N.of_nat n + 1)%N |}.

Definition tokyo_request : CreateWeatherQueryRequest :=
  {| cr_location := "Tokyo";
     cr_dateRange := {| startDate := "2024-01-11"; endDate := "2024-01-13" |};
     cr_userNotes := None;
     cr_tags := None |}.

Definition london_request : CreateWeatherQueryRequest :=
  {| cr_location := "London";
     cr_dateRange := {| startDate := "2024-01-10"; endDate := "2024-01-12" |};
     cr_userNotes := Some "bring <umbrella> & boots";
     cr_tags := Some ["trip"] |}.

(** The store after the London query was created. *)
Definition london_world : World :=
  snd (createWeatherQuery weatherService london_request empty_world).

Definition london_id : string := oid_toString 1%N.

(** The record of the London query. *)
Definition london_document : WeatherQuery :=
  {| location := "London"; locationNormalized := "london";
     coordinates := Some zero_coordinates;
     dateRange := {| startDate := "2024-01-10"; endDate := "2024-01-12" |};
     weatherData := london_weather;
     forecastData := Some london_forecast;
     createdAt := noon_2024_01_10; updatedAt := noon_2024_01_10;
     tags := Some ["trip"];
     userNotes := Some "bring <umbrella> & boots" |}.

(** A request to move the London query to Tokyo. *)
Definition tokyo_update : UpdateWeatherQueryRequest :=
  {| up_location := Some "Tokyo"; up_dateRange := None;
     up_userNotes := None; up_tags := None |}.

Definition london_insight : AIInsight :=
  {| queryId := london_id; ai_location := "London";
     insight := "Rain & wind: stay <indoors>";
     recommendations := Some ["umbrella"; "coat"];
     weatherSummary := "wet"; travelAdvice := None;
     clothingRecommendations := None; activitySuggestions := None;
     generatedAt := noon_2024_01_10; model := "test-model" |}.

(** The London query together with an insight it owns and one it does
    not. *)
Definition london_world_with_insights : World :=
  with_insights
    [ (100%N, london_insight);
      (101%N, {| queryId := oid_toString 7%N; ai_location := "Paris";
                 insight := "mild"; recommendations := None;
                 weatherSummary := "mild"; travelAdvice := None;
                 clothingRecommendations := None;
                 activitySuggestions := None;
                 generatedAt := noon_2024_01_10; model := "test-model" |}) ]
    london_world.

End Sample.

(* ===================================================================== *)
(** ** More of [lib/weatherService.ts] *)
(* ===================================================================== *)

Section ServiceInsights.

Context `{Platform}.

(** A stored insight as the methods return it. *)
Definition insight_with_id (d : ObjectId * AIInsight) : WithId AIInsight :=
  (Some (ObjectId_toString (fst d)), snd d).

Definition getAIInsight (queryId : string) : M (option (WithId AIInsight)) :=
  try_catch
    (found <- Db.findOne_insight queryId ;;
     match found with
     | None => ret None
     | Some d => ret (Some (insight_with_id d))
     end)
    (fun _ => ret None).

End ServiceInsights.

(** *** The shape of a normalized location *)

Module Spacing.

(** No white space at the start. *)
Definition starts_clean (s : string) : bool :=
  match s with
  | String a _ => negb (JS.is_space a)
  | EmptyString => true
  end.

(** No white space at the end: no suffix but the empty one is made of
    white space only. *)
Fixpoint ends_clean (s : string) : bool :=
  match s with
  | EmptyString => true
  | String a r => negb (JS.all_space s) && ends_clean r
  end.

(** Every white space character is a space followed by a character that
    is not white space. *)
Fixpoint single_spaced (s : string) : bool :=
  match s with
  | EmptyString => true
  | String a r =>
      (if JS.is_space a
       then Ascii.eqb a " "
            && match r with
               | String b _ => negb (JS.is_space b)
               | EmptyString => false
               end
       else true)
      && single_spaced r
  end.

End Spacing.

(** [s.includes(sub)]. *)
Fixpoint includes (s sub : string) : bool :=
  String.prefix sub s
  || match s with
     | String _ r => includes r sub
     | EmptyString => false
     end.

(* ===================================================================== *)
(** ** More of [utils/weatherApi.ts] *)
(* ===================================================================== *)

Module WeatherApi.

(** [s.replace(/\s/g, '')]. *)
Fixpoint remove_spaces (s : string) : string :=
  match s with
  | EmptyString => EmptyString
  | String a r =>
      if JS.is_space a then remove_spaces r else String a (remove_spaces r)
  end.

(** The longest prefix of digits is dropped. *)
Fixpoint skip_digits (s : string) : string :=
  match s with
  | String a r => if JS.is_digit a then skip_digits r else s
  | EmptyString => s
  end.

(** An optional character [c] at the start is dropped. *)
Definition skip_char (c : ascii) (s : string) : string :=
  match s with
  | String a r => if Ascii.eqb a c then r else s
  | EmptyString => s
  end.

(** [-?\d+\.?\d*] at the start of a string: what follows the match, or
    [None] when there is no match.  Each part takes as much as it can;
    [isCoordinates_iff] below shows that this decides the pattern. *)
Definition match_number (s : string) : option string :=
  let s := skip_char "-" s in
  match s with
  | String a r =>
      if JS.is_digit a then
        let s := skip_digits r in
        let s := skip_char "." s in
        Some (skip_digits s)
      else None
  | EmptyString => None
  end.

(** [/^-?\d+\.?\d*,-?\d+\.?\d*$/.test(s)]. *)
Definition coordPattern_test (s : string) : bool :=
  match match_number s with
  | Some (String "," r) =>
      match match_number r with
      | Some EmptyString => true
      | _ => false
      end
  | _ => false
  end.

(** Helper function to determine if input is coordinates. *)
Definition isCoordinates (location : string) : bool :=
  coordPattern_test (remove_spaces location).

(** [s.split(c)] for a one-character separator. *)
Fixpoint split_on (c : ascii) (s : string) : list string :=
  match s with
  | EmptyString => [EmptyString]
  | String a r =>
      if Ascii.eqb a c then EmptyString :: split_on c r
      else match split_on c r with
           | x :: l => String a x :: l
           | [] => [String a EmptyString]
           end
  end.

(** [`${x}`] for an element of an array that may be missing. *)
Definition show_part (o : option string) : string :=
  match o with Some s => s | None => "undefined" end.

Section Request.

(** The key of the provider and [encodeURIComponent]. *)
Variable API_KEY : string.
Variable encodeURIComponent : string -> string.

Definition BASE_URL : string := "https://api.openweathermap.org/data/2.5".

(** The address [getCurrentWeather] ([path] is [/weather]) and
    [getForecast] ([/forecast]) ask. *)
Definition request_url (path : string) (location : string) : string :=
  let url := BASE_URL ++ path ++ "?appid=" ++ API_KEY ++ "&units=metric" in
  if isCoordinates location then
    let parts := map JS.trim (split_on "," location) in
    let lat := nth_error parts 0 in
    let lon := nth_error parts 1 in
    url ++ "&lat=" ++ show_part lat ++ "&lon=" ++ show_part lon
  else
    url ++ "&q=" ++ encodeURIComponent location.

End Request.

(** *** The text the pattern accepts *)

Fixpoint all_digits (s : string) : bool :=
  match s with
  | EmptyString => true
  | String a r => JS.is_digit a && all_digits r
  end.

(** An optional minus sign, at least one digit, an optional point and
    any number of digits. *)
Definition number_text (s : string) : Prop :=
  exists sign whole point fraction,
    s = sign ++ whole ++ point ++ fraction
    /\ (sign = "" \/ sign = "-")
    /\ whole <> "" /\ all_digits whole = true
    /\ (point = "" \/ point = ".")
    /\ all_digits fraction = true.

(** Two such numbers with a comma between them. *)
Definition coordinates_text (s : string) : Prop :=
  exists a b, s = a ++ "," ++ b /\ number_text a /\ number_text b.

(** *** The forecast of five days *)

(** The raw answer of the provider ([OpenWeatherForecastResponse]). *)
Record RawWeather : Type := {
  rw_main : string;
  rw_description : string;
  rw_icon : string
}.

Record RawForecastEntry : Type := {
  (** Seconds since the epoch. *)
  dt : Z;
  main_temp_min : number;
  main_temp_max : number;
  main_humidity : number;
  weather : list RawWeather;
  wind_speed : number;
  raw_pop : number
}.

Record OpenWeatherForecastResponse : Type := {
  raw_city_name : string;
  raw_city_country : string;
  raw_list : list RawForecastEntry
}.

(** [Math.round]: the nearest integer, a tie going up. *)
Definition Math_round (x : number) : number :=
  inject_Z (Qfloor (x + (1 # 2))).

Definition min2 (a b : number) : number := if Qle_bool a b then a else b.
Definition max2 (a b : number) : number := if Qle_bool a b then b else a.

(** [Math.min(...l)] and [Math.max(...l)] of an array that is not empty.
    Of an empty array they are the infinities, which [number] does not
    hold; [temperatures] is never empty ([forEach_temperatures]). *)
Definition Math_min (l : list number) : number :=
  match l with
  | [] => 0%Q
  | x :: r => fold_left min2 r x
  end.

Definition Math_max (l : list number) : number :=
  match l with
  | [] => 0%Q
  | x :: r => fold_left max2 r x
  end.

Definition weekday_short (n : Z) : string :=
  match n with
  | 0 => "Sun" | 1 => "Mon" | 2 => "Tue" | 3 => "Wed"
  | 4 => "Thu" | 5 => "Fri" | _ => "Sat"
  end.

Definition month_short (m : Z) : string :=
  match m with
  | 1 => "Jan" | 2 => "Feb" | 3 => "Mar" | 4 => "Apr"
  | 5 => "May" | 6 => "Jun" | 7 => "Jul" | 8 => "Aug"
  | 9 => "Sep" | 10 => "Oct" | 11 => "Nov" | _ => "Dec"
  end.

(** One day of the forecast while the entries are grouped: an entry of
    the object [dailyForecasts]. *)
Record DailyForecast : Type := {
  df_date : string;
  temperatures : list number;
  df_description : string;
  df_icon : string;
  df_humidity : number;
  df_windSpeed : number;
  df_pop : number
}.

(** [dailyForecasts[date]].  The object is the list of its values in the
    order in which the keys were added, each value holding its key in
    [date]: a key made by [formatDate] starts with a capital letter, so
    it is no array index and no property of [Object.prototype]. *)
Definition lookup (date : string) (dailyForecasts : list DailyForecast)
  : option DailyForecast :=
  find (fun day => String.eqb (df_date day) date) dailyForecasts.

(** [dailyForecasts[date].temperatures.push(...values)]. *)
Definition push_temperatures (date : string) (values : list number)
  (dailyForecasts : list DailyForecast) : list DailyForecast :=
  map (fun day =>
         if String.eqb (df_date day) date
         then {| df_date := df_date day;
                 temperatures := (temperatures day ++ values)%list;
                 df_description := df_description day;
                 df_icon := df_icon day;
                 df_humidity := df_humidity day;
                 df_windSpeed := df_windSpeed day;
                 df_pop := df_pop day |}
         else day)
      dailyForecasts.

(** The distinct members of a list in the order of their first
    occurrence. *)
Fixpoint distinct (l : list string) : list string :=
  match l with
  | [] => []
  | x :: r => x :: filter (fun y => negb (String.eqb y x)) (distinct r)
  end.

Section Forecast.

(** The local time of the host less UTC, in milliseconds, at an
    instant. *)
Variable timezone_offset : Z -> Z.

(** The product of two doubles. *)
Variable Number_mul : number -> number -> number.

(** Helper function to format date for forecast:
    [toLocaleDateString('en-US', { weekday: 'short', month: 'short',
    day: 'numeric' })], as in [Wed, Jan 10]. *)
Definition formatDate (timestamp : Z) : string :=
  let date := timestamp * 1000 in
  if Z.abs date >? 8640000000000000 then "Invalid Date"
  else
    let day := JSDate.day_of (date + timezone_offset date) in
    let '(_, m, d) := JSDate.civil_from_days day in
    weekday_short ((day + 4) mod 7) ++ ", " ++ month_short m ++ " "
    ++ NilZero.string_of_int (Z.to_int d).

(** The body of [data.list.forEach]. *)
Definition add_entry (dailyForecasts : list DailyForecast)
  (item : RawForecastEntry) : Result (list DailyForecast) :=
  let date := formatDate (dt item) in
  match lookup date dailyForecasts with
  | None =>
      match weather item with
      | [] =>
          Throw "Cannot read properties of undefined (reading 'description')"
      | weather0 :: _ =>
          Return
            (dailyForecasts ++
             [{| df_date := date;
                 temperatures := [main_temp_min item; main_temp_max item];
                 df_description := rw_description weather0;
                 df_icon := rw_icon weather0;
                 df_humidity := main_humidity item;
                 df_windSpeed :=
                   Math_round (Number_mul (wind_speed item) (36 # 10));
                 df_pop := Math_round (Number_mul (raw_pop item) (100 # 1)) |}])%list
      end
  | Some _ =>
      (* Update min/max temperatures *)
      Return (push_temperatures date
                [main_temp_min item; main_temp_max item] dailyForecasts)
  end.

Fixpoint forEach (items : list RawForecastEntry)
  (dailyForecasts : list DailyForecast) : Result (list DailyForecast) :=
  match items with
  | [] => Return dailyForecasts
  | item :: rest =>
      match add_entry dailyForecasts item with
      | Return dailyForecasts' => forEach rest dailyForecasts'
      | Throw message => Throw message
      end
  end.

(** Transform to our ForecastData interface. *)
Definition forecastList (dailyForecasts : list DailyForecast)
  : list ForecastItem :=
  map (fun day =>
         {| fi_date := df_date day;
            temperature_min := Math_round (Math_min (temperatures day));
            temperature_max := Math_round (Math_max (temperatures day));
            fi_description := df_description day;
            fi_icon := df_icon day;
            fi_humidity := df_humidity day;
            fi_windSpeed := df_windSpeed day;
            pop := df_pop day |})
      dailyForecasts.

(** What [getForecast] makes of the answer [data] of the provider. *)
Definition forecastData (data : OpenWeatherForecastResponse)
  : Result ForecastData :=
  match forEach (raw_list data) [] with
  | Return dailyForecasts =>
      Return {| city_name := raw_city_name data;
                city_country := raw_city_country data;
                list_ := firstn 5 (forecastList dailyForecasts) |}
  | Throw _ => Throw "Failed to fetch forecast data"
  end.

(** The raw answer to a request for the current weather
    ([OpenWeatherCurrentResponse]). *)
Record OpenWeatherCurrentResponse : Type := {
  cur_name : string;
  sys_country : string;
  sys_sunrise : number;
  sys_sunset : number;
  main_temp : number;
  main_feels_like : number;
  cur_humidity : number;
  main_pressure : number;
  cur_weather : list RawWeather;
  cur_wind_speed : number;
  wind_deg : number;
  cur_visibility : number;
  clouds_all : number
}.

Section Requests.

(** [process.env.NEXT_PUBLIC_OPENWEATHER_API_KEY || 'your_api_key_here']. *)
Variable API_KEY : string.
Variable encodeURIComponent : string -> string.

(** The quotient of two doubles. *)
Variable Number_div : number -> number -> number.

(** [axios.get(url)] for the current weather: the answer, or [None] when
    the request fails. *)
Variable axios_get_current : string -> option OpenWeatherCurrentResponse.

(** The [try] block of [getCurrentWeather]. *)
Definition getCurrentWeather_try (location : string) : Result WeatherData :=
  (* Check if API key is properly configured *)
  if negb (JS.truthy_string API_KEY) || String.eqb API_KEY "your_api_key_here"
  then Throw "API key not configured. Please add your OpenWeatherMap API key to .env.local"
  else
    match axios_get_current
            (request_url API_KEY encodeURIComponent "/weather" location) with
    | None => Throw "Request failed"
    | Some data =>
        match cur_weather data with
        | [] =>
            Throw "Cannot read properties of undefined (reading 'description')"
        | weather0 :: _ =>
            Return
              {| wd_name := cur_name data;
                 wd_country := sys_country data;
                 temperature := Math_round (main_temp data);
                 wd_description := rw_description weather0;
                 wd_icon := rw_icon weather0;
                 feelsLike := Math_round (main_feels_like data);
                 wd_humidity := cur_humidity data;
                 pressure := main_pressure data;
                 wd_windSpeed :=
                   Math_round (Number_mul (cur_wind_speed data) (36 # 10));
                 windDirection := wind_deg data;
                 visibility :=
                   Math_round (Number_div (cur_visibility data) (1000 # 1));
                 clouds := clouds_all data;
                 sunrise := sys_sunrise data;
                 sunset := sys_sunset data |}
        end
    end.

(** Get current weather data. *)
Definition getCurrentWeather (location : string) : Result WeatherData :=
  match getCurrentWeather_try location with
  | Return weatherData => Return weatherData
  | Throw _ => Throw "Failed to fetch current weather data"
  end.

(** [axios.get(url)]: the answer, or [None] when the request fails. *)
Variable axios_get : string -> option OpenWeatherForecastResponse.

(** Get 5-day weather forecast. *)
Definition getForecast (location : string) : Result ForecastData :=
  match axios_get (request_url API_KEY encodeURIComponent "/forecast"
                     location) with
  | Some data => forecastData data
  | None => Throw "Failed to fetch forecast data"
  end.

End Requests.

(** *** The days of a forecast, told from its entries *)

Definition label (item : RawForecastEntry) : string := formatDate (dt item).

Definition on_day (date : string) (item : RawForecastEntry) : bool :=
  String.eqb (label item) date.

(** The entry that opens the day [date]: the first one with this label. *)
Definition opening (date : string) (items : list RawForecastEntry)
  : option RawForecastEntry :=
  find (on_day date) items.

(** The minima and maxima of the entries of the day [date]. *)
Definition readings (date : string) (items : list RawForecastEntry)
  : list number :=
  flat_map (fun item => [main_temp_min item; main_temp_max item])
           (filter (on_day date) items).

(** The day [date] as the entries make it: what its opening entry says,
    with the readings of all its entries. *)
Definition day_of (date : string) (items : list RawForecastEntry)
  : option DailyForecast :=
  match opening date items with
  | Some item =>
      match weather item with
      | weather0 :: _ =>
          Some {| df_date := date;
                  temperatures := readings date items;
                  df_description := rw_description weather0;
                  df_icon := rw_icon weather0;
                  df_humidity := main_humidity item;
                  df_windSpeed :=
                    Math_round (Number_mul (wind_speed item) (36 # 10));
                  df_pop := Math_round (Number_mul (raw_pop item) (100 # 1)) |}
      | [] => None
      end
  | None => None
  end.

(** The days in [dailyForecasts] after the entries [items]: the days of
    the distinct labels, in the order of their first occurrence. *)
Definition grouped (items : list RawForecastEntry)
  (days : list DailyForecast) : Prop :=
  Forall2 (fun date day => day_of date items = Some day)
          (distinct (map label items)) days.

End Forecast.

(** The digits [skip_digits] drops. *)
Fixpoint take_digits (s : string) : string :=
  match s with
  | String a r => if JS.is_digit a then String a (take_digits r) else ""
  | EmptyString => ""
  end.

Definition no_digit_first (s : string) : bool :=
  match s with String a _ => negb (JS.is_digit a) | EmptyString => true end.

(** What is left after a number is the end or a comma. *)
Definition end_or_comma (rest : string) : Prop :=
  rest = "" \/ exists r, rest = String "," r.

(** Every character of [s] passes [p]. *)
Fixpoint string_forall (p : ascii -> bool) (s : string) : bool :=
  match s with
  | EmptyString => true
  | String a r => p a && string_forall p r
  end.

Definition not_comma (a : ascii) : bool := negb (Ascii.eqb a ",").

End WeatherApi.

(** A forecast of the provider for two days, read in UTC with exact
    products. *)
Module ForecastSample.

Import WeatherApi.

Definition utc (t : Z) : Z := 0.

Definition entry (t : Z) (lo hi : number) (weather : list RawWeather)
  : RawForecastEntry :=
  {| dt := t; main_temp_min := lo; main_temp_max := hi;
     main_humidity := 80 # 1; weather := weather;
     wind_speed := 5 # 1; raw_pop := 2 # 10 |}.

Definition clear_sky : RawWeather :=
  {| rw_main := "Clear"; rw_description := "clear sky"; rw_icon := "01d" |}.

Definition light_rain : RawWeather :=
  {| rw_main := "Rain"; rw_description := "light rain"; rw_icon := "10d" |}.

(** Noon and 3 pm of 10 January 2024, then noon of the 11th. *)
Definition response : OpenWeatherForecastResponse :=
  {| raw_city_name := "London"; raw_city_country := "GB";
     raw_list := [entry 1704888000 (31 # 10) (52 # 10) [clear_sky];
                  entry 1704898800 (24 # 10) (75 # 10) [];
                  entry 1704974400 (-15 # 10) (4 # 10) [light_rain]] |}.

Definition first_day : ForecastItem :=
  {| fi_date := "Wed, Jan 10";
     temperature_min := 2 # 1; temperature_max := 8 # 1;
     fi_description := "clear sky"; fi_icon := "01d";
     fi_humidity := 80 # 1; fi_windSpeed := 18 # 1; pop := 20 # 1 |}.

Definition second_day : ForecastItem :=
  {| fi_date := "Thu, Jan 11";
     temperature_min := (-1) # 1; temperature_max := 0 # 1;
     fi_description := "light rain"; fi_icon := "10d";
     fi_humidity := 80 # 1; fi_windSpeed := 18 # 1; pop := 20 # 1 |}.

Definition forecast : ForecastData :=
  {| city_name := "London"; city_country := "GB";
     list_ := [first_day; second_day] |}.

End ForecastSample.

(* ===================================================================== *)
(** ** [lib/aiService.ts] *)
(* ===================================================================== *)

Module AIService.

Definition MODEL : string := "microsoft/wizardlm-2-8x22b".

(** [Partial<AIInsight>], with the fields the service fills. *)
Record PartialInsight : Type := {
  p_insight : option string;
  p_recommendations : option (list string);
  p_weatherSummary : option string;
  p_travelAdvice : option string;
  p_clothingRecommendations : option (list string);
  p_model : option string
}.

(** [line.replace(/^[-•*]\s*/, '')]: a bullet at the start goes with the
    white space after it. *)
Definition strip_bullet (line : string) : string :=
  match line with
  | String "-" r => JS.skip_spaces r
  | String "*" r => JS.skip_spaces r
  | String "226" (String "128" (String "162" r)) => JS.skip_spaces r
  | _ => line
  end.

Definition has_bullet (line : string) : bool :=
  includes line "-" || includes line "•" || includes line "*".

(** Extract activities from response. *)
Definition activities_of (response : string) : list string :=
  filter JS.truthy_string
    (map (fun line => JS.trim (strip_bullet line))
       (filter (fun line => JS.truthy_string (JS.trim line) && has_bullet line)
               (WeatherApi.split_on (ascii_of_N 10) response))).

Section Service.

Context `{Platform}.

(** [process.env.OPENROUTER_API_KEY || '']. *)
Variable apiKey : string.

(** What OpenRouter answers to a prompt: [None] when the request fails
    or the answer has no [choices]; the content of the first choice
    otherwise, if there is one. *)
Variable post : string -> option (option string).

(** [parseAIResponse], which reads the answer as JSON or line by line
    and does not throw. *)
Variable parseAIResponse : string -> PartialInsight.

Definition isAvailable : bool := JS.truthy_string apiKey.

Definition makeRequest (prompt : string) : Result string :=
  if negb (JS.truthy_string apiKey)
  then Throw "OpenRouter API key not configured"
  else
    match post prompt with
    | Some content =>
        Return (JS.or_string content "Unable to generate insight")
    | None => Throw "Failed to generate AI insight"
    end.

Definition forecast_line (day : ForecastItem) : string :=
  ExportService.nl ++ "- " ++ fi_date day ++ ": "
  ++ Number_toString (temperature_min day) ++ "-"
  ++ Number_toString (temperature_max day) ++ "°C, " ++ fi_description day.

Definition buildWeatherPrompt (location : string) (weather : WeatherData)
  (forecast : option ForecastData) : string :=
  let nl := ExportService.nl in
  let prompt :=
    "Analyze the weather for " ++ location ++ ":" ++ nl ++ nl
    ++ "CURRENT CONDITIONS:" ++ nl
    ++ "- Temperature: " ++ Number_toString (temperature weather)
    ++ "°C (feels like " ++ Number_toString (feelsLike weather) ++ "°C)" ++ nl
    ++ "- Conditions: " ++ wd_description weather ++ nl
    ++ "- Humidity: " ++ Number_toString (wd_humidity weather) ++ "%" ++ nl
    ++ "- Wind: " ++ Number_toString (wd_windSpeed weather) ++ " km/h" ++ nl
    ++ "- Visibility: " ++ Number_toString (visibility weather) ++ " km" ++ nl
    ++ "- Pressure: " ++ Number_toString (pressure weather) ++ " hPa" in
  let prompt :=
    match forecast with
    | Some f =>
        match list_ f with
        | [] => prompt
        | _ =>
            fold_left (fun p day => p ++ forecast_line day)
                      (firstn 3 (list_ f))
                      (prompt ++ nl ++ nl ++ "UPCOMING FORECAST:")
        end
    | None => prompt
    end in
  prompt ++ nl ++ nl ++ "Provide:" ++ nl
  ++ "1. A brief weather summary (1-2 sentences)" ++ nl
  ++ "2. 3-4 practical recommendations for activities/clothing" ++ nl
  ++ "3. Travel advice if relevant" ++ nl
  ++ "4. Any weather alerts or considerations" ++ nl ++ nl
  ++ "Format as JSON with keys: summary, recommendations, travelAdvice, clothingTips".

Definition generateWeatherInsight (location : string)
  (weatherData : WeatherData) (forecastData : option ForecastData)
  : PartialInsight :=
  match makeRequest (buildWeatherPrompt location weatherData forecastData) with
  | Return response => parseAIResponse response
  | Throw _ =>
      {| p_insight := Some "Unable to generate AI insight at this time.";
         p_recommendations :=
           Some ["Check weather conditions before heading out"];
         p_weatherSummary :=
           Some ("Current weather in " ++ location ++ ": "
                 ++ Number_toString (temperature weatherData) ++ "°C, "
                 ++ wd_description weatherData);
         p_travelAdvice := None;
         p_clothingRecommendations := None;
         p_model := Some MODEL |}
  end.

Definition generateActivitySuggestions (location : string)
  (weather : WeatherData) (dateRange : DateRange) : list string :=
  let prompt :=
    "Based on the weather in " ++ location ++ " ("
    ++ Number_toString (temperature weather) ++ "°C, "
    ++ wd_description weather ++ ") during " ++ startDate dateRange
    ++ " to " ++ endDate dateRange
    ++ ", suggest 3-4 specific activities that would be ideal for these conditions. Be practical and location-appropriate." in
  match makeRequest prompt with
  | Return response =>
      match activities_of response with
      | [] => ["Check local weather before outdoor activities";
               "Dress appropriately for current conditions";
               "Stay hydrated and sun-protected"]
      | activities => activities
      end
  | Throw _ => ["Monitor weather conditions for outdoor activities"]
  end.

End Service.

End AIService.

(* ===================================================================== *)
(** ** The insights of [lib/weatherService.ts] *)
(* ===================================================================== *)

Section ServiceAI.

Context `{Platform}.

Variable apiKey : string.
Variable post : string -> option (option string).
Variable parseAIResponse : string -> AIService.PartialInsight.

(** [collection.insertOne(aiInsight)] on the insights, as [Db.insertOne]
    on the queries.  The log of writes has no entry for it. *)
Definition insertOne_insight (doc : AIInsight) : M ObjectId :=
  fun w =>
    let oid := new_oids w 0%nat in
    let w := tick_oids w in
    match Db.find_by_id oid (ai_insights w) with
    | Some _ => (Throw "E11000 duplicate key error", w)
    | None => (Return oid, with_insights (ai_insights w ++ [(oid, doc)]) w)
    end.

(** [collection.findOne({ _id: oid })] on the insights. *)
Definition findOne_insight_by_id (oid : ObjectId)
  : M (option (ObjectId * AIInsight)) :=
  fun w => (Return (Db.find_by_id oid (ai_insights w)), w).

(** The document [generateAIInsight] saves for a query at an instant. *)
Definition aiInsight_of (queryId : string) (weatherQuery : WeatherQuery)
  (now : Date) : AIInsight :=
  let insightData :=
    AIService.generateWeatherInsight apiKey post parseAIResponse
      (location weatherQuery) (weatherData weatherQuery)
      (forecastData weatherQuery) in
  {| queryId := queryId;
     ai_location := location weatherQuery;
     insight := JS.or_string (AIService.p_insight insightData) "";
     recommendations :=
       Some (JS.or_list (AIService.p_recommendations insightData) []);
     weatherSummary :=
       JS.or_string (AIService.p_weatherSummary insightData) "";
     travelAdvice := AIService.p_travelAdvice insightData;
     clothingRecommendations :=
       AIService.p_clothingRecommendations insightData;
     activitySuggestions :=
       Some (AIService.generateActivitySuggestions apiKey post
               (location weatherQuery) (weatherData weatherQuery)
               (dateRange weatherQuery));
     generatedAt := now;
     model := JS.or_string (AIService.p_model insightData) "unknown" |}.

Definition generateAIInsight (queryId : string)
  : M (option (WithId AIInsight)) :=
  weatherQuery <- getWeatherQuery queryId ;;
  match weatherQuery with
  | None => throw "Weather query not found"
  | Some (_, weatherQuery) =>
      if negb (AIService.isAvailable apiKey)
      then throw "AI service is not available"
      else
        try_catch
          (now <- new_Date ;;
           let aiInsight := aiInsight_of queryId weatherQuery now in
           (* Save to database *)
           insertedId <- insertOne_insight aiInsight ;;
           created <- findOne_insight_by_id insertedId ;;
           match created with
           | None => throw "Failed to save AI insight"
           | Some d => ret (Some (insight_with_id d))
           end)
          (fun message =>
             throw ("Failed to generate AI insight: " ++ message))
  end.

(** The query [getWeatherQuery] finds. *)
Definition stored_query (id : string) (w : World)
  : option (ObjectId * WeatherQuery) :=
  match ObjectId_parse id with
  | Some oid => Db.find_by_id oid (weather_queries w)
  | None => None
  end.

End ServiceAI.

(** A service whose key is set and whose requests all fail. *)
Module AISample.

Definition apiKey : string := "key".

Definition post (prompt : string) : option (option string) := None.

Definition parseAIResponse (response : string) : AIService.PartialInsight :=
  {| AIService.p_insight := Some response;
     AIService.p_recommendations := None;
     AIService.p_weatherSummary := None;
     AIService.p_travelAdvice := None;
     AIService.p_clothingRecommendations := None;
     AIService.p_model := None |}.

Definition generateAIInsight : string -> M (option (WithId AIInsight)) :=
  generateAIInsight (H := Sample.platform) apiKey post parseAIResponse.

(** The insight it returns, if it returns one. *)
Definition generated (id : string) (w : World) : WithId AIInsight :=
  match result_of (generateAIInsight id) w with
  | Return (Some created) => created
  | _ => (None, Sample.london_insight)
  end.

End AISample.

(* ===================================================================== *)
(** ** [pages/api/weather-queries/[id].ts] and [handlePost] *)
(* ===================================================================== *)

Module QueryHandlers.

(** A value of [req.query]: absent, one string or several. *)
Inductive QueryValue : Type :=
| Absent
| One (s : string)
| Many (l : list string).

(** The body of a POST request, read as [CreateWeatherQueryRequest]. *)
Record PostRequest : Type := {
  post_location : option string;
  post_dateRange : option DateRange;
  post_userNotes : option string;
  post_tags : option (list string)
}.

(** [Object.keys(updates).length]. *)
Definition key {A} (field : option A) : nat :=
  match field with Some _ => 1 | None => 0 end.

Definition keys_length (updates : UpdateWeatherQueryRequest) : nat :=
  (key (up_location updates) + key (up_dateRange updates)
   + key (up_userNotes updates) + key (up_tags updates))%nat.

(** [!dateRange.startDate || !dateRange.endDate]. *)
Definition incomplete (dateRange : DateRange) : bool :=
  negb (JS.truthy_string (startDate dateRange))
  || negb (JS.truthy_string (endDate dateRange)).

Section Handlers.

Context `{Platform}.

(** The AI service. *)
Variable apiKey : string.
Variable post : string -> option (option string).
Variable parseAIResponse : string -> AIService.PartialInsight.

(** [locationContextService.getLocationContext], which may throw. *)
Variable LocationContext : Type.
Variable getLocationContext :
  string -> WeatherData -> option ForecastData -> Result LocationContext.

(** What a response carries.  In the answer to a GET the insight, when
    there is one, holds the location context as well. *)
Inductive Body : Type :=
| ErrorBody (error : string) (message : option string)
| GetBody (query : WithId WeatherQuery)
    (aiInsight : option (WithId AIInsight)) (locationContext : LocationContext)
| PutBody (query : WithId WeatherQuery) (aiInsight : option (WithId AIInsight))
| PostBody (query : WithId WeatherQuery)
    (aiInsight : option (WithId AIInsight))
    (locationContext : option LocationContext)
| NoBody.

Record Response : Type := {
  status : Z;
  allow : option (list string);
  body : Body
}.

Definition respond (status : Z) (body : Body) : Response :=
  {| status := status; allow := None; body := body |}.

Definition error (status : Z) (error message : string) : Response :=
  respond status (ErrorBody error (Some message)).

Definition generateAIInsight : string -> M (option (WithId AIInsight)) :=
  generateAIInsight apiKey post parseAIResponse.

Definition handleGet (id : string) : M Response :=
  weatherQuery <- getWeatherQuery id ;;
  match weatherQuery with
  | None => ret (error 404 "Not found" "Weather query not found")
  | Some weatherQuery =>
      (* Try to get associated AI insight *)
      aiInsight <- try_catch (getAIInsight id) (fun _ => ret None) ;;
      (* Get location context *)
      match getLocationContext (location (snd weatherQuery))
              (weatherData (snd weatherQuery))
              (forecastData (snd weatherQuery)) with
      | Throw message => throw message
      | Return locationContext =>
          ret (respond 200 (GetBody weatherQuery aiInsight locationContext))
      end
  end.

(** The [catch] of [handlePut] and of [handlePost]. *)
Definition refused (message : string) : M Response :=
  if includes message "Invalid date range"
  then ret (error 400 "Invalid date range" message)
  else if includes message "not found"
  then ret (error 400 "Location not found" message)
  else throw message.

Definition handlePut (id : string)
  (updates : option UpdateWeatherQueryRequest) : M Response :=
  match updates with
  | None => ret (error 400 "Invalid request" "No updates provided")
  | Some updates =>
      (* Validate that we have something to update *)
      if Nat.eqb (keys_length updates) 0
      then ret (error 400 "Invalid request" "No updates provided")
      else
        (* Validate date range if provided *)
        if match up_dateRange updates with
           | Some dateRange => incomplete dateRange
           | None => false
           end
        then ret (error 400 "Invalid date range"
                        "Both start date and end date are required")
        else
          try_catch
            (updatedQuery <- updateWeatherQuery weatherService id updates ;;
             match updatedQuery with
             | None => ret (error 404 "Not found" "Weather query not found")
             | Some updatedQuery =>
                 (* If location was updated, try to regenerate AI insight *)
                 aiInsight <-
                   (if JS.truthy (up_location updates)
                    then
                      try_catch
                        (existingInsight <- getAIInsight id ;;
                         match existingInsight with
                         | Some _ => generateAIInsight id
                         | None => ret None
                         end)
                        (fun _ => ret None)
                    else try_catch (getAIInsight id) (fun _ => ret None)) ;;
                 ret (respond 200 (PutBody updatedQuery aiInsight))
             end)
            refused
  end.

Definition handleDelete (id : string) : M Response :=
  deleted <- deleteWeatherQuery id ;;
  if negb deleted
  then ret (error 404 "Not found" "Weather query not found")
  else ret (respond 204 NoBody).

(** The handler of [/api/weather-queries/[id]]. *)
Definition handler (method : string) (id : QueryValue)
  (body : option UpdateWeatherQueryRequest) : M Response :=
  match id with
  | One id =>
      if negb (JS.truthy_string id)
      then ret (error 400 "Invalid request" "Weather query ID is required")
      else
        try_catch
          (if String.eqb method "GET" then handleGet id
           else if String.eqb method "PUT" then handlePut id body
           else if String.eqb method "DELETE" then handleDelete id
           else ret {| status := 405;
                       allow := Some ["GET"; "PUT"; "DELETE"];
                       body := ErrorBody "Method not allowed" None |})
          (fun message => ret (error 500 "Internal server error" message))
  | _ => ret (error 400 "Invalid request" "Weather query ID is required")
  end.

(** [handlePost] of [/api/weather-queries]. *)
Definition handlePost (request : PostRequest) : M Response :=
  match post_location request, post_dateRange request with
  | Some location, Some dateRange =>
      if negb (JS.truthy_string location)
      then ret (error 400 "Missing required fields"
                      "Location and date range are required")
      else if incomplete dateRange
      then ret (error 400 "Invalid date range"
                      "Both start date and end date are required")
      else
        try_catch
          ((* Create the weather query *)
           weatherQuery <-
             createWeatherQuery weatherService
               {| cr_location := location; cr_dateRange := dateRange;
                  cr_userNotes := post_userNotes request;
                  cr_tags := post_tags request |} ;;
           (* Try to generate AI insight if service is available *)
           aiInsight <-
             try_catch
               (if JS.truthy (fst weatherQuery)
                then generateAIInsight (JS.or_string (fst weatherQuery) "")
                else ret None)
               (fun _ => ret None) ;;
           (* Get location context using the simple built-in service *)
           let locationContext :=
             match getLocationContext location
                     (weatherData (snd weatherQuery))
                     (forecastData (snd weatherQuery)) with
             | Return context => Some context
             | Throw _ => None
             end in
           ret (respond 201 (PostBody weatherQuery aiInsight locationContext)))
          refused
  | _, _ => ret (error 400 "Missing required fields"
                       "Location and date range are required")
  end.

End Handlers.

Arguments ErrorBody {LocationContext}.
Arguments GetBody {LocationContext}.
Arguments PutBody {LocationContext}.
Arguments PostBody {LocationContext}.
Arguments NoBody {LocationContext}.
Arguments status {LocationContext}.
Arguments allow {LocationContext}.
Arguments body {LocationContext}.
Arguments respond {LocationContext}.
Arguments error {LocationContext}.

End QueryHandlers.

(** The handlers over the sample service, with a location context that
    says nothing. *)
Module HandlerSample.

Definition handler :
  string -> QueryHandlers.QueryValue -> option UpdateWeatherQueryRequest ->
  M (QueryHandlers.Response unit) :=
  QueryHandlers.handler (H := Sample.platform) AISample.apiKey AISample.post
    AISample.parseAIResponse unit (fun _ _ _ => Return tt).

Definition handlePost :
  QueryHandlers.PostRequest -> M (QueryHandlers.Response unit) :=
  QueryHandlers.handlePost (H := Sample.platform) AISample.apiKey
    AISample.post AISample.parseAIResponse unit (fun _ _ _ => Return tt).

Definition not_found : QueryHandlers.Response unit :=
  QueryHandlers.error 404 "Not found" "Weather query not found".

Definition notes (text : string) : UpdateWeatherQueryRequest :=
  {| up_location := None; up_dateRange := None;
     up_userNotes := Some text; up_tags := None |}.

(** A POST for London. *)
Definition london_post : QueryHandlers.PostRequest :=
  {| QueryHandlers.post_location := Some "London";
     QueryHandlers.post_dateRange := Some (cr_dateRange Sample.london_request);
     QueryHandlers.post_userNotes := None;
     QueryHandlers.post_tags := None |}.

(** The sample platform with a driver that includes the result
    metadata. *)
Definition with_metadata : Platform :=
  {| parseISO := parseISO (Platform := Sample.platform);
     fuse_score := fuse_score (Platform := Sample.platform);
     ObjectId_parse := ObjectId_parse (Platform := Sample.platform);
     ObjectId_toString := ObjectId_toString (Platform := Sample.platform);
     regex_match_i := regex_match_i (Platform := Sample.platform);
     includeResultMetadata := true;
     Date_toString := Date_toString (Platform := Sample.platform);
     Number_toString := Number_toString (Platform := Sample.platform);
     Date_toISOString := Date_toISOString (Platform := Sample.platform);
     js2xml := js2xml (Platform := Sample.platform) |}.

Definition handler_with_metadata :
  string -> QueryHandlers.QueryValue -> option UpdateWeatherQueryRequest ->
  M (QueryHandlers.Response unit) :=
  QueryHandlers.handler (H := with_metadata) AISample.apiKey AISample.post
    AISample.parseAIResponse unit (fun _ _ _ => Return tt).

End HandlerSample.

(* ===================================================================== *)
(** ** [exportToPDF] of [lib/exportService.ts] *)
(* ===================================================================== *)

Module PdfExport.

Local Open Scope Q_scope.

(** The calls made on the jsPDF document. *)
Inductive Call : Type :=
| SetFontSize (size : Z)
| SetTextColor (r g b : Z)
| Text (lines : list string) (x y : number) (centered : bool)
| AddPage.

(** The document: the calls made so far, and [currentY]. *)
Record Doc : Type := {
  calls : list Call;
  currentY : number
}.

Definition call (c : Call) (doc : Doc) : Doc :=
  {| calls := (calls doc ++ [c])%list; currentY := currentY doc |}.

(** [doc.text(lines, x, currentY)]. *)
Definition text (lines : list string) (x : number) (doc : Doc) : Doc :=
  call (Text lines x (currentY doc) false) doc.

(** [currentY += dy]. *)
Definition advance (dy : number) (doc : Doc) : Doc :=
  {| calls := calls doc; currentY := currentY doc + dy |}.

(** [if (currentY > limit) { doc.addPage(); currentY = 20; }]. *)
Definition break_after (limit : number) (doc : Doc) : Doc :=
  if Qle_bool (currentY doc) limit then doc
  else {| calls := (calls doc ++ [AddPage])%list; currentY := 20 |}.

Record PdfFile : Type := {
  pdf_calls : list Call;
  pdf_filename : string;
  pdf_mimeType : string
}.

Section Pdf.

Context `{Platform}.

(** [doc.internal.pageSize]. *)
Variable pageWidth pageHeight : number.

(** [doc.splitTextToSize(text, width)]. *)
Variable splitTextToSize : string -> number -> list string.

(** [s.substring(0, 100)]. *)
Variable substring_0_100 : string -> string.

(** date-fns [format(date, 'yyyy-MM-dd HH:mm:ss')]. *)
Variable format_date_time : Date -> string.

Definition lines_height (lines : list string) : number :=
  inject_Z (Z.of_nat (List.length lines)) * 5.

(** The body of the loop over the queries. *)
Definition query_block (doc : Doc) (query : WithId WeatherQuery) : Doc :=
  let q := snd query in
  let doc := break_after (pageHeight - 60) doc in
  let doc := call (SetFontSize 12) doc in
  let doc := call (SetTextColor 0 50 100) doc in
  let doc := text ["Location: " ++ location q] 20 doc in
  let doc := advance 8 doc in
  let doc := call (SetTextColor 0 0 0) doc in
  let doc := call (SetFontSize 10) doc in
  let doc := text ["Date Range: " ++ startDate (dateRange q) ++ " to "
                   ++ endDate (dateRange q)] 25 doc in
  let doc := advance 6 doc in
  let doc := text ["Temperature: "
                   ++ Number_toString (temperature (weatherData q))
                   ++ "°C (feels like "
                   ++ Number_toString (feelsLike (weatherData q)) ++ "°C)"]
                  25 doc in
  let doc := advance 6 doc in
  let doc := text ["Conditions: " ++ wd_description (weatherData q)] 25 doc in
  let doc := advance 6 doc in
  let doc := text ["Humidity: "
                   ++ Number_toString (wd_humidity (weatherData q))
                   ++ "% | Wind: "
                   ++ Number_toString (wd_windSpeed (weatherData q))
                   ++ " km/h"] 25 doc in
  let doc := advance 6 doc in
  let doc :=
    if JS.truthy (userNotes q)
    then advance 6
           (text ["Notes: "
                  ++ substring_0_100 (JS.or_string (userNotes q) "")] 25 doc)
    else doc in
  (* Space between entries *)
  advance 5 doc.

(** The body of [recommendations.slice(0, 3).forEach]. *)
Definition recommendation_lines (doc : Doc) (rec : string) : Doc :=
  let recLines := splitTextToSize ("• " ++ rec) (pageWidth - 50) in
  advance (lines_height recLines) (text recLines 30 doc).

(** The body of the loop over the insights. *)
Definition insight_block (doc : Doc) (insight_ : WithId AIInsight) : Doc :=
  let i := snd insight_ in
  let doc := break_after (pageHeight - 80) doc in
  let doc := call (SetFontSize 12) doc in
  let doc := call (SetTextColor 0 50 100) doc in
  let doc := text ["Location: " ++ ai_location i] 20 doc in
  let doc := advance 8 doc in
  let doc := call (SetFontSize 10) doc in
  let doc := call (SetTextColor 0 0 0) doc in
  (* Word wrap for insight text *)
  let insightLines := splitTextToSize (insight i) (pageWidth - 40) in
  let doc := text insightLines 25 doc in
  let doc := advance (lines_height insightLines + 5) doc in
  let doc :=
    match recommendations i with
    | Some (_ :: _ as recs) =>
        let doc := text ["Recommendations:"] 25 doc in
        let doc := advance 5 doc in
        fold_left recommendation_lines (firstn 3 recs) doc
    | _ => doc
    end in
  (* Space between insights *)
  advance 5 doc.

(** The document up to the section of the queries. *)
Definition header (generated : Date) (queries : list (WithId WeatherQuery))
  (insights : list (WithId AIInsight)) : Doc :=
  let doc := {| calls := []; currentY := 20 |} in
  (* Title *)
  let doc := call (SetFontSize 20) doc in
  let doc := call (SetTextColor 0 100 200) doc in
  let doc := call (Text ["SkyCast Weather Report"] (pageWidth / 2)
                        (currentY doc) true) doc in
  let doc := advance 15 doc in
  (* Export info *)
  let doc := call (SetFontSize 12) doc in
  let doc := call (SetTextColor 100 100 100) doc in
  let doc := text ["Generated on: " ++ format_date_time generated] 20 doc in
  let doc := advance 10 doc in
  let doc := text ["Total Queries: "
                   ++ ExportService.show_nat (List.length queries)] 20 doc in
  let doc := advance 10 doc in
  let doc := text ["AI Insights: "
                   ++ ExportService.show_nat (List.length insights)] 20 doc in
  let doc := advance 20 doc in
  (* Weather queries section *)
  let doc := call (SetFontSize 16) doc in
  let doc := call (SetTextColor 0 0 0) doc in
  let doc := text ["Weather Queries"] 20 doc in
  advance 10 doc.

(** The document after the loop over the queries. *)
Definition queries_section (generated : Date)
  (queries : list (WithId WeatherQuery)) (insights : list (WithId AIInsight))
  : Doc :=
  (* Limit to prevent PDF from being too large *)
  fold_left query_block (firstn 10 queries)
            (header generated queries insights).

(** AI Insights section. *)
Definition insights_section (insights : list (WithId AIInsight)) (doc : Doc)
  : Doc :=
  match insights with
  | [] => doc
  | _ =>
      let doc := advance 10 doc in
      let doc := break_after (pageHeight - 100) doc in
      let doc := call (SetFontSize 16) doc in
      let doc := call (SetTextColor 0 0 0) doc in
      let doc := text ["AI Weather Insights"] 20 doc in
      let doc := advance 10 doc in
      (* Limit insights *)
      fold_left insight_block (firstn 5 insights) doc
  end.

Definition exportToPDF (queries : list (WithId WeatherQuery))
  (insights : list (WithId AIInsight)) (timestamp : string) : M PdfFile :=
  generated <- new_Date ;;
  let doc :=
    insights_section insights (queries_section generated queries insights) in
  ret {| pdf_calls := calls doc;
         pdf_filename := "skycast_weather_report_" ++ timestamp ++ ".pdf";
         pdf_mimeType := "application/pdf" |}.

End Pdf.

(** The heights at which a list of calls writes text. *)
Definition text_heights (cs : list Call) : list number :=
  flat_map (fun c => match c with Text _ _ y _ => [y] | _ => [] end) cs.

(** A [Location:] line: one is written for each query and each insight
    in the report. *)
Definition is_block_line (c : Call) : bool :=
  match c with
  | Text [line] _ _ _ => String.prefix "Location: " line
  | _ => false
  end.

Definition blocks (cs : list Call) : nat :=
  List.length (filter is_block_line cs).

(** Text is written between the top margin and 28 units above the foot
    of the page. *)
Definition on_page (pageHeight y : number) : Prop :=
  20 <= y /\ y <= pageHeight - 28.

End PdfExport.

(** An A4 page and a report of the London query. *)
Module PdfSample.

Definition pageWidth : number := 210 # 1.
Definition pageHeight : number := 297 # 1.

Definition queries_section : PdfExport.Doc :=
  PdfExport.queries_section (H := Sample.platform) pageWidth pageHeight
    (fun s => s) Sample.show_Z Sample.noon_2024_01_10
    [(Some Sample.london_id, Sample.london_document)] [].

End PdfSample.

(* ===================================================================== *)
(** ** [lib/locationContextService.ts] *)
(* ===================================================================== *)

Module LocationContextService.

(** [a > b] and [a < b] on numbers. *)
Definition gt (a b : number) : bool := negb (Qle_bool a b).
Definition lt (a b : number) : bool := negb (Qle_bool b a).

(** [tips.push(...more)] under a condition. *)
Definition push_when (c : bool) (more : list string) (l : list string)
  : list string :=
  if c then (l ++ more)%list else l.

Definition generateWeatherTips (weatherData : WeatherData)
  (forecastData : option ForecastData) : list string :=
  let tips := [] in
  let temp := temperature weatherData in
  let humidity := wd_humidity weatherData in
  let windSpeed := wd_windSpeed weatherData in
  let description := JS.toLowerCase (wd_description weatherData) in
  (* Temperature-based tips *)
  let tips :=
    if gt temp (30 # 1)
    then (tips
          ++ ["Very hot weather - stay hydrated and avoid prolonged sun exposure";
              "Use SPF 30+ sunscreen and seek shade during peak hours (10 AM - 4 PM)"])%list
    else if lt temp (0 # 1)
    then (tips
          ++ ["Freezing temperatures - dress in layers and protect exposed skin";
              "Be cautious of icy conditions when walking or driving"])%list
    else if lt temp (10 # 1)
    then (tips
          ++ ["Cold weather - wear warm clothing and consider a jacket"])%list
    else tips in
  (* Humidity-based tips *)
  let tips :=
    if gt humidity (80 # 1)
    then (tips
          ++ ["High humidity - you may feel warmer than the actual temperature";
              "Stay hydrated and take breaks in air-conditioned spaces if needed"])%list
    else if lt humidity (30 # 1)
    then (tips ++ ["Low humidity - use moisturizer and stay hydrated"])%list
    else tips in
  (* Wind-based tips *)
  let tips :=
    push_when (gt windSpeed (25 # 1))
      ["Strong winds - secure loose items and be cautious with umbrellas"]
      tips in
  (* Weather condition tips *)
  let tips :=
    if includes description "rain"
    then (tips
          ++ ["Rainy conditions - carry an umbrella and wear waterproof clothing";
              "Allow extra time for travel due to wet conditions"])%list
    else if includes description "snow"
    then (tips
          ++ ["Snowy conditions - wear appropriate footwear and dress warmly";
              "Check transportation schedules as they may be affected"])%list
    else if includes description "clear" || includes description "sunny"
    then (tips
          ++ ["Clear skies - great visibility and pleasant conditions for outdoor activities"])%list
    else tips in
  (* Forecast-based tips *)
  let tips :=
    match forecastData with
    | Some f =>
        match list_ f with
        | [] => tips
        | days =>
            let hasRainSoon := existsb (fun day => gt (pop day) (50 # 1)) days in
            push_when hasRainSoon
              ["Rain expected in the coming days - plan indoor alternatives"]
              tips
        end
    | None => tips
    end in
  (* Limit to 4 tips *)
  firstn 4 tips.

(** The warnings among the tips: strong winds, rain, snow, and rain in
    the coming days. *)
Definition warning (tip : string) : bool :=
  String.prefix "Strong winds" tip || String.prefix "Rainy conditions" tip
  || String.prefix "Snowy conditions" tip || String.prefix "Rain expected" tip
  || String.prefix "Allow extra time" tip
  || String.prefix "Check transportation" tip.

End LocationContextService.

(** A hot, humid and windy day of rain. *)
Module TipsSample.

Definition monsoon : WeatherData :=
  {| wd_name := "Mumbai"; wd_country := "IN"; temperature := 35 # 1;
     wd_description := "Heavy intensity rain"; wd_icon := "10d";
     feelsLike := 42 # 1; wd_humidity := 90 # 1; pressure := 1002 # 1;
     wd_windSpeed := 40 # 1; windDirection := 200 # 1; visibility := 4 # 1;
     clouds := 100 # 1; sunrise := 1704873600 # 1;
     sunset := 1704906000 # 1 |}.

Definition no_filters : WeatherQueryFilters :=
  {| f_location := None; f_dateFrom := None; f_dateTo := None;
     f_tags := None; f_hasAIInsight := None |}.

End TipsSample.

(* ===================================================================== *)
(** ** The date range validator *)
(* ===================================================================== *)

Section DateRangeValidator.

Context `{Platform}.

Lemma push_if_false (e : string) (l : list string) : push_if false e l = l.
Proof. reflexivity. Qed.

Lemma push_if_true_no_errors (e : string) (l : list string) :
  no_errors (push_if true e l) = false.
Proof.
  unfold no_errors, push_if. rewrite length_app. simpl.
  apply Z.eqb_neq. lia.
Qed.

Lemma no_errors_push_if (c : bool) (e : string) (l : list string) :
  no_errors (push_if c e l) = negb c && no_errors l.
Proof.
  destruct c.
  - apply push_if_true_no_errors.
  - reflexivity.
Qed.

Lemma no_errors_nil (l : list string) : no_errors l = true -> l = [].
Proof.
  destruct l; [reflexivity | discriminate].
Qed.

(** What the validator answers when both dates parse: the four checks
    decide, against the first two readings of the clock. *)
Lemma validateDateRange_parsed (dr : DateRange) (w : World) (ts te : Date) :
  parseISO (startDate dr) = Some ts ->
  parseISO (endDate dr) = Some te ->
  let ok := negb (te <? ts)
            && negb (ts <? oneYearAgo (clock w 0%nat))
            && negb (fiveDaysFromNow (clock w 1%nat) <? ts)
            && negb (fiveDaysFromNow (clock w 1%nat) <? te) in
  exists v w',
    validateDateRange dr w = (Return v, w')
    /\ isValid v = ok
    /\ (ok = true -> errors v = [] /\ adjustedRange v = Some dr)
    /\ weather_queries w' = weather_queries w
    /\ ai_insights w' = ai_insights w
    /\ writes w' = writes w
    /\ weather_api w' = weather_api w
    /\ forecast_api w' = forecast_api w
    /\ new_oids w' = new_oids w.
Proof.
  intros Hs He ok.
  unfold validateDateRange. rewrite Hs, He.
  unfold bind, Date_now, new_Date, ret.
  simpl JSDate.isValid. simpl negb. rewrite !push_if_false.
  change (no_errors []) with true. cbv iota.
  unfold isAfter, isBefore.
  set (errs := push_if _ _ (push_if _ _ (push_if _ _ (push_if _ _ [])))).
  assert (Hok : no_errors errs = ok).
  { unfold errs, ok, oneYearAgo, fiveDaysFromNow.
    rewrite !no_errors_push_if.
    change (clock (tick_clock w) 0%nat) with (clock w 1%nat).
    change (no_errors []) with true.
    repeat match goal with |- context [?a <? ?b] => destruct (a <? b) end;
      reflexivity. }
  destruct (no_errors errs) eqn:E.
  - eexists _, _. split; [reflexivity|]. simpl.
    split; [exact Hok|]. split; [|repeat split].
    intros _. split; [now apply no_errors_nil | reflexivity].
  - eexists _, _. split; [reflexivity|]. simpl.
    split; [exact Hok|]. split; [|repeat split].
    intros Ht. rewrite Ht in Hok. discriminate.
Qed.

(** The validator always returns, touches nothing but the clock, and
    accepts only ranges whose two dates parse and are in order; what it
    accepts it hands back unchanged. *)
Lemma validateDateRange_total (dr : DateRange) (w : World) :
  exists v w',
    validateDateRange dr w = (Return v, w')
    /\ (isValid v = true ->
        errors v = [] /\ adjustedRange v = Some dr
        /\ exists ts te,
             parseISO (startDate dr) = Some ts
             /\ parseISO (endDate dr) = Some te /\ ts <= te)
    /\ weather_queries w' = weather_queries w
    /\ ai_insights w' = ai_insights w
    /\ writes w' = writes w
    /\ weather_api w' = weather_api w
    /\ forecast_api w' = forecast_api w
    /\ new_oids w' = new_oids w.
Proof.
  destruct (parseISO (startDate dr)) as [ts|] eqn:Hs;
    [destruct (parseISO (endDate dr)) as [te|] eqn:He|].
  - destruct (validateDateRange_parsed dr w ts te Hs He)
      as (v & w' & E & Hv & Hok & Hframe).
    exists v, w'. split; [exact E|]. split; [|exact Hframe].
    intros Ht. rewrite Ht in Hv. symmetry in Hv.
    destruct (Hok Hv) as [He0 Ha]. split; [exact He0|]. split; [exact Ha|].
    exists ts, te. split; [reflexivity|]. split; [reflexivity|].
    apply andb_prop in Hv. destruct Hv as [Hv _].
    apply andb_prop in Hv. destruct Hv as [Hv _].
    apply andb_prop in Hv. destruct Hv as [Hv _].
    apply negb_true_iff, Z.ltb_ge in Hv. exact Hv.
  - unfold validateDateRange. rewrite Hs, He.
    eexists _, _. split; [reflexivity|]. simpl.
    split; [discriminate | repeat split].
  - unfold validateDateRange. rewrite Hs.
    destruct (parseISO (endDate dr));
      (eexists _, _; split; [reflexivity|]; simpl;
       split; [discriminate | repeat split]).
Qed.

End DateRangeValidator.

(** C1, as amended.  A date range whose two dates parse, with start not
    after end, end at most five days after start, start not before one
    year ago and not after five days from now, and whose end is not after
    five days from now either, is accepted: the validator returns
    [isValid = true], no error and the range itself as adjusted range. *)
Theorem validateDateRange_accepts_range_within_horizon
  `{Platform} (dr : DateRange) (w : World) (ts te : Date) :
  parseISO (startDate dr) = Some ts ->
  parseISO (endDate dr) = Some te ->
  ts <= te ->
  te <= ts + 5 * msPerDay ->
  oneYearAgo (clock w 0%nat) <= ts ->
  ts <= fiveDaysFromNow (clock w 1%nat) ->
  te <= fiveDaysFromNow (clock w 1%nat) ->
  result_of (validateDateRange dr) w
  = Return {| isValid := true; errors := []; adjustedRange := Some dr |}.
Proof.
  intros Hs He Hse _ Hyear Hstart Hend.
  destruct (validateDateRange_parsed dr w ts te Hs He)
    as (v & w' & E & Hv & Hok & _).
  assert (Ht : negb (te <? ts) && negb (ts <? oneYearAgo (clock w 0%nat))
               && negb (fiveDaysFromNow (clock w 1%nat) <? ts)
               && negb (fiveDaysFromNow (clock w 1%nat) <? te) = true).
  { rewrite !andb_true_iff, !negb_true_iff, !Z.ltb_ge. tauto. }
  unfold result_of. rewrite E. simpl.
  destruct (Hok Ht) as [He0 Ha]. rewrite Ht in Hv.
  destruct v as [iv ev av]. simpl in *. now subst.
Qed.

Lemma validateDateRange_accepts_range_within_horizon_witness :
  result_of
    (validateDateRange (H := Sample.platform)
       {| startDate := "2024-01-13"; endDate := "2024-01-14" |})
    Sample.empty_world
  = Return {| isValid := true; errors := [];
              adjustedRange :=
                Some {| startDate := "2024-01-13"; endDate := "2024-01-14" |} |}.
Proof.
  apply (validateDateRange_accepts_range_within_horizon
           (H := Sample.platform) _ Sample.empty_world
           1705104000000 1705190400000);
    vm_compute; (reflexivity || discriminate).
Defined.

(** C1 as stated fails: on 2024-01-10 the range 2024-01-13 to 2024-01-18
    meets every condition of the claim, and is refused because its end
    lies beyond five days from now. *)
Lemma validateDateRange_refuses_end_beyond_horizon :
  let dr := {| startDate := "2024-01-13"; endDate := "2024-01-18" |} in
  let w := Sample.empty_world in
  let now := Sample.noon_2024_01_10 in
  exists ts te,
    parseISO (Platform := Sample.platform) (startDate dr) = Some ts
    /\ parseISO (Platform := Sample.platform) (endDate dr) = Some te
    /\ clock w 0%nat = now /\ clock w 1%nat = now
    /\ ts <= te
    /\ te <= ts + 5 * msPerDay
    /\ oneYearAgo now <= ts
    /\ ts <= fiveDaysFromNow now
    /\ result_of (validateDateRange (H := Sample.platform) dr) w
       = Return
           {| isValid := false;
              errors := ["For long-term planning beyond 5 days, consider using current weather patterns and seasonal trends"];
              adjustedRange :=
                Some {| startDate := "2024-01-10";
                        endDate := "2024-01-15" |} |}.
Proof.
  exists 1705104000000, 1705536000000.
  repeat split; vm_compute; (reflexivity || discriminate).
Qed.

(* ===================================================================== *)
(** ** The location matcher *)
(* ===================================================================== *)

Section LocationMatcher.

Context `{Platform}.

(** [validateLocation] never throws and makes one request to the
    provider. *)
Lemma validateLocation_run (this : WeatherService) (loc : string) (w : World) :
  validateLocation this loc w
  = (Return (location_matches this loc w), tick_weather w).
Proof.
  unfold validateLocation, location_matches, bind, try_catch,
    getCurrentWeather, ret.
  destruct (weather_api w 0%nat loc); reflexivity.
Qed.

(** A Fuse index over no item finds nothing. *)
Lemma Fuse_search_empty (f : Fuse) (pattern : string) :
  fuse_docs f = [] -> Fuse_search f pattern = [].
Proof.
  intros E. unfold Fuse_search. rewrite E. reflexivity.
Qed.

(** With the index the constructor builds, a failed lookup leaves no
    candidate. *)
Lemma validateLocation_fallback_empty (loc : string) (w : World) :
  weather_api w 0%nat loc = None ->
  result_of (validateLocation weatherService loc) w = Return [].
Proof.
  intros E. unfold result_of. rewrite validateLocation_run.
  unfold location_matches. rewrite E. reflexivity.
Qed.

Lemma location_matches_coordinates (this : WeatherService) (loc : string)
  (w : World) :
  Forall (fun m => lm_coordinates m = zero_coordinates)
         (location_matches this loc w).
Proof.
  unfold location_matches. destruct (weather_api w 0%nat loc).
  - repeat constructor.
  - apply Forall_map, Forall_forall. reflexivity.
Qed.

End LocationMatcher.

(** C3, on the code.  The index of the service is empty, so the fallback
    has no candidate for "Londn", one letter short of the entry London
    of the table of common locations, whatever the scoring of fuse.js. *)
Theorem validateLocation_fallback_has_no_candidate :
  forall P : Platform,
    In "London" (map cl_name COMMON_LOCATIONS)
    /\ fuse_docs (fuse weatherService) = []
    /\ weather_api Sample.offline_world 0%nat "Londn" = None
    /\ result_of (validateLocation (H := P) weatherService "Londn")
                 Sample.offline_world = Return [].
Proof.
  intros P. split; [|split; [|split]].
  - simpl. tauto.
  - reflexivity.
  - reflexivity.
  - now apply validateLocation_fallback_empty.
Qed.

(* ===================================================================== *)
(** ** The weather query store *)
(* ===================================================================== *)

Section Store.

Context `{Platform}.

Lemma find_by_id_app_new {A} (oid : ObjectId) (c : list (ObjectId * A))
  (a : A) :
  Db.find_by_id oid c = None ->
  Db.find_by_id oid (c ++ [(oid, a)]) = Some (oid, a).
Proof.
  unfold Db.find_by_id. induction c as [|d c IH]; simpl.
  - now rewrite N.eqb_refl.
  - destruct (N.eqb _ _); [intros E; discriminate E | exact IH].
Qed.

Lemma bind_run {A B} (c : M A) (k : A -> M B) (w : World) :
  bind c k w
  = match c w with
    | (Return a, w') => k a w'
    | (Throw m, w') => (Throw m, w')
    end.
Proof. reflexivity. Qed.

Lemma try_catch_run {A} (c : M A) (handler : string -> M A) (w : World) :
  try_catch c handler w
  = match c w with
    | (Return a, w') => (Return a, w')
    | (Throw m, w') => handler m w'
    end.
Proof. reflexivity. Qed.

(** The two fetches of [createWeatherQuery] and [updateWeatherQuery]:
    the weather is required, the forecast is not. *)
Lemma fetch_run (loc : string) (w : World) :
  Promise_all2
    (getCurrentWeather loc)
    (try_catch (f <- getForecast loc ;; ret (Some f)) (fun _ => ret None)) w
  = (match weather_api w 0%nat loc with
     | Some weatherData => Return (weatherData, forecast_api w 0%nat loc)
     | None => Throw "Failed to fetch current weather data"
     end,
     tick_forecast (tick_weather w)).
Proof.
  unfold Promise_all2, getCurrentWeather, try_catch, bind, getForecast, ret.
  cbn [forecast_api tick_weather].
  destruct (weather_api w 0%nat loc), (forecast_api w 0%nat loc); reflexivity.
Qed.

(** Inserting a document and reading it back. *)
Lemma insert_then_find (doc : WeatherQuery) (w : World) :
  (insertedId <- Db.insertOne doc ;;
   created <- Db.findOne insertedId ;;
   match created with
   | None => throw "Failed to create weather query"
   | Some d => ret (with_id d)
   end) w
  = let oid := new_oids w 0%nat in
    let w1 := log_write (InsertQuery oid) (tick_oids w) in
    match Db.find_by_id oid (weather_queries w) with
    | Some _ => (Throw "E11000 duplicate key error", w1)
    | None =>
        (Return (Some (ObjectId_toString oid), doc),
         with_queries (weather_queries w ++ [(oid, doc)]) w1)
    end.
Proof.
  unfold bind, Db.insertOne, Db.findOne, ret, throw.
  cbn [weather_queries log_write tick_oids with_queries].
  destruct (Db.find_by_id (new_oids w 0%nat) (weather_queries w)) eqn:E.
  - reflexivity.
  - cbn [weather_queries with_queries]. rewrite (find_by_id_app_new _ _ _ E).
    reflexivity.
Qed.

Lemma location_matches_frame (this : WeatherService) (loc : string)
  (w w1 : World) :
  weather_api w1 = weather_api w ->
  location_matches this loc w1 = location_matches this loc w.
Proof. unfold location_matches. now intros ->. Qed.

Lemma createWeatherQuery_run (this : WeatherService)
  (request : CreateWeatherQueryRequest) (w : World) r w' :
  createWeatherQuery this request w = (r, w') ->
  create_outcome this request w r w'.
Proof.
  unfold createWeatherQuery.
  destruct (validateDateRange_total (cr_dateRange request) w)
    as (v & w1 & E & Hv & Hq & Hi & Hw & Hwa & Hfa & Hno).
  rewrite bind_run, E.
  destruct (isValid v) eqn:Ev; cbn [negb]; cbv beta iota.
  2:{ unfold throw. intros [= <- <-].
      eapply create_invalid_range; eauto. repeat split; assumption. }
  destruct (Hv eq_refl) as (_ & Hadj & _).
  rewrite bind_run, validateLocation_run.
  rewrite (location_matches_frame _ _ _ _ Hwa).
  destruct (location_matches this (cr_location request) w)
    as [|bestMatch rest] eqn:El.
  { unfold throw. intros [= <- <-].
    eapply create_location_not_found; eauto. repeat split; assumption. }
  fold (final_location bestMatch (cr_location request)).
  set (fl := final_location bestMatch (cr_location request)).
  rewrite try_catch_run, bind_run, fetch_run.
  cbn [weather_api forecast_api tick_weather next].
  change (next (weather_api w1) 0%nat fl) with (weather_api w1 1%nat fl).
  rewrite Hadj, Hfa, Hwa.
  destruct (weather_api w 1%nat fl) as [wd|] eqn:Ewd.
  2:{ unfold throw. intros [= <- <-].
      eapply create_fetch_failed; eauto. repeat split; assumption. }
  cbv beta iota.
  rewrite bind_run. unfold new_Date at 1. cbv beta iota.
  rewrite bind_run. unfold new_Date at 1. cbv beta iota.
  rewrite insert_then_find.
  cbn [new_oids weather_queries clock tick_clock tick_forecast tick_weather
       next].
  rewrite Hno, Hq. cbv zeta.
  destruct (Db.find_by_id (new_oids w 0%nat) (weather_queries w)) eqn:Efind.
  - unfold throw. intros [= <- <-].
    eapply create_duplicate_id; eauto; try congruence;
      cbn [weather_queries ai_insights writes log_write tick_oids tick_clock
           tick_forecast tick_weather]; congruence.
  - intros [= <- <-].
    eapply create_done; eauto;
      cbn [weather_queries ai_insights writes log_write tick_oids tick_clock
           tick_forecast tick_weather with_queries]; congruence.
Qed.

(** [createWeatherQuery] seen from outside. *)
Lemma createWeatherQuery_outcome (this : WeatherService)
  (request : CreateWeatherQueryRequest) (w : World) :
  create_outcome this request w
    (result_of (createWeatherQuery this request) w)
    (world_after (createWeatherQuery this request) w).
Proof.
  apply createWeatherQuery_run. unfold result_of, world_after.
  now destruct (createWeatherQuery this request w).
Qed.

End Store.

(** C4.  Once the date range and the location are accepted, a failure of
    the current-weather fetch makes [createWeatherQuery] throw and leaves
    the store as it was, no write command issued; a failure of the
    forecast fetch alone does not: the query is created and stored, with
    no [forecastData]. *)
Theorem createWeatherQuery_weather_required_forecast_optional
  `{Platform} (this : WeatherService) (request : CreateWeatherQueryRequest)
  (w : World) (v : DateRangeValidation) (bestMatch : LocationMatch)
  (rest : list LocationMatch) :
  result_of (validateDateRange (cr_dateRange request)) w = Return v ->
  isValid v = true ->
  location_matches this (cr_location request) w = bestMatch :: rest ->
  let finalLocation := final_location bestMatch (cr_location request) in
  let w' := world_after (createWeatherQuery this request) w in
  (weather_api w 1%nat finalLocation = None ->
   (exists message,
      result_of (createWeatherQuery this request) w = Throw message)
   /\ weather_queries w' = weather_queries w
   /\ writes w' = writes w)
  /\ (forall snapshot,
        weather_api w 1%nat finalLocation = Some snapshot ->
        forecast_api w 0%nat finalLocation = None ->
        Db.find_by_id (new_oids w 0%nat) (weather_queries w) = None ->
        exists id query,
          result_of (createWeatherQuery this request) w = Return (id, query)
          /\ forecastData query = None
          /\ weatherData query = snapshot
          /\ weather_queries w'
             = (weather_queries w ++ [(new_oids w 0%nat, query)])%list)
  /\ (forall message,
        result_of (createWeatherQuery this request) w = Throw message ->
        weather_queries w' = weather_queries w).
Proof.
  intros Hval Hv Hloc finalLocation w'.
  pose proof (createWeatherQuery_outcome this request w) as O.
  fold w' in O.
  assert (Hval' : forall v0 w0,
             validateDateRange (cr_dateRange request) w = (Return v0, w0) ->
             v0 = v).
  { intros v0 w0 E. unfold result_of in Hval. rewrite E in Hval.
    simpl in Hval. congruence. }
  split; [|split].
  3:{ intros message Hm. rewrite Hm in O.
      inversion O as [v0 w1 w0 E Ev S | v0 w1 w0 E Ev L S
                     | v0 w1 b r0 w0 E Ev L Wf S
                     | v0 w1 b r0 wd w0 E Ev L Wf Dup Sq
                     | ];
        try (destruct S as (Sq & _)); exact Sq. }
  - intros Hfail.
    inversion O as [v0 w1 w0 E Ev S | v0 w1 w0 E Ev L S
                   | v0 w1 b r0 w0 E Ev L Wf S
                   | v0 w1 b r0 wd w0 E Ev L Wf
                   | v0 w1 b r0 wd w0 E Ev L Wf].
    + apply Hval' in E. congruence.
    + congruence.
    + destruct S as (Sq & _ & Sw). split; [eauto|]. split; assumption.
    + assert (b = bestMatch) by congruence. subst b.
      fold finalLocation in Wf. congruence.
    + assert (b = bestMatch) by congruence. subst b.
      fold finalLocation in Wf. congruence.
  - intros wd Hwd Hfc Hfresh.
    inversion O as [v0 w1 w0 E Ev S | v0 w1 w0 E Ev L S
                   | v0 w1 b r0 w0 E Ev L Wf S
                   | v0 w1 b r0 wd0 w0 E Ev L Wf Dup
                   | v0 w1 b r0 wd0 w0 E Ev L Wf Fresh doc Sq Si Sw].
    + apply Hval' in E. congruence.
    + congruence.
    + assert (b = bestMatch) by congruence. subst b.
      fold finalLocation in Wf. congruence.
    + contradiction.
    + assert (b = bestMatch) by congruence. subst b.
      fold finalLocation in Wf, doc.
      assert (wd0 = wd) by congruence. subst wd0.
      exists (Some (ObjectId_toString (new_oids w 0%nat))), doc.
      split; [reflexivity|]. split; [exact Hfc|]. split; [reflexivity|].
      exact Sq.
Qed.

Lemma createWeatherQuery_weather_required_forecast_optional_witness :
  ((exists message,
      result_of (createWeatherQuery (H := Sample.platform) weatherService
                   Sample.tokyo_request) Sample.flaky_world
      = Throw message)
   /\ weather_queries
        (world_after (createWeatherQuery (H := Sample.platform) weatherService
                        Sample.tokyo_request) Sample.flaky_world) = []
   /\ writes
        (world_after (createWeatherQuery (H := Sample.platform) weatherService
                        Sample.tokyo_request) Sample.flaky_world) = [])
  /\ exists id query,
       result_of (createWeatherQuery (H := Sample.platform) weatherService
                    Sample.tokyo_request) Sample.empty_world
       = Return (id, query)
       /\ forecastData query = None
       /\ weatherData query = Sample.tokyo_weather
       /\ weather_queries
            (world_after (createWeatherQuery (H := Sample.platform)
                            weatherService Sample.tokyo_request)
                         Sample.empty_world)
          = [(1%N, query)].
Proof.
  split.
  - refine (proj1 (createWeatherQuery_weather_required_forecast_optional
                     (H := Sample.platform) weatherService
                     Sample.tokyo_request Sample.flaky_world
                     {| isValid := true; errors := [];
                        adjustedRange :=
                          Some (cr_dateRange Sample.tokyo_request) |}
                     {| lm_name := "Tokyo"; lm_country := "JP";
                        lm_state := None;
                        lm_coordinates := zero_coordinates;
                        confidence := Some 1%Q |} [] _ _ _) _);
      vm_compute; reflexivity.
  - refine (proj1 (proj2 (createWeatherQuery_weather_required_forecast_optional
                     (H := Sample.platform) weatherService
                     Sample.tokyo_request Sample.empty_world
                     {| isValid := true; errors := [];
                        adjustedRange :=
                          Some (cr_dateRange Sample.tokyo_request) |}
                     {| lm_name := "Tokyo"; lm_country := "JP";
                        lm_state := None;
                        lm_coordinates := zero_coordinates;
                        confidence := Some 1%Q |} [] _ _ _))
                  Sample.tokyo_weather _ _ _);
      vm_compute; reflexivity.
Defined.

(* ===================================================================== *)
(** ** Updating a query *)
(* ===================================================================== *)

Section Update.

Context `{Platform}.

Lemma handle_location_update_run (this : WeatherService)
  (updates : UpdateWeatherQueryRequest) (now : Date) (w : World) r w' :
  handle_location_update this updates (empty_update now) w = (r, w') ->
  same_store w w'
  /\ new_oids w' = new_oids w
  /\ clock w' = clock w
  /\ match r with
     | Throw _ => True
     | Return u =>
         set_updatedAt u = now /\ location_assigned this updates w u
         /\ set_dateRange u = None /\ set_userNotes u = None
         /\ set_tags u = None
     end.
Proof.
  unfold handle_location_update, location_assigned.
  destruct (JS.truthy (up_location updates)).
  2:{ unfold ret. intros [= <- <-]. repeat split. }
  set (loc := JS.or_string (up_location updates) "").
  rewrite bind_run, validateLocation_run.
  destruct (location_matches this loc w) as [|bestMatch rest] eqn:El.
  { unfold throw. intros [= <- <-]. repeat split. }
  fold (final_location bestMatch loc).
  rewrite bind_run, fetch_run.
  cbn [weather_api forecast_api tick_weather next].
  change (next (weather_api w) 0%nat (final_location bestMatch loc))
    with (weather_api w 1%nat (final_location bestMatch loc)).
  destruct (weather_api w 1%nat (final_location bestMatch loc))
    as [wd|] eqn:Ewd.
  2:{ intros [= <- <-]. repeat split. }
  unfold ret. intros [= <- <-].
  split; [repeat split|]. split; [reflexivity|]. split; [reflexivity|].
  cbn [set_updatedAt set_dateRange set_userNotes set_tags empty_update].
  split; [reflexivity|]. split; [|repeat split].
  exists bestMatch, rest, wd.
  cbn [set_location set_locationNormalized set_coordinates set_weatherData
       set_forecastData empty_update].
  repeat split; try assumption.
  now destruct (forecast_api w 0%nat (final_location bestMatch loc)).
Qed.

Lemma handle_dateRange_update_run (updates : UpdateWeatherQueryRequest)
  (u0 : UpdateDoc) (w : World) r w' :
  set_dateRange u0 = None ->
  handle_dateRange_update updates u0 w = (r, w') ->
  same_store w w'
  /\ new_oids w' = new_oids w
  /\ match r with
     | Throw _ => True
     | Return u =>
         dateRange_assigned updates u
         /\ set_updatedAt u = set_updatedAt u0
         /\ set_location u = set_location u0
         /\ set_locationNormalized u = set_locationNormalized u0
         /\ set_coordinates u = set_coordinates u0
         /\ set_weatherData u = set_weatherData u0
         /\ set_forecastData u = set_forecastData u0
         /\ set_userNotes u = set_userNotes u0
         /\ set_tags u = set_tags u0
     end.
Proof.
  intros Hnone.
  unfold handle_dateRange_update, dateRange_assigned.
  destruct (up_dateRange updates) as [range|].
  2:{ unfold ret. intros [= <- <-]. split; [repeat split|].
      split; [reflexivity|]. repeat split. exact Hnone. }
  destruct (validateDateRange_total range w)
    as (v & w1 & E & Hv & Hq & Hi & Hw & _ & _ & Hno).
  rewrite bind_run, E.
  destruct (isValid v); cbn [negb]; cbv beta iota.
  2:{ unfold throw. intros [= <- <-]. repeat split; assumption. }
  destruct (Hv eq_refl) as (_ & Hadj & Hord).
  unfold ret. intros [= <- <-].
  split; [repeat split; assumption|]. split; [assumption|].
  cbn [set_dateRange set_updatedAt set_location set_locationNormalized
       set_coordinates set_weatherData set_forecastData set_userNotes
       set_tags].
  rewrite Hadj. repeat split. exact Hord.
Qed.

Lemma same_store_trans (w1 w2 w3 : World) :
  same_store w1 w2 -> same_store w2 w3 -> same_store w1 w3.
Proof.
  unfold same_store. intros (A1 & A2 & A3) (B1 & B2 & B3).
  repeat split; congruence.
Qed.

Lemma updateWeatherQuery_run (this : WeatherService) (id : string)
  (updates : UpdateWeatherQueryRequest) (w : World) r w' :
  updateWeatherQuery this id updates w = (r, w') ->
  update_outcome this id updates w r w'.
Proof.
  unfold updateWeatherQuery.
  rewrite try_catch_run, bind_run. unfold new_Date at 1. cbv beta iota zeta.
  rewrite bind_run.
  destruct (handle_location_update this updates (empty_update (clock w 0%nat))
              (tick_clock w)) as [r1 w1] eqn:E1.
  apply handle_location_update_run in E1.
  destruct E1 as (S1 & O1 & _ & R1).
  assert (S1' : same_store w w1) by exact S1.
  destruct r1 as [u1|m1].
  2:{ unfold throw. intros [= <- <-]. now apply update_refused. }
  destruct R1 as (Ut & Uloc & Udr & Un & Utg).
  rewrite bind_run.
  destruct (handle_dateRange_update updates u1 w1) as [r2 w2] eqn:E2.
  apply (handle_dateRange_update_run _ _ _ _ _ Udr) in E2.
  destruct E2 as (S2 & O2 & R2).
  pose proof (same_store_trans _ _ _ S1' S2) as S12.
  destruct r2 as [u2|m2].
  2:{ unfold throw. intros [= <- <-]. now apply update_refused. }
  destruct R2 as (Vdr & Vt & Vl & Vln & Vc & Vw & Vf & Vn & Vtg).
  rewrite bind_run. unfold new_ObjectId.
  destruct (ObjectId_parse id) as [oid|] eqn:Eoid.
  2:{ unfold throw. intros [= <- <-]. now apply update_refused. }
  unfold ret at 1. cbv beta iota.
  rewrite bind_run. unfold findOneAndUpdate at 1. cbv beta iota zeta.
  cbn [weather_queries log_write].
  set (u := handle_other_updates updates u2).
  set (qs := Db.update_one oid (apply_set u) (weather_queries w2)).
  rewrite bind_run.
  assert (Hdoc : update_document this updates w u).
  { unfold update_document, u.
    cbn [handle_other_updates set_updatedAt set_userNotes set_tags].
    split; [congruence|]. split.
    { unfold location_assigned in *.
      cbn [handle_other_updates set_location set_locationNormalized
           set_coordinates set_weatherData set_forecastData].
      rewrite Vl, Vln, Vc, Vw, Vf.
      exact Uloc. }
    split.
    { unfold dateRange_assigned in *.
      cbn [handle_other_updates set_dateRange]. exact Vdr. }
    rewrite Vn, Vtg, Un, Utg.
    now destruct (up_userNotes updates), (up_tags updates). }
  destruct S12 as (Sq & Si & Sw).
  assert (Hout : forall w3,
            w3 = with_queries qs (log_write (UpdateQuery oid) w2) ->
            update_outcome this id updates w
              (update_answer (Db.find_by_id oid qs)) w3).
  { intros w3 ->.
    change qs with
      (weather_queries (with_queries qs (log_write (UpdateQuery oid) w2)))
      at 1.
    apply update_sent with (u := u); try assumption;
      cbn [weather_queries ai_insights writes with_queries log_write];
      unfold qs; congruence. }
  unfold result_value, update_answer in *.
  destruct includeResultMetadata.
  - unfold ret at 1. cbv beta iota.
    destruct (Db.find_by_id oid qs) as [d|];
      unfold ret; intros [= <- <-]; now apply Hout.
  - destruct (Db.find_by_id oid qs) as [d|].
    + unfold ret. cbv beta iota. intros [= <- <-]. now apply Hout.
    + unfold throw. cbv beta iota. intros [= <- <-]. now apply Hout.
Qed.

Lemma updateWeatherQuery_outcome (this : WeatherService) (id : string)
  (updates : UpdateWeatherQueryRequest) (w : World) :
  update_outcome this id updates w
    (result_of (updateWeatherQuery this id updates) w)
    (world_after (updateWeatherQuery this id updates) w).
Proof.
  apply updateWeatherQuery_run. unfold result_of, world_after.
  now destruct (updateWeatherQuery this id updates w).
Qed.

End Update.

Section UpdateFrame.

Context `{Platform}.

Lemma find_by_id_cons {A} (oid : ObjectId) (d : ObjectId * A)
  (c : list (ObjectId * A)) :
  Db.find_by_id oid (d :: c)
  = if N.eqb (fst d) oid then Some d else Db.find_by_id oid c.
Proof. reflexivity. Qed.

Lemma update_one_cons {A} (oid : ObjectId) (f : A -> A) (d : ObjectId * A)
  (c : list (ObjectId * A)) :
  Db.update_one oid f (d :: c)
  = if N.eqb (fst d) oid then (fst d, f (snd d)) :: c
    else d :: Db.update_one oid f c.
Proof. reflexivity. Qed.

Lemma find_update_one {A} (oid : ObjectId) (f : A -> A)
  (c : list (ObjectId * A)) (d : ObjectId * A) :
  Db.find_by_id oid c = Some d ->
  Db.find_by_id oid (Db.update_one oid f c) = Some (fst d, f (snd d)).
Proof.
  induction c as [|e c IH]; [discriminate|].
  rewrite find_by_id_cons, update_one_cons.
  destruct (N.eqb (fst e) oid) eqn:Ee.
  - intros [= ->]. rewrite find_by_id_cons. cbn [fst]. now rewrite Ee.
  - rewrite find_by_id_cons, Ee. exact IH.
Qed.

Lemma find_update_one_other {A} (oid oid' : ObjectId) (f : A -> A)
  (c : list (ObjectId * A)) :
  oid' <> oid ->
  Db.find_by_id oid' (Db.update_one oid f c) = Db.find_by_id oid' c.
Proof.
  intros Hne. induction c as [|e c IH]; [reflexivity|].
  rewrite update_one_cons.
  destruct (N.eqb (fst e) oid) eqn:Ee.
  - rewrite !find_by_id_cons. cbn [fst].
    apply N.eqb_eq in Ee.
    destruct (N.eqb (fst e) oid') eqn:Ee'; [|reflexivity].
    apply N.eqb_eq in Ee'. congruence.
  - rewrite !find_by_id_cons. now rewrite IH.
Qed.

(** What [updateWeatherQuery] does when only [userNotes] is given. *)
Lemma updateWeatherQuery_notes_run (this : WeatherService) (id : string)
  (oid : ObjectId) (notes : string) (w : World) :
  ObjectId_parse id = Some oid ->
  let updates := {| up_location := None; up_dateRange := None;
                    up_userNotes := Some notes; up_tags := None |} in
  let u := handle_other_updates updates (empty_update (clock w 0%nat)) in
  let qs := Db.update_one oid (apply_set u) (weather_queries w) in
  updateWeatherQuery this id updates w
  = (update_answer (Db.find_by_id oid qs),
     with_queries qs (log_write (UpdateQuery oid) (tick_clock w))).
Proof.
  intros Eoid updates u qs.
  unfold updateWeatherQuery.
  rewrite try_catch_run, bind_run. unfold new_Date at 1. cbv beta iota zeta.
  rewrite bind_run.
  unfold handle_location_update at 1. cbn [up_location updates JS.truthy].
  unfold ret at 1. cbv beta iota.
  rewrite bind_run.
  unfold handle_dateRange_update at 1. cbn [up_dateRange updates].
  unfold ret at 1. cbv beta iota.
  rewrite bind_run. unfold new_ObjectId. rewrite Eoid.
  unfold ret at 1. cbv beta iota.
  rewrite bind_run. unfold findOneAndUpdate at 1. cbv beta iota zeta.
  cbn [weather_queries log_write tick_clock].
  fold updates. fold u. fold qs.
  rewrite bind_run.
  unfold result_value, update_answer.
  destruct includeResultMetadata.
  - unfold ret at 1. cbv beta iota.
    destruct (Db.find_by_id oid qs); reflexivity.
  - destruct (Db.find_by_id oid qs); reflexivity.
Qed.

End UpdateFrame.

(** C6.  On an existing query, an update that supplies only [userNotes]
    leaves location, locationNormalized, coordinates, dateRange,
    weatherData, forecastData, tags and createdAt as they were, stores
    the new notes and sets updatedAt to the time of the call; no other
    record changes. *)
Theorem updateWeatherQuery_userNotes_only
  `{Platform} (this : WeatherService) (id : string) (oid : ObjectId)
  (q : WeatherQuery) (notes : string) (w : World) :
  ObjectId_parse id = Some oid ->
  Db.find_by_id oid (weather_queries w) = Some (oid, q) ->
  let updates := {| up_location := None; up_dateRange := None;
                    up_userNotes := Some notes; up_tags := None |} in
  let w' := world_after (updateWeatherQuery this id updates) w in
  (exists q',
     Db.find_by_id oid (weather_queries w') = Some (oid, q')
     /\ location q' = location q
     /\ locationNormalized q' = locationNormalized q
     /\ coordinates q' = coordinates q
     /\ dateRange q' = dateRange q
     /\ weatherData q' = weatherData q
     /\ forecastData q' = forecastData q
     /\ tags q' = tags q
     /\ createdAt q' = createdAt q
     /\ userNotes q' = Some notes
     /\ updatedAt q' = clock w 0%nat)
  /\ (forall other,
        other <> oid ->
        Db.find_by_id other (weather_queries w')
        = Db.find_by_id other (weather_queries w))
  /\ exists answer,
       result_of (updateWeatherQuery this id updates) w = Return answer.
Proof.
  intros Eoid Efind updates w'.
  pose proof (updateWeatherQuery_notes_run this id oid notes w Eoid) as R.
  cbv zeta in R. fold updates in R.
  unfold w', world_after, result_of. rewrite R.
  cbn [fst snd weather_queries with_queries].
  rewrite (find_update_one _ _ _ _ Efind). cbn [fst snd].
  split; [|split].
  - eexists. split; [reflexivity|]. repeat split.
  - intros other Hne. now apply find_update_one_other.
  - unfold update_answer. destruct includeResultMetadata; eauto.
Qed.

Lemma updateWeatherQuery_userNotes_only_witness :
  exists q',
    Db.find_by_id 1%N
      (weather_queries
         (world_after
            (updateWeatherQuery (H := Sample.platform) weatherService
               Sample.london_id
               {| up_location := None; up_dateRange := None;
                  up_userNotes := Some "sunny after all"; up_tags := None |})
            Sample.london_world))
    = Some (1%N, q')
    /\ location q' = "London"
    /\ weatherData q' = Sample.london_weather
    /\ forecastData q' = Some Sample.london_forecast
    /\ userNotes q' = Some "sunny after all".
Proof.
  destruct (updateWeatherQuery_userNotes_only (H := Sample.platform)
              weatherService Sample.london_id 1%N Sample.london_document
              "sunny after all" Sample.london_world)
    as ((q' & F & L & _ & _ & _ & W & Fc & _ & _ & N & _) & _).
  - vm_compute. reflexivity.
  - vm_compute. reflexivity.
  - exists q'. repeat split; assumption.
Defined.

(* ===================================================================== *)
(** ** Deleting a query *)
(* ===================================================================== *)

Section Delete.

Context `{Platform}.

Lemma remove_one_cons {A} (oid : ObjectId) (d : ObjectId * A)
  (c : list (ObjectId * A)) :
  Db.remove_one oid (d :: c)
  = if N.eqb (fst d) oid then c else d :: Db.remove_one oid c.
Proof. reflexivity. Qed.

Lemma find_by_id_absent {A} (oid : ObjectId) (c : list (ObjectId * A)) :
  ~ In oid (map fst c) -> Db.find_by_id oid c = None.
Proof.
  induction c as [|e c IH]; [reflexivity|].
  intros Hn. rewrite find_by_id_cons.
  destruct (N.eqb (fst e) oid) eqn:Ee.
  - apply N.eqb_eq in Ee. exfalso. apply Hn. now left.
  - apply IH. intros Hin. apply Hn. now right.
Qed.

(** With unique ids, a deleted document is gone. *)
Lemma find_remove_one {A} (oid : ObjectId) (c : list (ObjectId * A)) :
  NoDup (map fst c) -> Db.find_by_id oid (Db.remove_one oid c) = None.
Proof.
  induction c as [|e c IH]; [reflexivity|].
  cbn [map]. intros Hnd. inversion Hnd as [|x l Hx Hl]; subst.
  rewrite remove_one_cons.
  destruct (N.eqb (fst e) oid) eqn:Ee.
  - apply N.eqb_eq in Ee. subst oid. now apply find_by_id_absent.
  - rewrite find_by_id_cons, Ee. now apply IH.
Qed.

Lemma find_remove_one_other {A} (oid other : ObjectId)
  (c : list (ObjectId * A)) :
  other <> oid ->
  Db.find_by_id other (Db.remove_one oid c) = Db.find_by_id other c.
Proof.
  intros Hne. induction c as [|e c IH]; [reflexivity|].
  rewrite remove_one_cons, find_by_id_cons.
  destruct (N.eqb (fst e) oid) eqn:Ee.
  - apply N.eqb_eq in Ee.
    destruct (N.eqb (fst e) other) eqn:Eo; [|reflexivity].
    apply N.eqb_eq in Eo. congruence.
  - rewrite find_by_id_cons. now rewrite IH.
Qed.

Lemma deleteWeatherQuery_run (id : string) (w : World) :
  deleteWeatherQuery id w
  = let w1 := with_insights (insights_without id w)
                (log_write (DeleteInsights id) w) in
    match ObjectId_parse id with
    | None => (Return false, w1)
    | Some oid =>
        let w2 := log_write (DeleteQuery oid) w1 in
        match Db.find_by_id oid (weather_queries w) with
        | Some _ =>
            (Return true,
             with_queries (Db.remove_one oid (weather_queries w)) w2)
        | None => (Return false, w2)
        end
    end.
Proof.
  unfold deleteWeatherQuery.
  rewrite try_catch_run, bind_run.
  unfold Db.deleteMany_insights at 1. cbv beta iota zeta.
  cbn [ai_insights log_write]. fold (insights_without id w).
  rewrite bind_run. unfold new_ObjectId.
  destruct (ObjectId_parse id) as [oid|]; [|reflexivity].
  unfold ret at 1. cbv beta iota.
  rewrite bind_run. unfold Db.deleteOne. cbv beta iota zeta.
  cbn [weather_queries log_write with_insights].
  destruct (Db.find_by_id oid (weather_queries w)); reflexivity.
Qed.

End Delete.



(* ===================================================================== *)
(** ** What holds of every stored record *)
(* ===================================================================== *)

Section Invariants.

Context `{Platform}.

Lemma Forall_update_one {A} (P : A -> Prop) (oid : ObjectId) (f : A -> A)
  (c : list (ObjectId * A)) :
  (forall a, P a -> P (f a)) ->
  Forall (fun d => P (snd d)) c ->
  Forall (fun d => P (snd d)) (Db.update_one oid f c).
Proof.
  intros Hf. induction 1 as [|d c Hd Hc IH]; [constructor|].
  rewrite update_one_cons. destruct (N.eqb (fst d) oid).
  - constructor; [now apply Hf | exact Hc].
  - constructor; assumption.
Qed.

Lemma Forall_remove_one {A} (P : ObjectId * A -> Prop) (oid : ObjectId)
  (c : list (ObjectId * A)) :
  Forall P c -> Forall P (Db.remove_one oid c).
Proof.
  induction 1 as [|d c Hd Hc IH]; [constructor|].
  rewrite remove_one_cons. destruct (N.eqb (fst d) oid).
  - exact Hc.
  - constructor; assumption.
Qed.

Lemma find_update_one_inv {A} (oid : ObjectId) (f : A -> A)
  (c : list (ObjectId * A)) (d' : ObjectId * A) :
  Db.find_by_id oid (Db.update_one oid f c) = Some d' ->
  exists d, Db.find_by_id oid c = Some d /\ d' = (fst d, f (snd d)).
Proof.
  induction c as [|e c IH]; [discriminate|].
  rewrite update_one_cons, find_by_id_cons.
  destruct (N.eqb (fst e) oid) eqn:Ee.
  - rewrite find_by_id_cons. cbn [fst]. rewrite Ee.
    intros [= <-]. now exists e.
  - rewrite find_by_id_cons, Ee. exact IH.
Qed.

(** A property of records that creation establishes and the update
    document preserves holds of every record of a reachable store. *)
Lemma reachable_Forall (this : WeatherService) (P : WeatherQuery -> Prop) :
  (forall request w v w1 bestMatch rest snapshot forecast t1 t2,
      validateDateRange (cr_dateRange request) w = (Return v, w1) ->
      isValid v = true ->
      location_matches this (cr_location request) w = bestMatch :: rest ->
      P (created_document request bestMatch snapshot forecast t1 t2)) ->
  (forall updates w u q,
      update_document this updates w u -> P q -> P (apply_set u q)) ->
  forall w, reachable this w -> Forall (fun d => P (snd d)) (weather_queries w).
Proof.
  intros Hcreate Hupdate w R.
  induction R as [w E | w w' R IH C].
  - rewrite E. constructor.
  - destruct C as [request w | id updates w | id w].
    + pose proof (createWeatherQuery_outcome this request w) as O.
      inversion O as [v w1 w0 E Ev S | v w1 w0 E Ev L S
                     | v w1 b r0 w0 E Ev L Wf S
                     | v w1 b r0 wd w0 E Ev L Wf Dup Sq
                     | v w1 b r0 wd w0 E Ev L Wf Fresh doc Sq Si Sw];
        try (destruct S as (Sq & _)); rewrite Sq; try exact IH.
      apply Forall_app. split; [exact IH|].
      constructor; [|constructor]. cbn [snd]. unfold doc. eauto.
    + pose proof (updateWeatherQuery_outcome this id updates w) as O.
      inversion O as [m w0 S | oid u w0 Eoid Hu Sq Si Sw].
      * destruct S as (Sq & _). now rewrite Sq.
      * rewrite Sq. apply Forall_update_one; [|exact IH].
        intros q. now apply Hupdate with (updates := updates) (w := w).
    + unfold world_after. rewrite deleteWeatherQuery_run. cbv zeta.
      destruct (ObjectId_parse id) as [oid|]; [|exact IH].
      destruct (Db.find_by_id oid (weather_queries w)); [|exact IH].
      cbn [snd weather_queries with_queries].
      now apply Forall_remove_one.
Qed.

Lemma created_document_ordered (this : WeatherService)
  request w v w1 bestMatch snapshot forecast t1 t2 :
  validateDateRange (cr_dateRange request) w = (Return v, w1) ->
  isValid v = true ->
  range_ordered
    (created_document request bestMatch snapshot forecast t1 t2).
Proof.
  intros E Ev.
  destruct (validateDateRange_total (cr_dateRange request) w)
    as (v' & w1' & E' & Hv & _).
  rewrite E in E'. injection E' as <- <-.
  destruct (Hv Ev) as (_ & _ & Hord). exact Hord.
Qed.

Lemma apply_set_ordered (this : WeatherService) updates w u q :
  update_document this updates w u ->
  range_ordered q -> range_ordered (apply_set u q).
Proof.
  intros (_ & _ & Hdr & _) Hq.
  unfold range_ordered, apply_set. cbn [dateRange].
  unfold dateRange_assigned in Hdr.
  destruct (up_dateRange updates) as [range|].
  - destruct Hdr as [-> Hord]. exact Hord.
  - rewrite Hdr. exact Hq.
Qed.

Lemma head_match_coordinates (this : WeatherService) loc w bestMatch rest :
  location_matches this loc w = bestMatch :: rest ->
  lm_coordinates bestMatch = zero_coordinates.
Proof.
  intros E. pose proof (location_matches_coordinates this loc w) as F.
  rewrite E in F. now inversion F.
Qed.

Lemma apply_set_placeholder (this : WeatherService) updates w u q :
  update_document this updates w u ->
  placeholder q -> placeholder (apply_set u q).
Proof.
  intros (_ & Hloc & _) Hq.
  unfold placeholder, apply_set. cbn [coordinates].
  unfold location_assigned in Hloc.
  destruct (JS.truthy (up_location updates)).
  - destruct Hloc as (b & r & s & L & _ & _ & _ & -> & _).
    cbn [assign_opt]. f_equal. now apply head_match_coordinates in L.
  - destruct Hloc as (_ & _ & -> & _). exact Hq.
Qed.

End Invariants.

(** C2.  In every store the service reaches from an empty collection,
    each record has a date range whose dates parse with start not after
    end.  The validator stands before the write: a create whose range is
    not in order, and an update that supplies such a range, leave the
    store as it was and send no write command. *)
Theorem date_range_ordered_at_rest
  `{Platform} (this : WeatherService) (w : World) :
  reachable this w ->
  Forall (fun d => range_ordered (snd d)) (weather_queries w)
  /\ (forall request,
        ~ ordered_range (cr_dateRange request) ->
        same_store w (world_after (createWeatherQuery this request) w))
  /\ (forall id updates range,
        up_dateRange updates = Some range ->
        ~ ordered_range range ->
        same_store w (world_after (updateWeatherQuery this id updates) w)).
Proof.
  intros R. split; [|split].
  - apply (reachable_Forall this range_ordered); [| |exact R].
    + intros request w0 v w1 b r s f t1 t2 E Ev _.
      now apply (created_document_ordered this request w0 v w1).
    + intros updates w0 u q. apply apply_set_ordered.
  - intros request Hbad.
    pose proof (createWeatherQuery_outcome this request w) as O.
    inversion O as [v w1 w0 E Ev S | v w1 w0 E Ev L S
                   | v w1 b r0 w0 E Ev L Wf S
                   | v w1 b r0 wd w0 E Ev L Wf Dup Sq
                   | v w1 b r0 wd w0 E Ev L Wf Fresh doc Sq Si Sw];
      try exact S; exfalso; apply Hbad;
      exact (created_document_ordered this request w v w1 b wd None 0 0 E Ev).
  - intros id updates range Er Hbad.
    pose proof (updateWeatherQuery_outcome this id updates w) as O.
    inversion O as [m w0 S | oid u w0 Eoid Hu Sq Si Sw]; [exact S|].
    exfalso. apply Hbad. destruct Hu as (_ & _ & Hdr & _).
    unfold dateRange_assigned in Hdr. rewrite Er in Hdr. now destruct Hdr.
Qed.

Lemma london_world_reachable :
  reachable (H := Sample.platform) weatherService Sample.london_world.
Proof.
  apply reachable_call with (w := Sample.empty_world).
  - now apply reachable_empty.
  - exact (call_create weatherService Sample.london_request
             Sample.empty_world).
Defined.

Lemma date_range_ordered_at_rest_witness :
  Forall (fun d => range_ordered (H := Sample.platform) (snd d))
         (weather_queries Sample.london_world).
Proof.
  exact (proj1 (date_range_ordered_at_rest (H := Sample.platform)
                  weatherService Sample.london_world
                  london_world_reachable)).
Defined.

(** What an update with a location leaves in the record it has written:
    the weather just fetched, and the forecast just fetched when there
    is one, the forecast the record held otherwise. *)
Lemma updateWeatherQuery_location_snapshots
  `{Platform} (this : WeatherService) (id : string) (oid : ObjectId)
  (updates : UpdateWeatherQueryRequest) (w : World)
  (d' : ObjectId * WeatherQuery) :
  JS.truthy (up_location updates) = true ->
  ObjectId_parse id = Some oid ->
  let w' := world_after (updateWeatherQuery this id updates) w in
  writes w' <> writes w ->
  Db.find_by_id oid (weather_queries w') = Some d' ->
  exists d bestMatch rest snapshot,
    Db.find_by_id oid (weather_queries w) = Some d
    /\ location_matches this (JS.or_string (up_location updates) "") w
       = bestMatch :: rest
    /\ weather_api w 1%nat
         (final_location bestMatch (JS.or_string (up_location updates) ""))
       = Some snapshot
    /\ weatherData (snd d') = snapshot
    /\ forecastData (snd d')
       = match forecast_api w 0%nat
                 (final_location bestMatch
                    (JS.or_string (up_location updates) "")) with
         | Some f => Some f
         | None => forecastData (snd d)
         end.
Proof.
  intros Ht Eoid w' Hsent Hfind.
  pose proof (updateWeatherQuery_outcome this id updates w) as O.
  fold w' in O.
  inversion O as [m w0 S | oid0 u w0 Eoid0 Hu Sq Si Sw].
  - destruct S as (_ & _ & Sw). contradiction.
  - assert (oid0 = oid) by congruence. subst oid0.
    rewrite Sq in Hfind. apply find_update_one_inv in Hfind.
    destruct Hfind as (d & Hd & ->). cbn [snd].
    destruct Hu as (_ & Hloc & _). unfold location_assigned in Hloc.
    rewrite Ht in Hloc.
    destruct Hloc as (b & r & s & L & W & _ & _ & _ & Hw & Hf).
    exists d, b, r, s. unfold apply_set. cbn [weatherData forecastData].
    rewrite Hw, Hf. repeat split; assumption.
Qed.

(** C7, on the code.  The London query holds the forecast of London.
    Updating its location to Tokyo when the forecast request for Tokyo
    fails stores the location and the weather of Tokyo and keeps the
    forecast of London. *)
Theorem updateWeatherQuery_keeps_forecast_of_previous_location :
  let w := Sample.london_world in
  let w' := world_after
              (updateWeatherQuery (H := Sample.platform) weatherService
                 Sample.london_id Sample.tokyo_update) w in
  Db.find_by_id 1%N (weather_queries w) = Some (1%N, Sample.london_document)
  /\ forecast_api w 0%nat "Tokyo" = None
  /\ exists q',
       Db.find_by_id 1%N (weather_queries w') = Some (1%N, q')
       /\ location q' = "Tokyo"
       /\ locationNormalized q' = "tokyo"
       /\ weatherData q' = Sample.tokyo_weather
       /\ forecastData q' = Some Sample.london_forecast.
Proof.
  vm_compute. split; [reflexivity|]. split; [reflexivity|].
  eexists. split; [reflexivity|]. repeat split.
Qed.

(** C10.  Every match [validateLocation] returns, from the provider or
    from the fuzzy search, has the coordinates (0, 0); so has every
    record of a store the service reaches, every record
    [createWeatherQuery] returns, and every record that an update with a
    location has written. *)
Theorem coordinates_are_placeholders
  `{Platform} (this : WeatherService) (w : World) :
  reachable this w ->
  (forall loc w0,
      exists l,
        result_of (validateLocation this loc) w0 = Return l
        /\ Forall (fun m => lm_coordinates m = {| lat := 0%Q; lon := 0%Q |})
                  l)
  /\ Forall (fun d => coordinates (snd d)
                      = Some {| lat := 0%Q; lon := 0%Q |})
            (weather_queries w)
  /\ (forall request id q,
        result_of (createWeatherQuery this request) w = Return (id, q) ->
        coordinates q = Some {| lat := 0%Q; lon := 0%Q |})
  /\ (forall id oid updates d',
        JS.truthy (up_location updates) = true ->
        ObjectId_parse id = Some oid ->
        let w' := world_after (updateWeatherQuery this id updates) w in
        writes w' <> writes w ->
        Db.find_by_id oid (weather_queries w') = Some d' ->
        coordinates (snd d') = Some {| lat := 0%Q; lon := 0%Q |}).
Proof.
  intros R. split; [|split; [|split]].
  - intros loc w0. exists (location_matches this loc w0).
    unfold result_of. rewrite validateLocation_run.
    split; [reflexivity | apply location_matches_coordinates].
  - apply (reachable_Forall this placeholder); [| |exact R].
    + intros request w0 v w1 b r s f t1 t2 _ _ L.
      unfold placeholder, created_document. cbn [coordinates]. f_equal.
      now apply head_match_coordinates in L.
    + intros updates w0 u q. apply apply_set_placeholder.
  - intros request id q Hr.
    pose proof (createWeatherQuery_outcome this request w) as O.
    rewrite Hr in O.
    inversion O as [| | | | v w1 b r0 wd w0 E Ev L Wf Fresh doc Sq Si Sw].
    unfold doc. cbn [coordinates created_document]. f_equal.
    now apply head_match_coordinates in L.
  - intros id oid updates d' Ht Eoid w' Hsent Hfind.
    pose proof (updateWeatherQuery_outcome this id updates w) as O.
    fold w' in O.
    inversion O as [m w0 S | oid0 u w0 Eoid0 Hu Sq Si Sw].
    + destruct S as (_ & _ & Sw). contradiction.
    + assert (oid0 = oid) by congruence. subst oid0.
      rewrite Sq in Hfind. apply find_update_one_inv in Hfind.
      destruct Hfind as (d & _ & ->). cbn [snd].
      destruct Hu as (_ & Hloc & _). unfold location_assigned in Hloc.
      rewrite Ht in Hloc.
      destruct Hloc as (b & r & s & L & _ & _ & _ & Hc & _).
      unfold apply_set. cbn [coordinates]. rewrite Hc. cbn [assign_opt].
      f_equal. now apply head_match_coordinates in L.
Qed.

Lemma coordinates_are_placeholders_witness :
  Forall (fun d => coordinates (snd d) = Some {| lat := 0%Q; lon := 0%Q |})
         (weather_queries Sample.london_world).
Proof.
  exact (proj1 (proj2 (coordinates_are_placeholders (H := Sample.platform)
                         weatherService Sample.london_world
                         london_world_reachable))).
Defined.

(* ===================================================================== *)
(** ** Listing and pagination *)
(* ===================================================================== *)

Section Listing.

Context `{Platform}.

Lemma insert_newest_first_In d x l :
  In x (insert_newest_first d l) <-> x = d \/ In x l.
Proof.
  induction l as [|e l IH]; simpl.
  - intuition congruence.
  - destruct (createdAt (snd d) <=? createdAt (snd e)); simpl;
      rewrite ?IH; intuition congruence.
Qed.

Lemma insert_newest_first_length d l :
  List.length (insert_newest_first d l) = S (List.length l).
Proof.
  induction l as [|e l IH]; simpl; [reflexivity|].
  destruct (createdAt (snd d) <=? createdAt (snd e)); simpl; now rewrite ?IH.
Qed.

Lemma insert_newest_first_sorted d l :
  StronglySorted newer_or_equal l ->
  StronglySorted newer_or_equal (insert_newest_first d l).
Proof.
  induction 1 as [|e l Hl IH He]; simpl.
  - constructor; constructor.
  - destruct (createdAt (snd d) <=? createdAt (snd e)) eqn:E.
    + apply Z.leb_le in E. constructor; [exact IH|].
      apply Forall_forall. intros x Hx.
      apply insert_newest_first_In in Hx. destruct Hx as [-> | Hx].
      * exact E.
      * rewrite Forall_forall in He. now apply He.
    + apply Z.leb_gt in E. constructor; [now constructor|].
      constructor.
      * unfold newer_or_equal. lia.
      * apply Forall_forall. intros x Hx.
        rewrite Forall_forall in He. specialize (He x Hx).
        unfold newer_or_equal in *. lia.
Qed.

Lemma sort_newest_first_sorted l :
  StronglySorted newer_or_equal (sort_newest_first l).
Proof.
  unfold sort_newest_first. induction (rev l) as [|d r IH]; simpl.
  - constructor.
  - now apply insert_newest_first_sorted.
Qed.

Lemma sort_newest_first_length l :
  List.length (sort_newest_first l) = List.length l.
Proof.
  unfold sort_newest_first. rewrite <- (length_rev l).
  induction (rev l) as [|d r IH]; simpl; [reflexivity|].
  now rewrite insert_newest_first_length, IH.
Qed.

Lemma sort_newest_first_In x l : In x (sort_newest_first l) <-> In x l.
Proof.
  unfold sort_newest_first. rewrite (in_rev l).
  induction (rev l) as [|d r IH]; simpl; [tauto|].
  rewrite insert_newest_first_In, IH. intuition congruence.
Qed.

Lemma In_firstn {A} (x : A) n l : In x (firstn n l) -> In x l.
Proof.
  revert l. induction n as [|n IH]; intros l; simpl; [tauto|].
  destruct l; simpl; [tauto|]. intuition.
Qed.

Lemma In_skipn {A} (x : A) n l : In x (skipn n l) -> In x l.
Proof.
  revert l. induction n as [|n IH]; intros l; simpl; [tauto|].
  destruct l; simpl; [tauto|]. intuition.
Qed.

Lemma StronglySorted_skipn {A} (R : A -> A -> Prop) n l :
  StronglySorted R l -> StronglySorted R (skipn n l).
Proof.
  revert l. induction n as [|n IH]; intros l Hl; [exact Hl|].
  destruct l as [|a l]; [constructor|]. simpl. apply IH.
  now inversion Hl.
Qed.

Lemma StronglySorted_firstn {A} (R : A -> A -> Prop) n l :
  StronglySorted R l -> StronglySorted R (firstn n l).
Proof.
  revert l. induction n as [|n IH]; intros l Hl; [constructor|].
  destruct l as [|a l]; [constructor|]. simpl.
  inversion Hl as [|a' l' Hl' Ha]; subst. constructor; [now apply IH|].
  apply Forall_forall. intros x Hx. rewrite Forall_forall in Ha.
  apply Ha. now apply In_firstn in Hx.
Qed.

Lemma StronglySorted_map_with_id l :
  StronglySorted newer_or_equal l ->
  StronglySorted (fun a b : WithId WeatherQuery =>
                    createdAt (snd b) <= createdAt (snd a))
                 (map with_id l).
Proof.
  induction 1 as [|d l Hl IH Hd]; simpl; constructor; [exact IH|].
  apply Forall_map. exact Hd.
Qed.

(** [Math.ceil(n / l)] for a page size of at least 1. *)
Lemma ceil_div_positive (n l : Z) :
  1 <= l -> JS.ceil_div n l = JS.Fin ((n + l - 1) / l).
Proof.
  intros Hl. unfold JS.ceil_div.
  destruct (l =? 0) eqn:E; [apply Z.eqb_eq in E; lia|].
  f_equal. destruct l as [|p|p]; try lia.
  unfold Qceiling, Qfloor, Qopp, Qdiv, Qmult, Qinv. simpl.
  rewrite Z.mul_1_r.
  assert (Hp : 0 < Z.pos p) by lia.
  pose proof (Z.div_mod (- n) (Z.pos p) ltac:(lia)) as D1.
  pose proof (Z.mod_pos_bound (- n) (Z.pos p) Hp) as B1.
  apply Z.div_unique with (r := (Z.pos p - 1 - (- n) mod Z.pos p)).
  - left. lia.
  - lia.
Qed.

(** [listWeatherQueries] on a page that exists or lies past the end. *)
Lemma listWeatherQueries_run (filters : WeatherQueryFilters) (page limit : Z)
  (w : World) :
  0 <= (page - 1) * limit ->
  let found := filter (matches (build_query filters)) (weather_queries w) in
  listWeatherQueries filters page limit w
  = (Return
       {| data :=
            map with_id
              (cursor_limit limit
                 (skipn (Z.to_nat ((page - 1) * limit))
                        (sort_newest_first found)));
          totalCount := Z.of_nat (List.length found);
          page_ := page;
          limit_ := limit;
          totalPages := JS.ceil_div (Z.of_nat (List.length found)) limit |},
     w).
Proof.
  intros Hskip found. unfold listWeatherQueries.
  rewrite try_catch_run, bind_run.
  unfold Promise_all2, find_page, countDocuments.
  destruct ((page - 1) * limit <? 0) eqn:E; [apply Z.ltb_lt in E; lia|].
  reflexivity.
Qed.

End Listing.



(* ===================================================================== *)
(** ** The XML export *)
(* ===================================================================== *)

Section XmlExport.

Import ExportService XmlSpec.

Context `{Platform}.

Lemma string_app_assoc (a b c : string) : (a ++ b) ++ c = a ++ b ++ c.
Proof. induction a as [|x a IH]; simpl; [reflexivity | now rewrite IH]. Qed.

Lemma count_char_app (c : ascii) (a b : string) :
  count_char c (a ++ b) = (count_char c a + count_char c b)%nat.
Proof.
  induction a as [|x a IH]; simpl; [reflexivity|]. rewrite IH. lia.
Qed.

Lemma replacements_cons (a : ascii) (r : string) :
  replacements (String a r) = escape_char a ++ replacements r.
Proof.
  unfold replacements.
  destruct a as [[] [] [] [] [] [] [] []]; reflexivity.
Qed.

Lemma replacements_escape_each (s : string) :
  replacements s = escape_each s.
Proof.
  induction s as [|a r IH]; [reflexivity|].
  rewrite replacements_cons. simpl. now rewrite IH.
Qed.

Lemma escapeXML_escape_each (s : string) :
  escapeXML (Some s) = escape_each s.
Proof.
  destruct s as [|a r]; [reflexivity|].
  unfold escapeXML. cbn [JS.truthy JS.truthy_string negb JS.or_string].
  apply (replacements_escape_each (String a r)).
Qed.

Lemma escape_char_no_markup (c a : ascii) :
  markup_char c -> count_char c (escape_char a) = 0%nat.
Proof.
  intros [-> | [-> | [-> | ->]]];
    destruct a as [[] [] [] [] [] [] [] []]; reflexivity.
Qed.

Lemma escape_each_no_markup (c : ascii) (s : string) :
  markup_char c -> count_char c (escape_each s) = 0%nat.
Proof.
  intros Hc. induction s as [|a r IH]; [reflexivity|].
  simpl. now rewrite count_char_app, IH, escape_char_no_markup.
Qed.

Lemma escapeXML_no_markup (c : ascii) (s : string) :
  markup_char c -> count_char c (escapeXML (Some s)) = 0%nat.
Proof.
  intros Hc. rewrite escapeXML_escape_each. now apply escape_each_no_markup.
Qed.

Lemma occurs_app_r (part a s : string) : occurs part s -> occurs part (a ++ s).
Proof.
  intros (before & after & ->). exists (a ++ before), after.
  now rewrite string_app_assoc.
Qed.

Lemma occurs_app_l (part s b : string) : occurs part s -> occurs part (s ++ b).
Proof.
  intros (before & after & ->). exists before, (after ++ b).
  now rewrite !string_app_assoc.
Qed.

(** Finds an element on a line of the generated text: [indent] is the
    white space the line starts with. *)
Ltac find_element indent :=
  first
    [ solve [ exists indent; eexists; unfold text_element; simpl;
              rewrite ?string_app_assoc; reflexivity ]
    | apply occurs_app_r; find_element indent ].

(** Every text field of a query is written as an element with escaped
    content. *)
Lemma query_xml_elements (query : WithId WeatherQuery) :
  let q := snd query in
  occurs (text_element "location" (location q)) (query_xml query)
  /\ occurs (text_element "description" (wd_description (weatherData q)))
            (query_xml query)
  /\ occurs (text_element "userNotes" (JS.or_string (userNotes q) ""))
            (query_xml query)
  /\ occurs (text_element "tags" (join_or_empty ", " (tags q)))
            (query_xml query).
Proof.
  intros q. unfold query_xml. fold q. rewrite !escapeXML_escape_each.
  repeat split.
  - find_element "      ".
  - find_element "        ".
  - find_element "        ".
  - find_element "        ".
Qed.

(** Every text field of an insight is written as an element with escaped
    content. *)
Lemma insight_xml_elements (ins : WithId AIInsight) :
  let i := snd ins in
  occurs (text_element "location" (ai_location i)) (insight_xml ins)
  /\ occurs (text_element "insight" (insight i)) (insight_xml ins)
  /\ occurs (text_element "recommendations"
               (join_or_empty " | " (recommendations i)))
            (insight_xml ins)
  /\ occurs (text_element "weatherSummary" (weatherSummary i))
            (insight_xml ins)
  /\ occurs (text_element "travelAdvice" (JS.or_string (travelAdvice i) ""))
            (insight_xml ins)
  /\ occurs (text_element "clothingRecommendations"
               (join_or_empty " | " (clothingRecommendations i)))
            (insight_xml ins)
  /\ occurs (text_element "activitySuggestions"
               (join_or_empty " | " (activitySuggestions i)))
            (insight_xml ins)
  /\ occurs (text_element "model" (model i)) (insight_xml ins).
Proof.
  intros i. unfold insight_xml. fold i. rewrite !escapeXML_escape_each.
  repeat split.
  - find_element "      ".
  - find_element "      ".
  - find_element "      ".
  - find_element "      ".
  - find_element "      ".
  - find_element "      ".
  - find_element "      ".
  - find_element "        ".
Qed.

(** The text fields of a query bring no markup character into the
    generated text. *)
Lemma query_xml_markup (c : ascii) (query : WithId WeatherQuery) :
  markup_char c ->
  count_char c (query_xml query)
  = count_char c (query_xml (query_without_text query)).
Proof.
  intros Hc. unfold query_xml, query_without_text.
  cbn [fst snd location dateRange weatherData createdAt userNotes tags
       temperature wd_description wd_humidity wd_windSpeed feelsLike
       pressure visibility].
  rewrite !count_char_app, !(escapeXML_no_markup c _ Hc). reflexivity.
Qed.

Lemma insight_xml_markup (c : ascii) (ins : WithId AIInsight) :
  markup_char c ->
  count_char c (insight_xml ins)
  = count_char c (insight_xml (insight_without_text ins)).
Proof.
  intros Hc. unfold insight_xml, insight_without_text.
  cbn [fst snd queryId ai_location insight recommendations weatherSummary
       travelAdvice clothingRecommendations activitySuggestions generatedAt
       model].
  rewrite !count_char_app, !(escapeXML_no_markup c _ Hc). reflexivity.
Qed.

(** [xml += f(x)] for each [x] of a list. *)
Lemma fold_left_append {A} (f : A -> string) (l : list A) (acc : string) :
  fold_left (fun xml x => xml ++ f x) l acc
  = acc ++ String.concat "" (map f l) ++ ""
  /\ forall c,
       count_char c (fold_left (fun xml x => xml ++ f x) l acc)
       = (count_char c acc
          + list_sum (map (fun x => count_char c (f x)) l))%nat.
Proof.
  revert acc. induction l as [|x l IH]; intros acc.
  - simpl. split; [|intros c; lia].
    clear. induction acc as [|a acc IH]; simpl; [reflexivity | now f_equal].
  - simpl fold_left. destruct (IH (acc ++ f x)) as [E C]. split.
    + rewrite E, string_app_assoc. f_equal.
      destruct l as [|y l]; simpl; [reflexivity|].
      now rewrite string_app_assoc.
    + intros c. rewrite C, count_char_app. simpl. lia.
Qed.

Lemma occurs_fold_left {A} (f : A -> string) (part : string) (x : A)
  (l : list A) (acc : string) :
  In x l -> occurs part (f x) ->
  occurs part (fold_left (fun xml y => xml ++ f y) l acc).
Proof.
  revert acc. induction l as [|y l IH]; intros acc; [intros []|].
  intros [-> | Hin] Hp; simpl.
  - destruct (fold_left_append f l (acc ++ f x)) as [-> _].
    apply occurs_app_l, occurs_app_r. exact Hp.
  - now apply IH.
Qed.

Lemma occurs_fold_left_acc {A} (f : A -> string) (part : string)
  (l : list A) (acc : string) :
  occurs part acc ->
  occurs part (fold_left (fun xml y => xml ++ f y) l acc).
Proof.
  intros Hp. destruct (fold_left_append f l acc) as [-> _].
  now apply occurs_app_l.
Qed.

Lemma generateSimpleXML_run queries insights timestamp (w : World) :
  generateSimpleXML queries insights timestamp w
  = (Return (simple_xml queries insights (clock w 0%nat)), tick_clock w).
Proof.
  unfold generateSimpleXML, simple_xml. rewrite bind_run.
  unfold new_Date, ret. cbv beta iota zeta.
  now rewrite !string_app_assoc.
Qed.

Lemma simple_xml_query queries insights t part query :
  In query queries -> occurs part (query_xml query) ->
  occurs part (simple_xml queries insights t).
Proof.
  intros Hin Hp. unfold simple_xml.
  apply occurs_app_l, occurs_fold_left_acc, occurs_app_l, occurs_app_l.
  now apply occurs_fold_left with (x := query).
Qed.

Lemma simple_xml_insight queries insights t part ins :
  In ins insights -> occurs part (insight_xml ins) ->
  occurs part (simple_xml queries insights t).
Proof.
  intros Hin Hp. unfold simple_xml.
  apply occurs_app_l. now apply occurs_fold_left with (x := ins).
Qed.

Lemma count_fold_left {A} (c : ascii) (f : A -> string) (l : list A)
  (acc : string) :
  count_char c (fold_left (fun xml x => xml ++ f x) l acc)
  = (count_char c acc + list_sum (map (fun x => count_char c (f x)) l))%nat.
Proof. apply (proj2 (fold_left_append f l acc)). Qed.

Lemma simple_xml_markup (c : ascii) queries insights t :
  markup_char c ->
  count_char c (simple_xml queries insights t)
  = count_char c (simple_xml (map query_without_text queries)
                             (map insight_without_text insights) t).
Proof.
  intros Hc.
  assert (Hq : map (fun x => count_char c (query_xml x))
                   (map query_without_text queries)
               = map (fun x => count_char c (query_xml x)) queries).
  { rewrite map_map. apply map_ext. intros q.
    symmetry. now apply query_xml_markup. }
  assert (Hi : map (fun x => count_char c (insight_xml x))
                   (map insight_without_text insights)
               = map (fun x => count_char c (insight_xml x)) insights).
  { rewrite map_map. apply map_ext. intros i.
    symmetry. now apply insight_xml_markup. }
  unfold simple_xml.
  rewrite !count_char_app, !count_fold_left, !count_char_app,
    !count_fold_left, !count_char_app, !length_map, Hq, Hi.
  reflexivity.
Qed.

End XmlExport.

(** C9.  [escapeXML] replaces each of the five special characters by its
    entity and keeps every other character; a null or empty text gives
    the empty string; the escaped text has no <, >, double or single
    quote left.  The fallback generator, which [exportToXML] uses when
    the serializer throws, writes every text field of every query and
    insight as an element with escaped content, and the text fields add
    no markup character to its output. *)
Theorem xml_export_escapes_text `{Platform} :
  (forall s, ExportService.escapeXML (Some s) = XmlSpec.escape_each s)
  /\ (ExportService.ch_amp = "&"%char /\ ExportService.ch_lt = "<"%char
      /\ ExportService.ch_gt = ">"%char
      /\ ExportService.ch_quot = ascii_of_N 34
      /\ ExportService.ch_apos = "'"%char)
  /\ (XmlSpec.escape_char ExportService.ch_amp = "&amp;"
      /\ XmlSpec.escape_char ExportService.ch_lt = "&lt;"
      /\ XmlSpec.escape_char ExportService.ch_gt = "&gt;"
      /\ XmlSpec.escape_char ExportService.ch_quot = "&quot;"
      /\ XmlSpec.escape_char ExportService.ch_apos = "&apos;")
  /\ (forall a,
        a <> ExportService.ch_amp -> a <> ExportService.ch_lt ->
        a <> ExportService.ch_gt -> a <> ExportService.ch_quot ->
        a <> ExportService.ch_apos ->
        XmlSpec.escape_char a = String a EmptyString)
  /\ ExportService.escapeXML None = ""
  /\ ExportService.escapeXML (Some "") = ""
  /\ (forall c s,
        XmlSpec.markup_char c ->
        XmlSpec.count_char c (ExportService.escapeXML (Some s)) = 0%nat)
  /\ (forall queries insights timestamp w,
        js2xml queries insights (clock w 0%nat) = None ->
        exists xml,
          result_of (ExportService.generateSimpleXML queries insights
                       timestamp) (tick_clock w) = Return xml
          /\ result_of (ExportService.exportToXML queries insights timestamp)
                       w
             = Return
                 {| ExportService.file_data := xml;
                    ExportService.filename :=
                      "skycast_weather_data_" ++ timestamp ++ ".xml";
                    ExportService.mimeType := "application/xml" |})
  /\ (forall queries insights timestamp w,
        exists xml,
          result_of (ExportService.generateSimpleXML queries insights
                       timestamp) w = Return xml
          /\ (forall query,
                In query queries ->
                let q := snd query in
                XmlSpec.occurs
                  (XmlSpec.text_element "location" (location q)) xml
                /\ XmlSpec.occurs
                     (XmlSpec.text_element "description"
                        (wd_description (weatherData q))) xml
                /\ XmlSpec.occurs
                     (XmlSpec.text_element "userNotes"
                        (JS.or_string (userNotes q) "")) xml
                /\ XmlSpec.occurs
                     (XmlSpec.text_element "tags"
                        (ExportService.join_or_empty ", " (tags q))) xml)
          /\ (forall ins,
                In ins insights ->
                let i := snd ins in
                XmlSpec.occurs
                  (XmlSpec.text_element "location" (ai_location i)) xml
                /\ XmlSpec.occurs
                     (XmlSpec.text_element "insight" (insight i)) xml
                /\ XmlSpec.occurs
                     (XmlSpec.text_element "recommendations"
                        (ExportService.join_or_empty " | "
                           (recommendations i))) xml
                /\ XmlSpec.occurs
                     (XmlSpec.text_element "weatherSummary"
                        (weatherSummary i)) xml
                /\ XmlSpec.occurs
                     (XmlSpec.text_element "travelAdvice"
                        (JS.or_string (travelAdvice i) "")) xml
                /\ XmlSpec.occurs
                     (XmlSpec.text_element "clothingRecommendations"
                        (ExportService.join_or_empty " | "
                           (clothingRecommendations i))) xml
                /\ XmlSpec.occurs
                     (XmlSpec.text_element "activitySuggestions"
                        (ExportService.join_or_empty " | "
                           (activitySuggestions i))) xml
                /\ XmlSpec.occurs
                     (XmlSpec.text_element "model" (model i)) xml)
          /\ (forall c,
                XmlSpec.markup_char c ->
                XmlSpec.count_char c xml
                = XmlSpec.count_char c
                    (XmlSpec.simple_xml
                       (map XmlSpec.query_without_text queries)
                       (map XmlSpec.insight_without_text insights)
                       (clock w 0%nat)))).
Proof.
  split; [exact escapeXML_escape_each|].
  split; [repeat split|].
  split; [repeat split|].
  split.
  { intros a H1 H2 H3 H4 H5. unfold XmlSpec.escape_char.
    repeat match goal with
           | |- context [Ascii.eqb a ?c] =>
               destruct (Ascii.eqb_spec a c); [contradiction|]
           end.
    reflexivity. }
  split; [reflexivity|]. split; [reflexivity|].
  split; [intros c s; apply escapeXML_no_markup|].
  split.
  { intros queries insights timestamp w Hfail.
    exists (XmlSpec.simple_xml queries insights (clock w 1%nat)).
    unfold result_of. rewrite generateSimpleXML_run.
    split; [reflexivity|].
    unfold ExportService.exportToXML. rewrite bind_run.
    unfold new_Date at 1. cbv beta iota. rewrite Hfail.
    rewrite bind_run, generateSimpleXML_run. reflexivity. }
  intros queries insights timestamp w.
  exists (XmlSpec.simple_xml queries insights (clock w 0%nat)).
  unfold result_of. rewrite generateSimpleXML_run.
  split; [reflexivity|]. split; [|split].
  - intros query Hin.
    destruct (query_xml_elements query) as (E1 & E2 & E3 & E4).
    repeat split; now apply simple_xml_query with (query := query).
  - intros ins Hin.
    destruct (insight_xml_elements ins)
      as (E1 & E2 & E3 & E4 & E5 & E6 & E7 & E8).
    repeat split; now apply simple_xml_insight with (ins := ins).
  - intros c Hc. now apply simple_xml_markup.
Qed.

(* ===================================================================== *)
(** ** Normalized locations *)
(* ===================================================================== *)

Section NormalizedLocation.

Import Spacing.

Lemma lower_lower (a : ascii) : JS.lower (JS.lower a) = JS.lower a.
Proof. destruct a as [[] [] [] [] [] [] [] []]; reflexivity. Qed.

Lemma lower_space (a : ascii) : JS.is_space (JS.lower a) = JS.is_space a.
Proof. destruct a as [[] [] [] [] [] [] [] []]; reflexivity. Qed.

Lemma toLowerCase_idem (s : string) :
  JS.toLowerCase (JS.toLowerCase s) = JS.toLowerCase s.
Proof.
  induction s as [|a r IH]; simpl; [reflexivity|].
  now rewrite lower_lower, IH.
Qed.

Lemma toLowerCase_skip_spaces (s : string) :
  JS.toLowerCase (JS.skip_spaces s) = JS.skip_spaces (JS.toLowerCase s).
Proof.
  induction s as [|a r IH]; simpl; [reflexivity|].
  rewrite lower_space. destruct (JS.is_space a); [exact IH | reflexivity].
Qed.

Lemma toLowerCase_all_space (s : string) :
  JS.all_space (JS.toLowerCase s) = JS.all_space s.
Proof.
  induction s as [|a r IH]; simpl; [reflexivity|].
  now rewrite lower_space, IH.
Qed.

Lemma toLowerCase_trim_end (s : string) :
  JS.toLowerCase (JS.trim_end s) = JS.trim_end (JS.toLowerCase s).
Proof.
  induction s as [|a r IH]; [reflexivity|].
  change (JS.toLowerCase (String a r))
    with (String (JS.lower a) (JS.toLowerCase r)).
  cbn [JS.trim_end].
  change (JS.all_space (String (JS.lower a) (JS.toLowerCase r)))
    with (JS.is_space (JS.lower a) && JS.all_space (JS.toLowerCase r)).
  change (JS.all_space (String a r)) with (JS.is_space a && JS.all_space r).
  rewrite lower_space, toLowerCase_all_space.
  destruct (JS.is_space a && JS.all_space r); [reflexivity|].
  simpl. now rewrite IH.
Qed.

Lemma toLowerCase_collapse (b : bool) (s : string) :
  JS.toLowerCase (JS.collapse_spaces b s)
  = JS.collapse_spaces b (JS.toLowerCase s).
Proof.
  revert b. induction s as [|a r IH]; intros b; simpl; [reflexivity|].
  rewrite lower_space. destruct (JS.is_space a).
  - destruct b; simpl; now rewrite IH.
  - simpl. now rewrite IH.
Qed.

Lemma skip_spaces_starts_clean (s : string) :
  starts_clean (JS.skip_spaces s) = true.
Proof.
  induction s as [|a r IH]; simpl; [reflexivity|].
  destruct (JS.is_space a) eqn:E; [exact IH|]. simpl. now rewrite E.
Qed.

Lemma starts_clean_skip (s : string) :
  starts_clean s = true -> JS.skip_spaces s = s.
Proof.
  destruct s as [|a r]; simpl; [reflexivity|].
  now destruct (JS.is_space a).
Qed.

Lemma all_space_trim_end (s : string) :
  JS.all_space (JS.trim_end s) = JS.all_space s.
Proof.
  induction s as [|a r IH]; [reflexivity|].
  cbn [JS.trim_end].
  destruct (JS.all_space (String a r)) eqn:E; [reflexivity|].
  simpl in *. rewrite IH. exact E.
Qed.

Lemma trim_end_ends_clean (s : string) : ends_clean (JS.trim_end s) = true.
Proof.
  induction s as [|a r IH]; [reflexivity|].
  cbn [JS.trim_end].
  destruct (JS.all_space (String a r)) eqn:E; [reflexivity|].
  cbn [ends_clean]. rewrite IH, andb_true_r.
  simpl in *. now rewrite all_space_trim_end, E.
Qed.

Lemma ends_clean_trim_end (s : string) :
  ends_clean s = true -> JS.trim_end s = s.
Proof.
  induction s as [|a r IH]; [reflexivity|].
  cbn [ends_clean JS.trim_end]. intros E.
  apply andb_prop in E. destruct E as [E1 E2].
  apply negb_true_iff in E1. rewrite E1. now rewrite IH.
Qed.

Lemma trim_end_starts_clean (s : string) :
  starts_clean s = true -> starts_clean (JS.trim_end s) = true.
Proof.
  destruct s as [|a r]; [reflexivity|].
  cbn [JS.trim_end]. destruct (JS.all_space (String a r)); [reflexivity|].
  easy.
Qed.

(** After a run of white space, [collapse_spaces] starts with the next
    character that is not white space. *)
Lemma collapse_true_starts_clean (s : string) :
  starts_clean (JS.collapse_spaces true s) = true.
Proof.
  induction s as [|a r IH]; simpl; [reflexivity|].
  destruct (JS.is_space a) eqn:E; [exact IH|]. simpl. now rewrite E.
Qed.

Lemma collapse_true_nonempty (s : string) :
  JS.all_space s = false -> JS.collapse_spaces true s <> EmptyString.
Proof.
  induction s as [|a r IH]; simpl; [discriminate|].
  destruct (JS.is_space a); simpl; [exact IH | discriminate].
Qed.

Lemma collapse_single_spaced (b : bool) (s : string) :
  ends_clean s = true -> single_spaced (JS.collapse_spaces b s) = true.
Proof.
  revert b. induction s as [|a r IH]; intros b; [reflexivity|].
  cbn [ends_clean]. intros E. apply andb_prop in E. destruct E as [E1 E2].
  apply negb_true_iff in E1. simpl in E1. cbn [JS.collapse_spaces].
  destruct (JS.is_space a) eqn:Ea.
  - simpl in E1.
    assert (Hnext : single_spaced (String " " (JS.collapse_spaces true r))
                    = true).
    { cbn [single_spaced]. rewrite (IH true E2), andb_true_r.
      change (JS.is_space " ") with true. cbv iota.
      change (Ascii.eqb " " " ") with true. cbn [andb].
      pose proof (collapse_true_starts_clean r) as S.
      pose proof (collapse_true_nonempty r E1) as N.
      destruct (JS.collapse_spaces true r); [congruence | exact S]. }
    destruct b; [now apply IH | exact Hnext].
  - cbn [single_spaced]. rewrite Ea. now apply IH.
Qed.

Lemma collapse_ends_clean (b : bool) (s : string) :
  ends_clean s = true -> ends_clean (JS.collapse_spaces b s) = true.
Proof.
  revert b. induction s as [|a r IH]; intros b; [reflexivity|].
  cbn [ends_clean]. intros E. apply andb_prop in E. destruct E as [E1 E2].
  apply negb_true_iff in E1. simpl in E1. cbn [JS.collapse_spaces].
  assert (Hall : forall c, JS.all_space (JS.collapse_spaces c r)
                           = JS.all_space r).
  { clear. induction r as [|x r IH]; intros c; simpl; [reflexivity|].
    destruct (JS.is_space x) eqn:Ex.
    - destruct c; simpl; now rewrite IH.
    - simpl. now rewrite Ex. }
  destruct (JS.is_space a) eqn:Ea.
  - simpl in E1. destruct b; [now apply IH|].
    cbn [ends_clean]. rewrite (IH true E2), andb_true_r.
    simpl. now rewrite Hall, E1.
  - cbn [ends_clean]. rewrite (IH false E2), andb_true_r.
    simpl. now rewrite Ea.
Qed.

Lemma collapse_false_starts_clean (s : string) :
  starts_clean s = true -> starts_clean (JS.collapse_spaces false s) = true.
Proof.
  destruct s as [|a r]; simpl; [reflexivity|].
  destruct (JS.is_space a) eqn:E; [discriminate|]. simpl. now rewrite E.
Qed.

Lemma single_spaced_collapse (s : string) :
  single_spaced s = true -> JS.collapse_spaces false s = s.
Proof.
  induction s as [|a r IH]; [reflexivity|].
  cbn [single_spaced JS.collapse_spaces]. intros E.
  apply andb_prop in E. destruct E as [E1 E2].
  destruct (JS.is_space a) eqn:Ea.
  - apply andb_prop in E1. destruct E1 as [Esp Enext].
    apply Ascii.eqb_eq in Esp. subst a. f_equal.
    destruct r as [|b r']; [discriminate|].
    rewrite <- (IH E2) at 2. simpl.
    apply negb_true_iff in Enext. now rewrite Enext.
  - f_equal. now apply IH.
Qed.

End NormalizedLocation.

(** X1.  Normalizing a location twice gives what normalizing it once
    gives. *)
Theorem normalizeLocation_idempotent (location : string) :
  normalizeLocation (normalizeLocation location) = normalizeLocation location.
Proof.
  unfold normalizeLocation, JS.trim.
  set (t := JS.trim_end (JS.skip_spaces (JS.toLowerCase location))).
  assert (Hs : Spacing.starts_clean t = true).
  { apply trim_end_starts_clean, skip_spaces_starts_clean. }
  assert (He : Spacing.ends_clean t = true) by apply trim_end_ends_clean.
  assert (Hl : JS.toLowerCase t = t).
  { unfold t. now rewrite toLowerCase_trim_end, toLowerCase_skip_spaces,
      toLowerCase_idem. }
  rewrite toLowerCase_collapse, Hl.
  rewrite (starts_clean_skip _ (collapse_false_starts_clean _ Hs)).
  rewrite (ends_clean_trim_end _ (collapse_ends_clean false _ He)).
  apply single_spaced_collapse. now apply collapse_single_spaced.
Qed.

(** X2.  A normalized location has no upper-case ASCII letter, starts
    and ends with a character that is not white space, and its only
    white space is single spaces between other characters. *)
Theorem normalizeLocation_shape (location : string) :
  let n := normalizeLocation location in
  JS.toLowerCase n = n
  /\ Spacing.starts_clean n = true
  /\ Spacing.ends_clean n = true
  /\ Spacing.single_spaced n = true.
Proof.
  unfold normalizeLocation, JS.trim.
  set (t := JS.trim_end (JS.skip_spaces (JS.toLowerCase location))).
  assert (Hs : Spacing.starts_clean t = true).
  { apply trim_end_starts_clean, skip_spaces_starts_clean. }
  assert (He : Spacing.ends_clean t = true) by apply trim_end_ends_clean.
  assert (Hl : JS.toLowerCase t = t).
  { unfold t. now rewrite toLowerCase_trim_end, toLowerCase_skip_spaces,
      toLowerCase_idem. }
  cbv zeta. split; [now rewrite toLowerCase_collapse, Hl|].
  split; [now apply collapse_false_starts_clean|].
  split; [now apply collapse_ends_clean | now apply collapse_single_spaced].
Qed.

(* ===================================================================== *)
(** ** Reading back what was written *)
(* ===================================================================== *)

Section ReadBack.

Context `{Platform}.

Lemma getWeatherQuery_run (id : string) (w : World) :
  getWeatherQuery id w
  = (Return match ObjectId_parse id with
            | Some oid =>
                option_map with_id (Db.find_by_id oid (weather_queries w))
            | None => None
            end, w).
Proof.
  unfold getWeatherQuery. rewrite try_catch_run, bind_run.
  unfold new_ObjectId. destruct (ObjectId_parse id) as [oid|]; [|reflexivity].
  unfold ret at 1. cbv beta iota. rewrite bind_run.
  unfold Db.findOne. cbv beta iota.
  destruct (Db.find_by_id oid (weather_queries w)); reflexivity.
Qed.

Lemma getAIInsight_run (id : string) (w : World) :
  getAIInsight id w
  = (Return (option_map insight_with_id
               (find (fun d => String.eqb (queryId (snd d)) id)
                     (ai_insights w))), w).
Proof.
  unfold getAIInsight. rewrite try_catch_run, bind_run.
  unfold Db.findOne_insight. cbv beta iota.
  destruct (find _ (ai_insights w)); reflexivity.
Qed.

End ReadBack.

(** X3.  A query that [createWeatherQuery] returns can be read back:
    [getWeatherQuery] on its id gives the same record, which has the
    location and the date range of the request, its notes and tags or
    their defaults, provided the id string parses back to the ObjectId
    it was printed from. *)
Theorem createWeatherQuery_then_getWeatherQuery
  `{Platform} (this : WeatherService) (request : CreateWeatherQueryRequest)
  (w : World) (id : option string) (q : WeatherQuery) :
  result_of (createWeatherQuery this request) w = Return (id, q) ->
  ObjectId_parse (ObjectId_toString (new_oids w 0%nat))
  = Some (new_oids w 0%nat) ->
  let w' := world_after (createWeatherQuery this request) w in
  id = Some (ObjectId_toString (new_oids w 0%nat))
  /\ result_of (getWeatherQuery (ObjectId_toString (new_oids w 0%nat))) w'
     = Return (Some (id, q))
  /\ location q = cr_location request
  /\ dateRange q = cr_dateRange request
  /\ userNotes q = Some (JS.or_string (cr_userNotes request) "")
  /\ tags q = Some (JS.or_list (cr_tags request) []).
Proof.
  intros Hr Hcodec w'.
  pose proof (createWeatherQuery_outcome this request w) as O.
  fold w' in O. rewrite Hr in O.
  inversion O as [| | | | v w1 b r0 wd w0 E Ev L Wf Fresh doc Sq Si Sw].
  subst. split; [reflexivity|]. split; [|repeat split].
  unfold result_of. rewrite getWeatherQuery_run, Hcodec. cbn [fst].
  fold w'. rewrite Sq, (find_by_id_app_new _ _ _ Fresh). reflexivity.
Qed.

Lemma createWeatherQuery_then_getWeatherQuery_witness :
  result_of (getWeatherQuery (H := Sample.platform) Sample.london_id)
            Sample.london_world
  = Return (Some (Some Sample.london_id, Sample.london_document)).
Proof.
  destruct (createWeatherQuery_then_getWeatherQuery (H := Sample.platform)
              weatherService Sample.london_request Sample.empty_world
              (Some Sample.london_id) Sample.london_document)
    as (_ & G & _).
  - vm_compute. reflexivity.
  - vm_compute. reflexivity.
  - exact G.
Defined.

(** X4.  After [deleteWeatherQuery] on an id, [getAIInsight] on this id
    returns null, whatever the id: a malformed id or the id of no query
    makes the delete return false, and its insights are gone all the
    same. *)
Theorem deleteWeatherQuery_then_getAIInsight
  `{Platform} (id : string) (w : World) :
  let w' := world_after (deleteWeatherQuery id) w in
  result_of (getAIInsight id) w' = Return None
  /\ (forall i, In i (ai_insights w') <->
                In i (ai_insights w) /\ queryId (snd i) <> id)
  /\ (ObjectId_parse id = None ->
      result_of (deleteWeatherQuery id) w = Return false
      /\ weather_queries w' = weather_queries w).
Proof.
  intros w'.
  assert (Hi : ai_insights w' = insights_without id w).
  { unfold w', world_after. rewrite deleteWeatherQuery_run. cbv zeta.
    destruct (ObjectId_parse id) as [oid|]; [|reflexivity].
    destruct (Db.find_by_id oid (weather_queries w)); reflexivity. }
  assert (Hin : forall i, In i (ai_insights w') <->
                          In i (ai_insights w) /\ queryId (snd i) <> id).
  { intros i. rewrite Hi. unfold insights_without.
    rewrite filter_In, negb_true_iff.
    split; intros [Hin Hq]; (split; [exact Hin|]).
    - intros Heq. apply String.eqb_eq in Heq. congruence.
    - destruct (String.eqb (queryId (snd i)) id) eqn:Eq; [|reflexivity].
      apply String.eqb_eq in Eq. contradiction. }
  split; [|split; [exact Hin|]].
  - unfold result_of. rewrite getAIInsight_run. cbn [fst].
    destruct (find (fun d => String.eqb (queryId (snd d)) id)
                   (ai_insights w')) as [d|] eqn:F; [|reflexivity].
    apply find_some in F. destruct F as [F1 F2].
    apply Hin in F1. apply String.eqb_eq in F2. now destruct F1.
  - intros Hbad. unfold w', result_of, world_after.
    rewrite deleteWeatherQuery_run. cbv zeta. rewrite Hbad. now split.
Qed.

(** X5.  After a delete that returned true, [getWeatherQuery] on the
    same id returns null (ids being unique in the collection). *)
Theorem deleteWeatherQuery_then_getWeatherQuery
  `{Platform} (id : string) (w : World) :
  NoDup (map fst (weather_queries w)) ->
  result_of (deleteWeatherQuery id) w = Return true ->
  result_of (getWeatherQuery id)
            (world_after (deleteWeatherQuery id) w) = Return None.
Proof.
  intros Hnd. unfold result_of, world_after.
  rewrite deleteWeatherQuery_run. cbv zeta.
  destruct (ObjectId_parse id) as [oid|] eqn:Eoid; [|discriminate].
  destruct (Db.find_by_id oid (weather_queries w)); [|discriminate].
  intros _. cbn [snd]. rewrite getWeatherQuery_run, Eoid.
  cbn [fst weather_queries with_queries].
  now rewrite find_remove_one.
Qed.

Lemma deleteWeatherQuery_then_getWeatherQuery_witness :
  result_of (getWeatherQuery (H := Sample.platform) Sample.london_id)
            (world_after (deleteWeatherQuery (H := Sample.platform)
                            Sample.london_id) Sample.london_world)
  = Return None.
Proof.
  apply (deleteWeatherQuery_then_getWeatherQuery (H := Sample.platform)).
  - vm_compute. repeat constructor. intros [].
  - vm_compute. reflexivity.
Defined.

(** X6.  When [findOneAndUpdate] resolves to the bare document (no
    result metadata, as the pinned driver does), [updateWeatherQuery]
    never returns a record: whenever it returns, it returns null.  It
    does so also after it has updated an existing record, as
    [getWeatherQuery] then shows for an update of the notes. *)
Theorem updateWeatherQuery_returns_null_without_metadata
  `{Platform} (this : WeatherService) (id : string) (oid : ObjectId)
  (q : WeatherQuery) (notes : string) (w : World) :
  includeResultMetadata = false ->
  ObjectId_parse id = Some oid ->
  Db.find_by_id oid (weather_queries w) = Some (oid, q) ->
  (forall id0 updates w0 r,
      result_of (updateWeatherQuery this id0 updates) w0 = Return r ->
      r = None)
  /\ let updates := {| up_location := None; up_dateRange := None;
                       up_userNotes := Some notes; up_tags := None |} in
     result_of (updateWeatherQuery this id updates) w = Return None
     /\ exists q',
          result_of (getWeatherQuery id)
                    (world_after (updateWeatherQuery this id updates) w)
          = Return (Some (Some (ObjectId_toString oid), q'))
          /\ userNotes q' = Some notes
          /\ location q' = location q.
Proof.
  intros Hflag Eoid Efind. split.
  - intros id0 updates w0 r Hr.
    pose proof (updateWeatherQuery_outcome this id0 updates w0) as O.
    rewrite Hr in O.
    inversion O as [m w1 S | oid0 u w1 Eoid0 Hu Sq Si Sw Hans].
    unfold update_answer in Hans. rewrite Hflag in Hans.
    destruct (Db.find_by_id oid0 _); congruence.
  - cbv zeta.
    pose proof (updateWeatherQuery_notes_run this id oid notes w Eoid) as R.
    cbv zeta in R. unfold result_of, world_after. rewrite R.
    cbn [fst snd]. rewrite (find_update_one _ _ _ _ Efind).
    unfold update_answer. rewrite Hflag. split; [reflexivity|].
    rewrite getWeatherQuery_run, Eoid.
    cbn [fst weather_queries with_queries].
    rewrite (find_update_one _ _ _ _ Efind). cbn [fst snd option_map].
    eexists. split; [reflexivity|]. split; reflexivity.
Qed.

Lemma updateWeatherQuery_returns_null_without_metadata_witness :
  result_of (updateWeatherQuery (H := Sample.platform) weatherService
               Sample.london_id
               {| up_location := None; up_dateRange := None;
                  up_userNotes := Some "sunny after all"; up_tags := None |})
            Sample.london_world = Return None.
Proof.
  destruct (updateWeatherQuery_returns_null_without_metadata
              (H := Sample.platform) weatherService Sample.london_id 1%N
              Sample.london_document "sunny after all" Sample.london_world)
    as (_ & R & _).
  - reflexivity.
  - vm_compute. reflexivity.
  - vm_compute. reflexivity.
  - exact R.
Defined.

(* ===================================================================== *)
(** ** Coordinates in a location *)
(* ===================================================================== *)

Section Coordinates.

Import WeatherApi.

Lemma str_app_assoc (a b c : string) : (a ++ b) ++ c = a ++ b ++ c.
Proof. induction a as [|x a IH]; simpl; [reflexivity | now rewrite IH]. Qed.

Lemma str_app_nil_r (a : string) : a ++ "" = a.
Proof. induction a as [|x a IH]; simpl; [reflexivity | now rewrite IH]. Qed.

Lemma take_skip_digits (s : string) :
  s = take_digits s ++ skip_digits s /\ all_digits (take_digits s) = true.
Proof.
  induction s as [|a r [IH1 IH2]]; [now split|].
  cbn [take_digits skip_digits].
  destruct (JS.is_digit a) eqn:E; [|now split].
  cbn [append all_digits]. rewrite E, IH2.
  split; [now rewrite <- IH1 | reflexivity].
Qed.

Lemma skip_digits_app (ds rest : string) :
  all_digits ds = true -> no_digit_first rest = true ->
  skip_digits (ds ++ rest) = rest.
Proof.
  intros Hd Hr. induction ds as [|a ds IH]; cbn [append].
  - destruct rest as [|b r]; [reflexivity|]. cbn [no_digit_first] in Hr.
    apply negb_true_iff in Hr. cbn [skip_digits]. now rewrite Hr.
  - cbn [all_digits] in Hd. apply andb_prop in Hd. destruct Hd as [Ha Hd].
    cbn [skip_digits]. rewrite Ha. now apply IH.
Qed.

Lemma all_digits_app (a b : string) :
  all_digits (a ++ b) = all_digits a && all_digits b.
Proof.
  induction a as [|x a IH]; [reflexivity|].
  cbn [append all_digits]. now rewrite IH, andb_assoc.
Qed.

Lemma match_number_digit (d : ascii) (r : string) :
  JS.is_digit d = true ->
  match_number (String d r)
  = Some (skip_digits (skip_char "." (skip_digits r))).
Proof.
  intros Hd. unfold match_number. cbn [skip_char].
  destruct (Ascii.eqb_spec d "-") as [-> | _]; [discriminate Hd|].
  now rewrite Hd.
Qed.

Lemma match_number_minus (s : string) :
  match_number (String "-" s)
  = match s with
    | String d r =>
        if JS.is_digit d
        then Some (skip_digits (skip_char "." (skip_digits r)))
        else None
    | EmptyString => None
    end.
Proof. reflexivity. Qed.

Lemma skip_digits_fixed (s : string) :
  skip_digits (skip_digits s) = skip_digits s.
Proof.
  induction s as [|a r IH]; [reflexivity|].
  cbn [skip_digits]. destruct (JS.is_digit a) eqn:E; [exact IH|].
  cbn [skip_digits]. now rewrite E.
Qed.

Lemma match_number_complete (s rest : string) :
  number_text s -> end_or_comma rest -> match_number (s ++ rest) = Some rest.
Proof.
  intros (sign & whole & point & fraction & -> & Hsign & Hne & Hw & Hp & Hf)
         Hrest.
  assert (Hnd : no_digit_first rest = true).
  { destruct Hrest as [-> | [r ->]]; reflexivity. }
  destruct whole as [|d whole]; [congruence|]. cbn [all_digits] in Hw.
  apply andb_prop in Hw. destruct Hw as [Hd Hw].
  assert (Hbody :
    skip_digits (skip_char "." (skip_digits
                                  (whole ++ point ++ fraction ++ rest)))
    = rest).
  { destruct Hp as [-> | ->].
    - cbn [append]. rewrite <- str_app_assoc.
      rewrite skip_digits_app;
        [| now rewrite all_digits_app, Hw, Hf | exact Hnd].
      destruct Hrest as [-> | [r ->]]; reflexivity.
    - rewrite skip_digits_app; [| exact Hw | reflexivity].
      cbn [append skip_char]. change (Ascii.eqb "." ".") with true.
      cbv iota. now apply skip_digits_app. }
  rewrite !str_app_assoc.
  destruct Hsign as [-> | ->]; cbn [append].
  - rewrite match_number_digit by exact Hd. now rewrite Hbody.
  - rewrite match_number_minus, Hd. now rewrite Hbody.
Qed.

Lemma number_after_digit (d : ascii) (r : string) :
  JS.is_digit d = true ->
  exists whole point fraction,
    String d r
    = whole ++ point ++ fraction
      ++ skip_digits (skip_char "." (skip_digits r))
    /\ whole <> "" /\ all_digits whole = true
    /\ (point = "" \/ point = ".")
    /\ all_digits fraction = true.
Proof.
  intros Hd.
  destruct (take_skip_digits r) as [E1 D1].
  assert (Hw : all_digits (String d (take_digits r)) = true).
  { cbn [all_digits]. now rewrite Hd, D1. }
  remember (take_digits r) as whole eqn:Ew. clear Ew.
  destruct (skip_digits r) as [|c r'] eqn:Es.
  - exists (String d whole), "", "".
    cbn [append skip_char skip_digits].
    repeat split; try discriminate; [now rewrite E1 | exact Hw | now left].
  - cbn [skip_char]. destruct (Ascii.eqb_spec c ".") as [-> | Hc].
    + destruct (take_skip_digits r') as [E2 D2].
      exists (String d whole), ".", (take_digits r').
      cbn [append]. rewrite <- E2.
      repeat split; try discriminate; try assumption; [now rewrite E1 | now right].
    + exists (String d whole), "", "".
      rewrite <- Es, skip_digits_fixed, Es. cbn [append].
      repeat split; try discriminate; [now rewrite E1 | exact Hw | now left].
Qed.

Lemma match_number_sound (s rest : string) :
  match_number s = Some rest ->
  exists n, s = n ++ rest /\ number_text n.
Proof.
  destruct s as [|a s]; [discriminate|].
  destruct (Ascii.eqb_spec a "-") as [-> | Hminus].
  - rewrite match_number_minus.
    destruct s as [|d r]; [discriminate|].
    destruct (JS.is_digit d) eqn:Hd; [|discriminate].
    intros [= <-].
    destruct (number_after_digit d r Hd)
      as (whole & point & fraction & E & H1 & H2 & H3 & H4).
    exists ("-" ++ whole ++ point ++ fraction). split.
    + cbn [append]. f_equal. rewrite E. now rewrite !str_app_assoc.
    + exists "-", whole, point, fraction. repeat split; auto.
  - destruct (JS.is_digit a) eqn:Hd.
    + rewrite match_number_digit by exact Hd. intros [= <-].
      destruct (number_after_digit a s Hd)
        as (whole & point & fraction & E & H1 & H2 & H3 & H4).
      exists (whole ++ point ++ fraction). split.
      * rewrite E. now rewrite !str_app_assoc.
      * exists "", whole, point, fraction. repeat split; auto.
    + unfold match_number. cbn [skip_char].
      destruct (Ascii.eqb_spec a "-") as [-> | _]; [now contradiction Hminus|].
      now rewrite Hd.
Qed.

Lemma coordPattern_test_iff (s : string) :
  coordPattern_test s = true <-> coordinates_text s.
Proof.
  unfold coordPattern_test. split.
  - destruct (match_number s) as [[|c r]|] eqn:E1; try discriminate.
    destruct (Ascii.eqb_spec c ",") as [-> | Hc].
    + destruct (match_number r) as [[|c' r']|] eqn:E2; try discriminate.
      intros _.
      apply match_number_sound in E1. destruct E1 as (a & -> & Ha).
      apply match_number_sound in E2. destruct E2 as (b & -> & Hb).
      exists a, b. rewrite str_app_nil_r. now repeat split.
    + intros Habs. exfalso. revert Habs.
      destruct c as [[] [] [] [] [] [] [] []]; try discriminate.
      now contradiction Hc.
  - intros (a & b & -> & Ha & Hb).
    rewrite (match_number_complete a ("," ++ b) Ha)
      by (right; now exists b).
    cbn [append].
    rewrite <- (str_app_nil_r b) at 1.
    now rewrite (match_number_complete b "" Hb) by now left.
Qed.

Lemma split_on_not_nil (c : ascii) (s : string) : split_on c s <> [].
Proof.
  destruct s as [|a r]; cbn [split_on]; [discriminate|].
  destruct (Ascii.eqb a c); [discriminate|].
  destruct (split_on c r); discriminate.
Qed.

Lemma split_on_cons (c a : ascii) (r : string) :
  split_on c (String a r)
  = if Ascii.eqb a c then "" :: split_on c r
    else String a (hd "" (split_on c r)) :: tl (split_on c r).
Proof.
  cbn [split_on]. destruct (Ascii.eqb a c); [reflexivity|].
  pose proof (split_on_not_nil c r) as Hn.
  destruct (split_on c r); [now contradiction Hn | reflexivity].
Qed.

Lemma split_on_remove_spaces (c : ascii) (s : string) :
  JS.is_space c = false ->
  split_on c (remove_spaces s) = map remove_spaces (split_on c s).
Proof.
  intros Hc. induction s as [|a r IH]; [reflexivity|].
  rewrite split_on_cons. cbn [remove_spaces].
  destruct (Ascii.eqb_spec a c) as [-> | Hac].
  - rewrite Hc, split_on_cons, Ascii.eqb_refl, IH. reflexivity.
  - pose proof (split_on_not_nil c r) as Hn.
    destruct (JS.is_space a) eqn:Ha.
    + rewrite IH. destruct (split_on c r) as [|x l]; [now contradiction Hn|].
      cbn [map hd tl remove_spaces]. now rewrite Ha.
    + rewrite split_on_cons.
      destruct (Ascii.eqb_spec a c) as [-> | _]; [now contradiction Hac|].
      rewrite IH. destruct (split_on c r) as [|x l]; [now contradiction Hn|].
      cbn [map hd tl remove_spaces]. now rewrite Ha.
Qed.

Lemma split_on_without (c : ascii) (s : string) :
  string_forall (fun a => negb (Ascii.eqb a c)) s = true ->
  split_on c s = [s].
Proof.
  induction s as [|a r IH]; [reflexivity|].
  cbn [string_forall]. intros H. apply andb_prop in H. destruct H as [Ha Hr].
  rewrite split_on_cons. apply negb_true_iff in Ha. rewrite Ha.
  now rewrite (IH Hr).
Qed.

Lemma split_on_app (c : ascii) (a b : string) :
  string_forall (fun x => negb (Ascii.eqb x c)) a = true ->
  split_on c (a ++ String c b) = a :: split_on c b.
Proof.
  induction a as [|x a IH]; cbn [append].
  - intros _. now rewrite split_on_cons, Ascii.eqb_refl.
  - cbn [string_forall]. intros H. apply andb_prop in H.
    destruct H as [Hx Ha]. apply negb_true_iff in Hx.
    now rewrite split_on_cons, Hx, (IH Ha).
Qed.

Lemma string_forall_app (p : ascii -> bool) (a b : string) :
  string_forall p (a ++ b) = string_forall p a && string_forall p b.
Proof.
  induction a as [|x a IH]; [reflexivity|].
  cbn [append string_forall]. now rewrite IH, andb_assoc.
Qed.

Lemma all_digits_not_comma (s : string) :
  all_digits s = true -> string_forall not_comma s = true.
Proof.
  induction s as [|a r IH]; [reflexivity|].
  cbn [all_digits string_forall]. intros H. apply andb_prop in H.
  destruct H as [Ha Hr]. rewrite (IH Hr), andb_true_r.
  destruct a as [[] [] [] [] [] [] [] []]; try discriminate Ha; reflexivity.
Qed.

Lemma number_text_not_comma (s : string) :
  number_text s -> string_forall not_comma s = true.
Proof.
  intros (sign & whole & point & fraction & -> & Hs & _ & Hw & Hp & Hf).
  rewrite !string_forall_app.
  rewrite (all_digits_not_comma _ Hw), (all_digits_not_comma _ Hf).
  destruct Hs as [-> | ->], Hp as [-> | ->]; reflexivity.
Qed.

Lemma remove_spaces_skip_spaces (s : string) :
  remove_spaces (JS.skip_spaces s) = remove_spaces s.
Proof.
  induction s as [|a r IH]; [reflexivity|].
  cbn [JS.skip_spaces remove_spaces].
  destruct (JS.is_space a) eqn:E; [exact IH|].
  cbn [remove_spaces]. now rewrite E.
Qed.

Lemma remove_spaces_all_space (s : string) :
  JS.all_space s = true -> remove_spaces s = "".
Proof.
  induction s as [|a r IH]; [reflexivity|].
  cbn [JS.all_space remove_spaces]. intros H. apply andb_prop in H.
  destruct H as [Ha Hr]. now rewrite Ha, (IH Hr).
Qed.

Lemma remove_spaces_trim_end (s : string) :
  remove_spaces (JS.trim_end s) = remove_spaces s.
Proof.
  induction s as [|a r IH]; [reflexivity|].
  cbn [JS.trim_end].
  destruct (JS.all_space (String a r)) eqn:E.
  - now rewrite (remove_spaces_all_space _ E).
  - cbn [remove_spaces]. now rewrite IH.
Qed.

Lemma remove_spaces_trim (s : string) :
  remove_spaces (JS.trim s) = remove_spaces s.
Proof.
  unfold JS.trim. now rewrite remove_spaces_trim_end, remove_spaces_skip_spaces.
Qed.

End Coordinates.




(* ===================================================================== *)
(** ** The days of a forecast *)
(* ===================================================================== *)

Section ForecastDays.

Import WeatherApi.

Variable timezone_offset : Z -> Z.
Variable Number_mul : number -> number -> number.

Local Abbreviation label := (WeatherApi.label timezone_offset).
Local Abbreviation on_day := (WeatherApi.on_day timezone_offset).
Local Abbreviation opening := (WeatherApi.opening timezone_offset).
Local Abbreviation readings := (WeatherApi.readings timezone_offset).
Local Abbreviation day_of := (WeatherApi.day_of timezone_offset Number_mul).
Local Abbreviation add_entry := (WeatherApi.add_entry timezone_offset Number_mul).
Local Abbreviation forEach := (WeatherApi.forEach timezone_offset Number_mul).
Local Abbreviation grouped := (WeatherApi.grouped timezone_offset Number_mul).

Lemma forEach_snoc (items : list RawForecastEntry) (x : RawForecastEntry)
  (days : list DailyForecast) :
  forEach (items ++ [x])%list days
  = match forEach items days with
    | Return days' => add_entry days' x
    | Throw m => Throw m
    end.
Proof.
  revert days. induction items as [|i items IH]; intros days; cbn [app].
  - cbn [WeatherApi.forEach]. now destruct (add_entry days x).
  - cbn [WeatherApi.forEach]. destruct (add_entry days i); [apply IH | easy].
Qed.

Lemma find_snoc {A} (p : A -> bool) (l : list A) (x : A) :
  find p (l ++ [x])%list
  = match find p l with
    | Some y => Some y
    | None => if p x then Some x else None
    end.
Proof.
  induction l as [|a l IH]; cbn [app find]; [reflexivity|].
  now destruct (p a).
Qed.

Lemma filter_snoc {A} (p : A -> bool) (l : list A) (x : A) :
  filter p (l ++ [x])%list
  = (filter p l ++ (if p x then [x] else []))%list.
Proof.
  induction l as [|a l IH]; cbn [app filter]; [reflexivity|].
  destruct (p a); cbn [app]; now rewrite IH.
Qed.

Lemma In_distinct (l : list string) (y : string) :
  In y (distinct l) <-> In y l.
Proof.
  induction l as [|x l IH]; [reflexivity|]. cbn [distinct In].
  rewrite filter_In, IH, negb_true_iff.
  destruct (String.eqb_spec y x) as [-> | Hn]; intuition congruence.
Qed.

Lemma NoDup_filter {A} (p : A -> bool) (l : list A) :
  NoDup l -> NoDup (filter p l).
Proof.
  induction 1 as [|x l Hin Hnd IH]; cbn [filter]; [constructor|].
  destruct (p x); [|exact IH]. constructor; [|exact IH].
  rewrite filter_In. tauto.
Qed.

Lemma NoDup_distinct (l : list string) : NoDup (distinct l).
Proof.
  induction l as [|x l IH]; cbn [distinct]; constructor.
  - rewrite filter_In, String.eqb_refl. intros [_ H]. discriminate H.
  - now apply NoDup_filter.
Qed.

Lemma filter_all {A} (p : A -> bool) (l : list A) :
  (forall x, In x l -> p x = true) -> filter p l = l.
Proof.
  induction l as [|a l IH]; intros H; cbn [filter]; [reflexivity|].
  rewrite (H a (or_introl eq_refl)). f_equal. apply IH.
  intros x Hx. apply H. now right.
Qed.

Lemma distinct_snoc (l : list string) (x : string) :
  distinct (l ++ [x])%list
  = if existsb (String.eqb x) l then distinct l
    else (distinct l ++ [x])%list.
Proof.
  induction l as [|a l IH]; [reflexivity|].
  cbn [app distinct existsb]. rewrite IH.
  destruct (String.eqb_spec x a) as [-> | Hn]; cbn [orb].
  - destruct (existsb (String.eqb a) l); [reflexivity|].
    rewrite filter_app. cbn [filter]. rewrite String.eqb_refl. cbn [negb].
    now rewrite app_nil_r.
  - destruct (existsb (String.eqb x) l); [reflexivity|].
    rewrite filter_app. cbn [filter].
    destruct (String.eqb_spec x a) as [E | _]; [now contradiction Hn|].
    reflexivity.
Qed.

Lemma existsb_eqb_In (x : string) (l : list string) :
  existsb (String.eqb x) l = true <-> In x l.
Proof.
  rewrite existsb_exists. split.
  - intros (y & Hy & E). apply String.eqb_eq in E. now subst.
  - intros Hx. exists x. now rewrite String.eqb_refl.
Qed.

Lemma day_of_date (date : string) (items : list RawForecastEntry)
  (day : DailyForecast) :
  day_of date items = Some day -> df_date day = date.
Proof.
  unfold WeatherApi.day_of. destruct (opening date items) as [i|]; [|easy].
  destruct (weather i); [easy|]. now intros [= <-].
Qed.

Lemma grouped_dates (items : list RawForecastEntry)
  (days : list DailyForecast) :
  grouped items days -> map df_date days = distinct (map label items).
Proof.
  unfold WeatherApi.grouped. induction 1 as [|date day dates days H _ IH];
    [reflexivity|].
  cbn [map]. now rewrite IH, (day_of_date _ _ _ H).
Qed.

Lemma lookup_Some (date : string) (days : list DailyForecast) :
  In date (map df_date days) ->
  exists day, lookup date days = Some day.
Proof.
  unfold lookup. induction days as [|d days IH]; [easy|].
  cbn [map In find]. destruct (String.eqb_spec (df_date d) date) as [E | Hn].
  - intros _. now exists d.
  - intros [E | Hin]; [now contradiction Hn | now apply IH].
Qed.

Lemma lookup_None (date : string) (days : list DailyForecast) :
  lookup date days = None -> ~ In date (map df_date days).
Proof.
  intros Hl Hin. apply lookup_Some in Hin. destruct Hin as [day E].
  congruence.
Qed.

Lemma opening_None (date : string) (items : list RawForecastEntry) :
  ~ In date (map label items) ->
  opening date items = None /\ readings date items = [].
Proof.
  unfold WeatherApi.opening, WeatherApi.readings.
  induction items as [|i items IH]; [easy|].
  cbn [map In find filter]. intros Hn.
  unfold WeatherApi.on_day at 1 3.
  destruct (String.eqb_spec (label i) date) as [E | _];
    [exfalso; apply Hn; now left|].
  apply IH. intros Hin. apply Hn. now right.
Qed.

Lemma opening_In (date : string) (items : list RawForecastEntry)
  (item : RawForecastEntry) :
  opening date items = Some item -> In item items /\ label item = date.
Proof.
  intros Hf. apply find_some in Hf. destruct Hf as [Hin Hd].
  split; [exact Hin|]. now apply String.eqb_eq in Hd.
Qed.

Lemma readings_snoc (date : string) (items : list RawForecastEntry)
  (x : RawForecastEntry) :
  readings date (items ++ [x])%list
  = (readings date items
     ++ (if on_day date x then [main_temp_min x; main_temp_max x] else []))%list.
Proof.
  unfold WeatherApi.readings. rewrite filter_snoc, flat_map_app.
  destruct (on_day date x); cbn [flat_map app]; reflexivity.
Qed.

Lemma day_of_snoc (date : string) (items : list RawForecastEntry)
  (x : RawForecastEntry) (day : DailyForecast) :
  day_of date items = Some day ->
  day_of date (items ++ [x])%list
  = Some (if String.eqb (df_date day) (label x)
          then {| df_date := df_date day;
                  temperatures :=
                    (temperatures day
                     ++ [main_temp_min x; main_temp_max x])%list;
                  df_description := df_description day;
                  df_icon := df_icon day;
                  df_humidity := df_humidity day;
                  df_windSpeed := df_windSpeed day;
                  df_pop := df_pop day |}
          else day).
Proof.
  unfold WeatherApi.day_of, WeatherApi.opening.
  rewrite find_snoc, readings_snoc.
  destruct (find (on_day date) items) as [i|]; [|easy].
  destruct (weather i) as [|w0 ws]; [easy|]. intros [= <-].
  cbn [df_date temperatures df_description df_icon df_humidity
       df_windSpeed df_pop].
  unfold WeatherApi.on_day. rewrite (String.eqb_sym date).
  destruct (String.eqb (label x) date); [reflexivity|].
  now rewrite app_nil_r.
Qed.

Lemma add_entry_grouped (items : list RawForecastEntry)
  (x : RawForecastEntry) (days days' : list DailyForecast) :
  grouped items days ->
  add_entry days x = Return days' ->
  grouped (items ++ [x])%list days'.
Proof.
  intros G. pose proof (grouped_dates _ _ G) as Hd.
  unfold WeatherApi.add_entry. fold (label x).
  unfold WeatherApi.grouped. rewrite map_app. cbn [map]. rewrite distinct_snoc.
  destruct (lookup (label x) days) as [found|] eqn:El.
  - intros [= <-].
    assert (Hin : In (label x) (map label items)).
    { apply In_distinct. rewrite <- Hd. unfold lookup in El.
      apply find_some in El. destruct El as [Hf E].
      apply String.eqb_eq in E. rewrite <- E. now apply in_map. }
    apply existsb_eqb_In in Hin. rewrite Hin.
    unfold push_temperatures. unfold WeatherApi.grouped in G.
    clear Hd El Hin.
    induction G as [|date day dates days H _ IH]; [constructor|].
    cbn [map]. constructor.
    + now apply day_of_snoc.
    + apply IH.
  - apply lookup_None in El. rewrite Hd, In_distinct in El.
    destruct (weather x) as [|w0 ws] eqn:Ew; [easy|]. intros [= <-].
    destruct (existsb (String.eqb (label x)) (map label items)) eqn:Ex;
      [apply existsb_eqb_In in Ex; now contradiction El|].
    apply Forall2_app.
    + unfold WeatherApi.grouped in G.
      assert (Hall : Forall (fun date => In date (map label items))
                            (distinct (map label items))).
      { apply Forall_forall. intros d. now rewrite In_distinct. }
      clear Hd. induction G as [|date day dates days H _ IH];
        [constructor|].
      inversion Hall as [|? ? Hdate Hall']; subst.
      constructor; [|now apply IH].
      rewrite (day_of_snoc _ _ x _ H), (day_of_date _ _ _ H).
      destruct (String.eqb_spec date (label x)) as [-> | _];
        [now contradiction El | reflexivity].
    + constructor; [|constructor].
      destruct (opening_None _ _ El) as [Ho Hr].
      unfold WeatherApi.day_of, WeatherApi.opening.
      rewrite find_snoc, readings_snoc.
      unfold WeatherApi.opening in Ho. rewrite Ho, Hr.
      unfold WeatherApi.on_day. rewrite String.eqb_refl, Ew. reflexivity.
Qed.

Lemma forEach_grouped (items : list RawForecastEntry)
  (days : list DailyForecast) :
  forEach items [] = Return days -> grouped items days.
Proof.
  revert days. induction items as [|x items IH] using rev_ind; intros days.
  - intros [= <-]. constructor.
  - rewrite forEach_snoc.
    destruct (forEach items []) as [days0|m]; [|easy].
    now apply add_entry_grouped, IH.
Qed.

Lemma grouped_In (items : list RawForecastEntry)
  (days : list DailyForecast) (day : DailyForecast) :
  grouped items days -> In day days ->
  day_of (df_date day) items = Some day.
Proof.
  unfold WeatherApi.grouped. induction 1 as [|date d dates days H _ IH]; [easy|].
  intros [<- | Hin]; [|now apply IH].
  now rewrite (day_of_date _ _ _ H).
Qed.

Lemma day_of_readings (date : string) (items : list RawForecastEntry)
  (day : DailyForecast) :
  day_of date items = Some day ->
  temperatures day = readings date items /\ readings date items <> [].
Proof.
  unfold WeatherApi.day_of.
  destruct (opening date items) as [i|] eqn:Eo; [|easy].
  destruct (weather i); [easy|]. intros [= <-]. split; [reflexivity|].
  unfold WeatherApi.readings.
  apply find_some in Eo. destruct Eo as [Hi Hon].
  apply in_split in Hi. destruct Hi as (l1 & l2 & ->).
  rewrite filter_app. cbn [filter]. rewrite Hon.
  rewrite flat_map_app. cbn [flat_map app].
  intros E. apply app_eq_nil in E. destruct E as [_ E]. discriminate E.
Qed.

(** [temperatures] is never empty. *)
Lemma forEach_temperatures (items : list RawForecastEntry)
  (days : list DailyForecast) (day : DailyForecast) :
  forEach items [] = Return days -> In day days -> temperatures day <> [].
Proof.
  intros Hf Hin. apply forEach_grouped in Hf.
  destruct (day_of_readings _ _ _ (grouped_In _ _ _ Hf Hin)) as [-> Hne].
  exact Hne.
Qed.

Lemma min2_spec (a b : number) :
  (min2 a b = a \/ min2 a b = b) /\ (min2 a b <= a)%Q /\ (min2 a b <= b)%Q.
Proof.
  unfold min2. destruct (Qle_bool a b) eqn:E.
  - apply Qle_bool_iff in E. repeat split; auto using Qle_refl.
  - assert (~ (a <= b)%Q) as Hn
      by (intros H; apply Qle_bool_iff in H; congruence).
    apply Qnot_le_lt, Qlt_le_weak in Hn. repeat split; auto using Qle_refl.
Qed.

Lemma max2_spec (a b : number) :
  (max2 a b = a \/ max2 a b = b) /\ (a <= max2 a b)%Q /\ (b <= max2 a b)%Q.
Proof.
  unfold max2. destruct (Qle_bool a b) eqn:E.
  - apply Qle_bool_iff in E. repeat split; auto using Qle_refl.
  - assert (~ (a <= b)%Q) as Hn
      by (intros H; apply Qle_bool_iff in H; congruence).
    apply Qnot_le_lt, Qlt_le_weak in Hn. repeat split; auto using Qle_refl.
Qed.

Lemma fold_min2 (r : list number) (x : number) :
  In (fold_left min2 r x) (x :: r)
  /\ forall y, In y (x :: r) -> (fold_left min2 r x <= y)%Q.
Proof.
  revert x. induction r as [|a r IH]; intros x; cbn [fold_left].
  - split; [now left|]. intros y [<- | []]. apply Qle_refl.
  - destruct (IH (min2 x a)) as [Hin Hle].
    destruct (min2_spec x a) as (Hor & Hx & Ha). split.
    + destruct Hin as [E | Hin]; [|now right; right].
      rewrite <- E. destruct Hor as [-> | ->]; [now left | now right; left].
    + intros y [<- | [<- | Hy]].
      * eapply Qle_trans; [apply Hle; now left | exact Hx].
      * eapply Qle_trans; [apply Hle; now left | exact Ha].
      * apply Hle. now right.
Qed.

Lemma fold_max2 (r : list number) (x : number) :
  In (fold_left max2 r x) (x :: r)
  /\ forall y, In y (x :: r) -> (y <= fold_left max2 r x)%Q.
Proof.
  revert x. induction r as [|a r IH]; intros x; cbn [fold_left].
  - split; [now left|]. intros y [<- | []]. apply Qle_refl.
  - destruct (IH (max2 x a)) as [Hin Hle].
    destruct (max2_spec x a) as (Hor & Hx & Ha). split.
    + destruct Hin as [E | Hin]; [|now right; right].
      rewrite <- E. destruct Hor as [-> | ->]; [now left | now right; left].
    + intros y [<- | [<- | Hy]].
      * eapply Qle_trans; [exact Hx | apply Hle; now left].
      * eapply Qle_trans; [exact Ha | apply Hle; now left].
      * apply Hle. now right.
Qed.

Lemma Math_min_spec (l : list number) :
  l <> [] ->
  In (Math_min l) l /\ forall y, In y l -> (Math_min l <= y)%Q.
Proof. destruct l as [|x r]; [easy|]. intros _. apply fold_min2. Qed.

Lemma Math_max_spec (l : list number) :
  l <> [] ->
  In (Math_max l) l /\ forall y, In y l -> (y <= Math_max l)%Q.
Proof. destruct l as [|x r]; [easy|]. intros _. apply fold_max2. Qed.

Lemma Math_round_le (x y : number) :
  (x <= y)%Q -> (Math_round x <= Math_round y)%Q.
Proof.
  intros H. unfold Math_round. rewrite <- Zle_Qle.
  apply Qfloor_resp_le. now apply Qplus_le_compat; [|apply Qle_refl].
Qed.

Lemma NoDup_firstn {A} (n : nat) (l : list A) :
  NoDup l -> NoDup (firstn n l).
Proof.
  intros H. revert n. induction H as [|x l Hin Hnd IH]; intros [|n];
    cbn [firstn]; try constructor.
  - intros Hx. apply Hin. eapply In_firstn, Hx.
  - apply IH.
Qed.

(** The days behind the items of a forecast. *)
Lemma forecastData_days (data : OpenWeatherForecastResponse)
  (f : ForecastData) :
  WeatherApi.forecastData timezone_offset Number_mul data = Return f ->
  exists days,
    grouped (raw_list data) days
    /\ f = {| city_name := raw_city_name data;
              city_country := raw_city_country data;
              list_ := firstn 5 (forecastList days) |}.
Proof.
  unfold WeatherApi.forecastData.
  destruct (forEach (raw_list data) []) as [days|m] eqn:E; [|easy].
  intros [= <-]. exists days. split; [now apply forEach_grouped | reflexivity].
Qed.

Lemma forecastData_day (data : OpenWeatherForecastResponse)
  (f : ForecastData) (d : ForecastItem) :
  WeatherApi.forecastData timezone_offset Number_mul data = Return f ->
  In d (list_ f) ->
  exists day,
    day_of (fi_date d) (raw_list data) = Some day
    /\ d = {| fi_date := df_date day;
              temperature_min := Math_round (Math_min (temperatures day));
              temperature_max := Math_round (Math_max (temperatures day));
              fi_description := df_description day;
              fi_icon := df_icon day;
              fi_humidity := df_humidity day;
              fi_windSpeed := df_windSpeed day;
              pop := df_pop day |}.
Proof.
  intros Hf Hin. destruct (forecastData_days _ _ Hf) as (days & G & ->).
  cbn [list_] in Hin. apply In_firstn in Hin.
  unfold forecastList in Hin. apply in_map_iff in Hin.
  destruct Hin as (day & <- & Hday). exists day.
  split; [|reflexivity]. cbn [fi_date]. now apply grouped_In with days.
Qed.

End ForecastDays.

(** X9.  The forecast [getForecast] makes of an answer holds one item for
    each of the first five distinct day labels of the entries, in the
    order in which the labels first occur: at most five items, no label
    twice. *)
Theorem forecast_days_in_order
  (timezone_offset : Z -> Z) (Number_mul : number -> number -> number)
  (data : WeatherApi.OpenWeatherForecastResponse) (f : ForecastData) :
  WeatherApi.forecastData timezone_offset Number_mul data = Return f ->
  map fi_date (list_ f)
  = firstn 5 (WeatherApi.distinct
                (map (WeatherApi.label timezone_offset)
                     (WeatherApi.raw_list data)))
  /\ NoDup (map fi_date (list_ f))
  /\ (List.length (list_ f) <= 5)%nat.
Proof.
  intros Hf. destruct (forecastData_days _ _ _ _ Hf) as (days & G & ->).
  cbn [list_]. apply grouped_dates in G.
  assert (E : map fi_date (firstn 5 (WeatherApi.forecastList days))
              = firstn 5 (WeatherApi.distinct
                            (map (WeatherApi.label timezone_offset)
                                 (WeatherApi.raw_list data)))).
  { rewrite <- firstn_map, <- G. unfold WeatherApi.forecastList.
    rewrite map_map. reflexivity. }
  split; [exact E|]. split.
  - rewrite E. apply NoDup_firstn, NoDup_distinct.
  - apply firstn_le_length.
Qed.

Lemma forecast_days_in_order_witness :
  map fi_date (list_ ForecastSample.forecast)
  = firstn 5 (WeatherApi.distinct
                (map (WeatherApi.label ForecastSample.utc)
                     (WeatherApi.raw_list ForecastSample.response)))
  /\ NoDup (map fi_date (list_ ForecastSample.forecast))
  /\ (List.length (list_ ForecastSample.forecast) <= 5)%nat.
Proof.
  apply (forecast_days_in_order ForecastSample.utc Qmult
           ForecastSample.response ForecastSample.forecast).
  vm_compute. reflexivity.
Defined.

(** X10.  The minimum of a day of the forecast is the rounded least value
    among the [temp_min] and [temp_max] of all the entries of that day,
    its maximum the rounded greatest one; so the minimum never exceeds
    the maximum, whatever the provider sent. *)
Theorem forecast_temperatures
  (timezone_offset : Z -> Z) (Number_mul : number -> number -> number)
  (data : WeatherApi.OpenWeatherForecastResponse) (f : ForecastData)
  (d : ForecastItem) :
  WeatherApi.forecastData timezone_offset Number_mul data = Return f ->
  In d (list_ f) ->
  let values :=
    WeatherApi.readings timezone_offset (fi_date d)
                        (WeatherApi.raw_list data) in
  exists lo hi,
    In lo values /\ In hi values
    /\ (forall x, In x values -> (lo <= x)%Q /\ (x <= hi)%Q)
    /\ temperature_min d = WeatherApi.Math_round lo
    /\ temperature_max d = WeatherApi.Math_round hi
    /\ (temperature_min d <= temperature_max d)%Q.
Proof.
  intros Hf Hin values.
  destruct (forecastData_day _ _ _ _ _ Hf Hin) as (day & Hday & ->).
  cbn [fi_date temperature_min temperature_max] in *.
  destruct (day_of_readings _ _ _ _ _ Hday) as [Ht Hne].
  fold values in Ht, Hne.
  rewrite Ht.
  destruct (Math_min_spec values Hne) as [Hlo Hle].
  destruct (Math_max_spec values Hne) as [Hhi Hge].
  exists (WeatherApi.Math_min values), (WeatherApi.Math_max values).
  repeat split; auto.
  apply Math_round_le, Hle, Hhi.
Qed.

Lemma forecast_temperatures_witness :
  let values :=
    WeatherApi.readings ForecastSample.utc "Wed, Jan 10"
                        (WeatherApi.raw_list ForecastSample.response) in
  exists lo hi,
    In lo values /\ In hi values
    /\ (forall x, In x values -> (lo <= x)%Q /\ (x <= hi)%Q)
    /\ (2 # 1) = WeatherApi.Math_round lo
    /\ (8 # 1) = WeatherApi.Math_round hi
    /\ ((2 # 1) <= (8 # 1))%Q.
Proof.
  apply (forecast_temperatures ForecastSample.utc Qmult
           ForecastSample.response ForecastSample.forecast
           ForecastSample.first_day).
  - vm_compute. reflexivity.
  - left. reflexivity.
Defined.

(** X11.  Description, icon, humidity, wind speed and chance of rain of a
    day of the forecast are those of the entry that opens the day, the
    first one with its label; the later entries of the day add to its
    temperatures only. *)
Theorem forecast_day_shows_opening_entry
  (timezone_offset : Z -> Z) (Number_mul : number -> number -> number)
  (data : WeatherApi.OpenWeatherForecastResponse) (f : ForecastData)
  (d : ForecastItem) :
  WeatherApi.forecastData timezone_offset Number_mul data = Return f ->
  In d (list_ f) ->
  exists item weather0 others,
    WeatherApi.opening timezone_offset (fi_date d) (WeatherApi.raw_list data)
    = Some item
    /\ WeatherApi.weather item = weather0 :: others
    /\ fi_description d = WeatherApi.rw_description weather0
    /\ fi_icon d = WeatherApi.rw_icon weather0
    /\ fi_humidity d = WeatherApi.main_humidity item
    /\ fi_windSpeed d
       = WeatherApi.Math_round
           (Number_mul (WeatherApi.wind_speed item) (36 # 10))
    /\ pop d
       = WeatherApi.Math_round
           (Number_mul (WeatherApi.raw_pop item) (100 # 1)).
Proof.
  intros Hf Hin.
  destruct (forecastData_day _ _ _ _ _ Hf Hin) as (day & Hday & ->).
  cbn [fi_date fi_description fi_icon fi_humidity fi_windSpeed pop] in *.
  unfold WeatherApi.day_of in Hday.
  destruct (WeatherApi.opening _ _ _) as [i|]; [|easy].
  destruct (WeatherApi.weather i) as [|w0 ws] eqn:Ew; [easy|].
  injection Hday as <-. exists i, w0, ws. now repeat split.
Qed.

Lemma forecast_day_shows_opening_entry_witness :
  exists item weather0 others,
    WeatherApi.opening ForecastSample.utc "Wed, Jan 10"
                       (WeatherApi.raw_list ForecastSample.response)
    = Some item
    /\ WeatherApi.weather item = weather0 :: others
    /\ "clear sky" = WeatherApi.rw_description weather0
    /\ "01d" = WeatherApi.rw_icon weather0
    /\ (80 # 1) = WeatherApi.main_humidity item
    /\ (18 # 1)
       = WeatherApi.Math_round (Qmult (WeatherApi.wind_speed item) (36 # 10))
    /\ (20 # 1)
       = WeatherApi.Math_round (Qmult (WeatherApi.raw_pop item) (100 # 1)).
Proof.
  apply (forecast_day_shows_opening_entry ForecastSample.utc Qmult
           ForecastSample.response ForecastSample.forecast
           ForecastSample.first_day).
  - vm_compute. reflexivity.
  - left. reflexivity.
Defined.

(** X12.  [getForecast] fails, always with the message
    [Failed to fetch forecast data], exactly when the request fails or
    the entry that opens some day of the answer has an empty [weather]
    array.  Such an entry later in a day does no harm; one that opens a
    sixth or later day fails the whole forecast. *)
Theorem getForecast_fails_iff
  (timezone_offset : Z -> Z) (Number_mul : number -> number -> number)
  (API_KEY : string) (encodeURIComponent : string -> string)
  (axios_get : string -> option WeatherApi.OpenWeatherForecastResponse)
  (location message : string) :
  WeatherApi.getForecast timezone_offset Number_mul API_KEY
    encodeURIComponent axios_get location = Throw message
  <-> message = "Failed to fetch forecast data"
      /\ match axios_get (WeatherApi.request_url API_KEY encodeURIComponent
                            "/forecast" location) with
         | None => True
         | Some data =>
             exists date item,
               WeatherApi.opening timezone_offset date
                 (WeatherApi.raw_list data) = Some item
               /\ WeatherApi.weather item = []
         end.
Proof.
  unfold WeatherApi.getForecast.
  destruct (axios_get _) as [data|]; [|split; [now intros [= <-] | now intros [-> _]]].
  unfold WeatherApi.forecastData.
  destruct (WeatherApi.forEach timezone_offset Number_mul
              (WeatherApi.raw_list data) []) as [days|m] eqn:E.
  - split; [easy|]. intros (_ & date & item & Ho & Hw). exfalso.
    apply forEach_grouped in E.
    destruct (opening_In _ _ _ _ Ho) as [Hin Hl].
    assert (Hd : In date (map WeatherApi.df_date days)).
    { rewrite (grouped_dates _ _ _ _ E), In_distinct, <- Hl.
      now apply in_map. }
    apply in_map_iff in Hd. destruct Hd as (day & <- & Hday).
    pose proof (grouped_In _ _ _ _ _ E Hday) as Hof.
    unfold WeatherApi.day_of in Hof. rewrite Ho, Hw in Hof. discriminate Hof.
  - split; [|now intros [-> _]]. intros [= <-]. split; [reflexivity|].
    revert m E.
    induction (WeatherApi.raw_list data) as [|x items IH] using rev_ind;
      intros m; [easy|].
    rewrite forEach_snoc.
    destruct (WeatherApi.forEach timezone_offset Number_mul items [])
      as [days|m'] eqn:E.
    + intros Ha. unfold WeatherApi.add_entry in Ha.
      destruct (WeatherApi.lookup _ days) eqn:El; [easy|].
      destruct (WeatherApi.weather x) eqn:Ew; [|easy].
      exists (WeatherApi.label timezone_offset x), x. split; [|exact Ew].
      apply lookup_None in El. apply forEach_grouped in E.
      rewrite (grouped_dates _ _ _ _ E), In_distinct in El.
      destruct (opening_None _ _ _ El) as [Ho _].
      unfold WeatherApi.opening in *. rewrite find_snoc.
      fold (WeatherApi.label timezone_offset x) in Ho. rewrite Ho.
      unfold WeatherApi.on_day. now rewrite String.eqb_refl.
    + intros _. destruct (IH m' eq_refl) as (date & item & Ho & Hw).
      exists date, item. split; [|exact Hw].
      unfold WeatherApi.opening in *. now rewrite find_snoc, Ho.
Qed.

(** X24.  [getCurrentWeather] fails with one message only,
    [Failed to fetch current weather data], and exactly when no API key
    is configured, the request fails or the answer has an empty [weather]
    array.  The message that asks for an API key never reaches the
    caller, and with the placeholder key no answer of the provider
    helps. *)
Theorem getCurrentWeather_fails_iff
  (Number_mul : number -> number -> number)
  (API_KEY : string) (encodeURIComponent : string -> string)
  (Number_div : number -> number -> number)
  (axios_get :
     string -> option WeatherApi.OpenWeatherCurrentResponse)
  (location message : string) :
  WeatherApi.getCurrentWeather Number_mul API_KEY encodeURIComponent
    Number_div axios_get location = Throw message
  <-> message = "Failed to fetch current weather data"
      /\ (API_KEY = "" \/ API_KEY = "your_api_key_here"
          \/ match axios_get (WeatherApi.request_url API_KEY
                                encodeURIComponent "/weather" location) with
             | None => True
             | Some data => WeatherApi.cur_weather data = []
             end).
Proof.
  unfold WeatherApi.getCurrentWeather, WeatherApi.getCurrentWeather_try.
  destruct API_KEY as [|a key]; cbn [JS.truthy_string negb orb].
  { split; [intros [= <-] | intros [-> _]]; auto. }
  destruct (String.eqb_spec (String a key) "your_api_key_here") as [E|Hn].
  { split; [intros [= <-] | intros [-> _]]; auto. }
  destruct (axios_get _) as [data|].
  - destruct (WeatherApi.cur_weather data) as [|w0 ws].
    + split; [intros [= <-] | intros [-> _]]; auto.
    + split; [discriminate|].
      intros (_ & [Hk | [Hk | Hk]]); [discriminate Hk | | discriminate Hk].
      now contradiction Hn.
  - split; [intros [= <-] | intros [-> _]]; auto.
Qed.

(* ===================================================================== *)
(** ** Insights *)
(* ===================================================================== *)

Section Insights.

Context `{Platform}.

Variable apiKey : string.
Variable post : string -> option (option string).
Variable parseAIResponse : string -> AIService.PartialInsight.

Local Abbreviation generateAIInsight :=
  (generateAIInsight apiKey post parseAIResponse).
Local Abbreviation aiInsight_of :=
  (aiInsight_of apiKey post parseAIResponse).

Lemma generateAIInsight_run (id : string) (w : World) :
  generateAIInsight id w
  = match stored_query id w with
    | None => (Throw "Weather query not found", w)
    | Some d =>
        if negb (AIService.isAvailable apiKey)
        then (Throw "AI service is not available", w)
        else
          let doc := aiInsight_of id (snd d) (clock w 0%nat) in
          let oid := new_oids w 0%nat in
          let w1 := tick_oids (tick_clock w) in
          match Db.find_by_id oid (ai_insights w) with
          | Some _ =>
              (Throw "Failed to generate AI insight: E11000 duplicate key error",
               w1)
          | None =>
              (Return (Some (insight_with_id (oid, doc))),
               with_insights (ai_insights w ++ [(oid, doc)])%list w1)
          end
    end.
Proof.
  unfold generateAIInsight. rewrite bind_run, getWeatherQuery_run.
  unfold stored_query.
  destruct (ObjectId_parse id) as [oid0|]; [|reflexivity].
  destruct (Db.find_by_id oid0 (weather_queries w)) as [d|]; [|reflexivity].
  cbn [option_map with_id snd].
  destruct (negb (AIService.isAvailable apiKey)); [reflexivity|].
  rewrite try_catch_run, bind_run. unfold new_Date. cbv beta iota.
  rewrite bind_run. unfold insertOne_insight. cbv beta iota zeta.
  change (ai_insights (tick_oids (tick_clock w))) with (ai_insights w).
  change (new_oids (tick_clock w) 0%nat) with (new_oids w 0%nat).
  destruct (Db.find_by_id (new_oids w 0%nat) (ai_insights w)) eqn:E;
    [reflexivity|].
  rewrite bind_run. unfold findOne_insight_by_id. cbv beta iota.
  cbn [ai_insights with_insights].
  rewrite (find_by_id_app_new _ _ _ E). reflexivity.
Qed.

Lemma stored_query_getWeatherQuery (id : string) (w : World) :
  result_of (getWeatherQuery id) w
  = Return (option_map with_id (stored_query id w)).
Proof.
  unfold result_of. rewrite getWeatherQuery_run. unfold stored_query.
  now destruct (ObjectId_parse id).
Qed.

Lemma truthy_string_not_empty (s : string) :
  JS.truthy_string s = true <-> s <> "".
Proof. destruct s; cbn; split; congruence. Qed.

Lemma trim_clean (s : string) :
  Spacing.starts_clean (JS.trim s) = true
  /\ Spacing.ends_clean (JS.trim s) = true.
Proof.
  unfold JS.trim. split.
  - apply trim_end_starts_clean, skip_spaces_starts_clean.
  - apply trim_end_ends_clean.
Qed.

End Insights.



(** X14.  When every request to the model fails, [generateAIInsight]
    still returns and saves an insight for a stored query: the canned
    text, a canned recommendation and a canned activity, under the name
    of the model.  The caller is not told of the failure. *)
Theorem generateAIInsight_saves_canned_insight
  `{Platform} (apiKey : string) (post : string -> option (option string))
  (parseAIResponse : string -> AIService.PartialInsight)
  (id : string) (query : WithId WeatherQuery) (w : World) :
  apiKey <> "" ->
  (forall prompt, post prompt = None) ->
  result_of (getWeatherQuery id) w = Return (Some query) ->
  Db.find_by_id (new_oids w 0%nat) (ai_insights w) = None ->
  exists oid doc,
    result_of (generateAIInsight apiKey post parseAIResponse id) w
    = Return (Some (insight_with_id (oid, doc)))
    /\ In (oid, doc)
          (ai_insights
             (world_after (generateAIInsight apiKey post parseAIResponse id)
                          w))
    /\ insight doc = "Unable to generate AI insight at this time."
    /\ recommendations doc
       = Some ["Check weather conditions before heading out"]
    /\ activitySuggestions doc
       = Some ["Monitor weather conditions for outdoor activities"]
    /\ model doc = AIService.MODEL.
Proof.
  intros Hkey Hpost Hq Hfresh.
  rewrite stored_query_getWeatherQuery in Hq.
  unfold result_of, world_after. rewrite generateAIInsight_run.
  destruct (stored_query id w) as [d|]; [|discriminate Hq].
  apply truthy_string_not_empty in Hkey.
  unfold AIService.isAvailable. rewrite Hkey. cbn [negb]. cbv zeta.
  rewrite Hfresh. cbn [fst snd ai_insights with_insights].
  eexists _, _. split; [reflexivity|]. split.
  - apply in_or_app. right. now left.
  - unfold aiInsight_of, AIService.generateWeatherInsight,
      AIService.generateActivitySuggestions, AIService.makeRequest.
    rewrite Hkey, !Hpost. cbn. now repeat split.
Qed.

Lemma generateAIInsight_saves_canned_insight_witness :
  exists oid doc,
    result_of (AISample.generateAIInsight Sample.london_id)
              Sample.london_world
    = Return (Some (insight_with_id (H := Sample.platform) (oid, doc)))
    /\ In (oid, doc)
          (ai_insights
             (world_after (AISample.generateAIInsight Sample.london_id)
                          Sample.london_world))
    /\ insight doc = "Unable to generate AI insight at this time."
    /\ recommendations doc
       = Some ["Check weather conditions before heading out"]
    /\ activitySuggestions doc
       = Some ["Monitor weather conditions for outdoor activities"]
    /\ model doc = AIService.MODEL.
Proof.
  apply (generateAIInsight_saves_canned_insight (H := Sample.platform)
           AISample.apiKey AISample.post AISample.parseAIResponse
           Sample.london_id (Some Sample.london_id, Sample.london_document)
           Sample.london_world).
  - discriminate.
  - reflexivity.
  - vm_compute. reflexivity.
  - vm_compute. reflexivity.
Defined.

(** X15.  [generateAIInsight] throws in three cases only: the query is
    not found (also for a malformed id), no API key is configured, or the
    database refuses the new insight.  It has then saved nothing; and
    whether it throws or not it leaves the queries and every insight
    already saved as they are. *)
Theorem generateAIInsight_failure
  `{Platform} (apiKey : string) (post : string -> option (option string))
  (parseAIResponse : string -> AIService.PartialInsight)
  (id : string) (w : World) :
  let r := result_of (generateAIInsight apiKey post parseAIResponse id) w in
  let w' := world_after (generateAIInsight apiKey post parseAIResponse id) w in
  weather_queries w' = weather_queries w
  /\ (forall i, In i (ai_insights w) -> In i (ai_insights w'))
  /\ forall message, r = Throw message ->
       ai_insights w' = ai_insights w
       /\ (result_of (getWeatherQuery id) w = Return None
           /\ message = "Weather query not found"
           \/ apiKey = "" /\ message = "AI service is not available"
           \/ Db.find_by_id (new_oids w 0%nat) (ai_insights w) <> None
              /\ message
                 = "Failed to generate AI insight: E11000 duplicate key error").
Proof.
  cbv zeta. rewrite stored_query_getWeatherQuery.
  unfold result_of, world_after. rewrite generateAIInsight_run.
  destruct (stored_query id w) as [d|].
  2:{ cbn [fst snd]. split; [reflexivity|]. split; [auto|].
      intros m [= <-]. split; [reflexivity|]. left. now split. }
  destruct (JS.truthy_string apiKey) eqn:Ek;
    unfold AIService.isAvailable; rewrite Ek; cbn [negb].
  2:{ cbn [fst snd]. split; [reflexivity|]. split; [auto|].
      intros m [= <-]. split; [reflexivity|]. right. left.
      split; [|reflexivity].
      destruct apiKey; [reflexivity | discriminate Ek]. }
  cbv zeta. destruct (Db.find_by_id _ (ai_insights w)) eqn:E; cbn [fst snd].
  - split; [reflexivity|]. split; [auto|].
    intros m [= <-]. split; [reflexivity|]. right. right.
    split; [discriminate | reflexivity].
  - cbn [weather_queries ai_insights with_insights].
    split; [reflexivity|]. split.
    + intros i Hi. apply in_or_app. now left.
    + discriminate.
Qed.

Lemma generateAIInsight_failure_witness :
  ai_insights (world_after (AISample.generateAIInsight "london")
                           Sample.london_world_with_insights)
  = ai_insights Sample.london_world_with_insights
  /\ (result_of (getWeatherQuery (H := Sample.platform) "london")
                Sample.london_world_with_insights = Return None
      /\ "Weather query not found" = "Weather query not found"
      \/ AISample.apiKey = ""
         /\ "Weather query not found" = "AI service is not available"
      \/ Db.find_by_id (new_oids Sample.london_world_with_insights 0%nat)
                       (ai_insights Sample.london_world_with_insights)
         <> None
         /\ "Weather query not found"
            = "Failed to generate AI insight: E11000 duplicate key error").
Proof.
  apply (proj2 (proj2 (generateAIInsight_failure (H := Sample.platform)
                         AISample.apiKey AISample.post
                         AISample.parseAIResponse "london"
                         Sample.london_world_with_insights))
               "Weather query not found").
  reflexivity.
Defined.

(** X16.  [generateActivitySuggestions] never returns an empty list, and
    none of its suggestions is empty or starts or ends with white space,
    whatever the model answers and also when the request fails. *)
Theorem generateActivitySuggestions_never_empty
  `{Platform} (apiKey : string) (post : string -> option (option string))
  (location : string) (weather : WeatherData) (dateRange : DateRange) :
  let activities :=
    AIService.generateActivitySuggestions apiKey post location weather
      dateRange in
  activities <> []
  /\ Forall (fun a => a <> ""
                      /\ Spacing.starts_clean a = true
                      /\ Spacing.ends_clean a = true) activities.
Proof.
  cbv zeta. unfold AIService.generateActivitySuggestions.
  destruct (AIService.makeRequest _ _ _) as [response|m].
  - destruct (AIService.activities_of response) as [|a l] eqn:E.
    + split; [discriminate|]. repeat constructor; discriminate.
    + split; [discriminate|]. rewrite <- E. clear E.
      unfold AIService.activities_of. apply Forall_forall. intros x Hx.
      apply filter_In in Hx. destruct Hx as [Hx Ht].
      apply in_map_iff in Hx. destruct Hx as (line & <- & _).
      split; [now apply truthy_string_not_empty | apply trim_clean].
  - split; [discriminate|]. repeat constructor; discriminate.
Qed.

(* ===================================================================== *)
(** ** The handlers of a query *)
(* ===================================================================== *)

Section Includes.

Lemma prefix_app (p s : string) : String.prefix p (p ++ s) = true.
Proof.
  induction p as [|a p IH]; cbn [append String.prefix]; [now destruct s|].
  destruct (ascii_dec a a) as [_|N]; [exact IH | now contradiction N].
Qed.

Lemma includes_prefix (p s : string) : includes (p ++ s) p = true.
Proof.
  destruct p as [|a p]; cbn [append includes].
  - destruct s; reflexivity.
  - fold (append p s). change (String a (p ++ s)) with (String a p ++ s).
    now rewrite prefix_app.
Qed.

Lemma includes_app_r (a s p : string) :
  includes s p = true -> includes (a ++ s) p = true.
Proof.
  intros Hs. induction a as [|x a IH]; cbn [append]; [exact Hs|].
  cbn [includes]. rewrite IH. apply orb_true_r.
Qed.

(** A text occurs in what has it between two others. *)
Lemma includes_middle (a p b : string) : includes (a ++ p ++ b) p = true.
Proof. apply includes_app_r, includes_prefix. Qed.

(** The character [c] does not occur in [p]. *)
Lemma prefix_without (c : ascii) (p a r : string) :
  WeatherApi.string_forall (fun x => negb (Ascii.eqb x c)) p = true ->
  p <> "" ->
  String.prefix p (a ++ String c r) = String.prefix p a.
Proof.
  revert a. induction p as [|x p IH]; intros a Hp Hne; [congruence|].
  cbn [WeatherApi.string_forall] in Hp. apply andb_prop in Hp.
  destruct Hp as [Hx Hp]. apply negb_true_iff in Hx.
  destruct a as [|y a]; cbn [append String.prefix].
  - destruct (ascii_dec x c) as [E|_]; [|reflexivity].
    subst. now rewrite Ascii.eqb_refl in Hx.
  - destruct (ascii_dec x y) as [_|_]; [|reflexivity].
    destruct p as [|z p]; [now destruct a | now apply IH].
Qed.

Lemma includes_without (c : ascii) (p a r : string) :
  WeatherApi.string_forall (fun x => negb (Ascii.eqb x c)) p = true ->
  p <> "" ->
  includes (a ++ String c r) p = includes a p || includes r p.
Proof.
  intros Hp Hne. induction a as [|y a IH].
  - pose proof (prefix_without c p "" r Hp Hne) as E.
    cbn [append] in E. cbn [append includes]. rewrite E.
    destruct p as [|x p]; [congruence|]. reflexivity.
  - pose proof (prefix_without c p (String y a) r Hp Hne) as E.
    cbn [append] in E. cbn [append includes]. rewrite E, IH.
    now rewrite orb_assoc.
Qed.

End Includes.

Section QueryHandlerFacts.

Context `{Platform}.

Variable apiKey : string.
Variable post : string -> option (option string).
Variable parseAIResponse : string -> AIService.PartialInsight.
Variable LocationContext : Type.
Variable getLocationContext :
  string -> WeatherData -> option ForecastData -> Result LocationContext.

Local Abbreviation handler :=
  (QueryHandlers.handler apiKey post parseAIResponse LocationContext
     getLocationContext).
Local Abbreviation handlePut :=
  (QueryHandlers.handlePut apiKey post parseAIResponse LocationContext).
Local Abbreviation not_found :=
  (QueryHandlers.error (LocationContext := LocationContext)
     404 "Not found" "Weather query not found").

Lemma handler_DELETE_run (id : string)
  (body : option UpdateWeatherQueryRequest) (w : World) :
  id <> "" ->
  handler "DELETE" (QueryHandlers.One id) body w
  = (Return (match stored_query id w with
             | Some _ => QueryHandlers.respond 204 QueryHandlers.NoBody
             | None => not_found
             end),
     world_after (deleteWeatherQuery id) w).
Proof.
  intros Hid. apply truthy_string_not_empty in Hid.
  unfold QueryHandlers.handler. rewrite Hid. cbn [negb String.eqb Ascii.eqb Bool.eqb].
  rewrite try_catch_run. unfold QueryHandlers.handleDelete.
  rewrite bind_run. unfold world_after, stored_query.
  rewrite deleteWeatherQuery_run. cbv zeta.
  destruct (ObjectId_parse id) as [oid|]; [|reflexivity].
  destruct (Db.find_by_id oid (weather_queries w)); reflexivity.
Qed.

Lemma handler_GET_not_found (id : string)
  (body : option UpdateWeatherQueryRequest) (w : World) :
  id <> "" -> stored_query id w = None ->
  handler "GET" (QueryHandlers.One id) body w = (Return not_found, w).
Proof.
  intros Hid Hq. apply truthy_string_not_empty in Hid.
  unfold QueryHandlers.handler. rewrite Hid. cbn [negb String.eqb Ascii.eqb Bool.eqb].
  rewrite try_catch_run. unfold QueryHandlers.handleGet.
  rewrite bind_run, getWeatherQuery_run. unfold stored_query in Hq.
  destruct (ObjectId_parse id); [now rewrite Hq | reflexivity].
Qed.

Lemma stored_query_after_delete (id : string) (w : World) :
  NoDup (map fst (weather_queries w)) ->
  stored_query id (world_after (deleteWeatherQuery id) w) = None.
Proof.
  intros Hnd. unfold world_after, stored_query.
  rewrite deleteWeatherQuery_run. cbv zeta.
  destruct (ObjectId_parse id) as [oid|]; [|reflexivity].
  destruct (Db.find_by_id oid (weather_queries w)) eqn:E; cbn [snd].
  - cbn [weather_queries with_queries]. now apply find_remove_one.
  - exact E.
Qed.

Lemma updateWeatherQuery_null (this : WeatherService) (id : string)
  (updates : UpdateWeatherQueryRequest) (w : World)
  (r : option (WithId WeatherQuery)) :
  includeResultMetadata = false ->
  result_of (updateWeatherQuery this id updates) w = Return r -> r = None.
Proof.
  intros Hflag Hr.
  pose proof (updateWeatherQuery_outcome this id updates w) as O.
  rewrite Hr in O.
  inversion O as [m w1 S | oid0 u w1 Eoid0 Hu Sq Si Sw Hans].
  unfold update_answer in Hans. rewrite Hflag in Hans.
  destruct (Db.find_by_id oid0 _); congruence.
Qed.

Lemma refused_status (message : string) (w : World)
  (r : QueryHandlers.Response LocationContext) :
  result_of (QueryHandlers.refused LocationContext message) w = Return r ->
  QueryHandlers.status r = 400.
Proof.
  unfold QueryHandlers.refused, result_of.
  destruct (includes message "Invalid date range");
    [now intros [= <-]|].
  destruct (includes message "not found"); [now intros [= <-]|].
  discriminate.
Qed.

Lemma handlePut_status_without_metadata (id : string)
  (body : option UpdateWeatherQueryRequest) (w : World) :
  includeResultMetadata = false ->
  match result_of (handlePut id body) w with
  | Return r => QueryHandlers.status r = 400 \/ QueryHandlers.status r = 404
  | Throw _ => True
  end.
Proof.
  intros Hflag. unfold QueryHandlers.handlePut, result_of.
  destruct body as [updates|]; [|now left].
  destruct (Nat.eqb _ 0); [now left|].
  destruct (match up_dateRange updates with
            | Some r => QueryHandlers.incomplete r
            | None => false
            end); [now left|].
  rewrite try_catch_run, bind_run.
  destruct (updateWeatherQuery weatherService id updates w) as [r0 w1] eqn:E.
  destruct r0 as [q|m].
  - assert (q = None) as ->.
    { apply (updateWeatherQuery_null weatherService id updates w _ Hflag).
      unfold result_of. now rewrite E. }
    now right.
  - destruct (QueryHandlers.refused LocationContext m w1) as [r1 w2] eqn:E1.
    destruct r1 as [r1|]; [|exact I]. left.
    apply (refused_status m w1). unfold result_of. now rewrite E1.
Qed.

Lemma handler_PUT_run (id : string)
  (body : option UpdateWeatherQueryRequest) (w : World) :
  id <> "" ->
  handler "PUT" (QueryHandlers.One id) body w
  = match handlePut id body w with
    | (Return r, w') => (Return r, w')
    | (Throw message, w') =>
        (Return (QueryHandlers.error 500 "Internal server error" message), w')
    end.
Proof.
  intros Hid. apply truthy_string_not_empty in Hid.
  unfold QueryHandlers.handler. rewrite Hid.
  cbn [negb String.eqb Ascii.eqb Bool.eqb].
  now rewrite try_catch_run.
Qed.

Lemma handlePut_notes_run (id : string) (oid : ObjectId) (notes : string)
  (w : World) :
  ObjectId_parse id = Some oid ->
  includeResultMetadata = false ->
  let updates := {| up_location := None; up_dateRange := None;
                    up_userNotes := Some notes; up_tags := None |} in
  let u := handle_other_updates updates (empty_update (clock w 0%nat)) in
  let qs := Db.update_one oid (apply_set u) (weather_queries w) in
  let w' := with_queries qs (log_write (UpdateQuery oid) (tick_clock w)) in
  handlePut id (Some updates) w
  = match Db.find_by_id oid qs with
    | Some _ => (Return not_found, w')
    | None =>
        (Throw "Failed to update weather query: Cannot read properties of null (reading 'value')",
         w')
    end.
Proof.
  intros Eoid Hflag. cbv zeta. unfold QueryHandlers.handlePut.
  cbn [QueryHandlers.keys_length QueryHandlers.key up_location up_dateRange
       up_userNotes up_tags Nat.add Nat.eqb].
  rewrite try_catch_run, bind_run.
  rewrite (updateWeatherQuery_notes_run weatherService id oid notes w Eoid).
  cbv zeta. unfold update_answer. rewrite Hflag.
  destruct (Db.find_by_id oid _); reflexivity.
Qed.

Lemma updateWeatherQuery_malformed_run (id : string)
  (updates : UpdateWeatherQueryRequest) (w : World) :
  ObjectId_parse id = None ->
  up_location updates = None -> up_dateRange updates = None ->
  updateWeatherQuery weatherService id updates w
  = (Throw "Failed to update weather query: input must be a 24 character hex string, 12 byte Uint8Array, or an integer",
     tick_clock w).
Proof.
  intros Eoid El Ed. unfold updateWeatherQuery.
  rewrite try_catch_run, bind_run. unfold new_Date at 1. cbv beta iota zeta.
  rewrite bind_run.
  unfold handle_location_update at 1. rewrite El. cbn [JS.truthy].
  unfold ret at 1. cbv beta iota.
  rewrite bind_run.
  unfold handle_dateRange_update at 1. rewrite Ed.
  unfold ret at 1. cbv beta iota.
  rewrite bind_run. unfold new_ObjectId. rewrite Eoid. reflexivity.
Qed.

(** What a PUT does to the insights: nothing, or it adds the one it
    returns. *)
Lemma handlePut_insights (id : string)
  (body : option UpdateWeatherQueryRequest) (w : World) r w' :
  handlePut id body w = (r, w') ->
  ai_insights w' = ai_insights w
  \/ exists oid doc q,
       ai_insights w' = (ai_insights w ++ [(oid, doc)])%list
       /\ queryId doc = id
       /\ r = Return (QueryHandlers.respond 200
                        (QueryHandlers.PutBody q
                           (Some (insight_with_id (oid, doc))))).
Proof.
  unfold QueryHandlers.handlePut.
  destruct body as [updates|]; [|intros [= <- <-]; now left].
  destruct (Nat.eqb _ 0); [intros [= <- <-]; now left|].
  destruct (match up_dateRange updates with
            | Some r => QueryHandlers.incomplete r
            | None => false
            end); [intros [= <- <-]; now left|].
  rewrite try_catch_run, bind_run.
  destruct (updateWeatherQuery weatherService id updates w) as [r0 w1] eqn:E.
  assert (Hi : ai_insights w1 = ai_insights w).
  { apply updateWeatherQuery_run in E.
    inversion E as [m w2 S | oid0 u w2 Eoid0 Hu Sq Si Sw Hans]; subst.
    - apply S.
    - exact Si. }
  clear E. destruct r0 as [[q|]|m].
  - rewrite bind_run.
    destruct (JS.truthy (up_location updates)).
    + rewrite try_catch_run, bind_run, getAIInsight_run.
      destruct (option_map insight_with_id _) as [existing|].
      * unfold QueryHandlers.generateAIInsight.
        rewrite generateAIInsight_run.
        destruct (stored_query id w1) as [d|];
          [|intros [= <- <-]; now left].
        destruct (negb (AIService.isAvailable apiKey));
          [intros [= <- <-]; now left|].
        cbv zeta. destruct (Db.find_by_id _ (ai_insights w1));
          [intros [= <- <-]; now left|].
        intros [= <- <-]. right. eexists _, _, q.
        cbn [ai_insights with_insights]. rewrite Hi.
        split; [reflexivity|]. split; reflexivity.
      * intros [= <- <-]. now left.
    + rewrite try_catch_run, getAIInsight_run. intros [= <- <-]. now left.
  - intros [= <- <-]. now left.
  - unfold QueryHandlers.refused.
    destruct (includes m "Invalid date range"); [intros [= <- <-]; now left|].
    destruct (includes m "not found"); intros [= <- <-]; now left.
Qed.

End QueryHandlerFacts.

(** X17.  DELETE on a query answers 204 when the query is stored and 404
    when it is not.  After it, whatever it answered, a second DELETE and
    a GET on the same id both answer 404. *)
Theorem handler_DELETE_then_not_found
  `{Platform} (apiKey : string) (post : string -> option (option string))
  (parseAIResponse : string -> AIService.PartialInsight)
  (LocationContext : Type)
  (getLocationContext :
     string -> WeatherData -> option ForecastData -> Result LocationContext)
  (id : string) (body : option UpdateWeatherQueryRequest) (w : World) :
  id <> "" ->
  NoDup (map fst (weather_queries w)) ->
  let handler :=
    QueryHandlers.handler apiKey post parseAIResponse LocationContext
      getLocationContext in
  let not_found :=
    QueryHandlers.error 404 "Not found" "Weather query not found" in
  let w' := world_after (handler "DELETE" (QueryHandlers.One id) body) w in
  result_of (handler "DELETE" (QueryHandlers.One id) body) w
  = Return (match result_of (getWeatherQuery id) w with
            | Return (Some _) =>
                QueryHandlers.respond 204 QueryHandlers.NoBody
            | _ => not_found
            end)
  /\ result_of (handler "DELETE" (QueryHandlers.One id) body) w'
     = Return not_found
  /\ result_of (handler "GET" (QueryHandlers.One id) body) w'
     = Return not_found.
Proof.
  intros Hid Hnd. cbv zeta. unfold result_of at 1 3 4, world_after at 1 2.
  rewrite stored_query_getWeatherQuery.
  rewrite !(handler_DELETE_run _ _ _ _ _ _ _ _ Hid). cbn [fst snd].
  rewrite (handler_GET_not_found _ _ _ _ _ _ _ _ Hid)
    by now apply stored_query_after_delete.
  rewrite (stored_query_after_delete _ _ Hnd). cbn [fst].
  split; [|now split]. now destruct (stored_query id w).
Qed.

Lemma handler_DELETE_then_not_found_witness :
  let w' :=
    world_after
      (HandlerSample.handler "DELETE" (QueryHandlers.One Sample.london_id)
                             None)
      Sample.london_world in
  result_of
    (HandlerSample.handler "DELETE" (QueryHandlers.One Sample.london_id) None)
    Sample.london_world
  = Return (QueryHandlers.respond 204 QueryHandlers.NoBody)
  /\ result_of
       (HandlerSample.handler "DELETE" (QueryHandlers.One Sample.london_id)
                              None) w'
     = Return HandlerSample.not_found
  /\ result_of
       (HandlerSample.handler "GET" (QueryHandlers.One Sample.london_id) None)
       w'
     = Return HandlerSample.not_found.
Proof.
  apply (handler_DELETE_then_not_found (H := Sample.platform)
           AISample.apiKey AISample.post AISample.parseAIResponse unit
           (fun _ _ _ => Return tt) Sample.london_id None
           Sample.london_world).
  - discriminate.
  - vm_compute. repeat constructor. intros [].
Defined.

(** X18.  When [findOneAndUpdate] resolves to the bare document, as the
    pinned driver does, PUT never answers 200: it answers 400, 404 or
    500.  For a stored query and an update of the notes it answers 404,
    [Weather query not found], and the notes are updated all the same. *)
Theorem handler_PUT_never_succeeds_without_metadata
  `{Platform} (apiKey : string) (post : string -> option (option string))
  (parseAIResponse : string -> AIService.PartialInsight)
  (LocationContext : Type)
  (getLocationContext :
     string -> WeatherData -> option ForecastData -> Result LocationContext)
  (id : QueryHandlers.QueryValue) (body : option UpdateWeatherQueryRequest)
  (w : World) :
  includeResultMetadata = false ->
  let handler :=
    QueryHandlers.handler apiKey post parseAIResponse LocationContext
      getLocationContext in
  (exists r,
     result_of (handler "PUT" id body) w = Return r
     /\ (QueryHandlers.status r = 400 \/ QueryHandlers.status r = 404
         \/ QueryHandlers.status r = 500))
  /\ forall s oid q notes,
       id = QueryHandlers.One s ->
       s <> "" ->
       ObjectId_parse s = Some oid ->
       Db.find_by_id oid (weather_queries w) = Some (oid, q) ->
       body = Some {| up_location := None; up_dateRange := None;
                      up_userNotes := Some notes; up_tags := None |} ->
       result_of (handler "PUT" id body) w
       = Return (QueryHandlers.error 404 "Not found" "Weather query not found")
       /\ exists q',
            result_of (getWeatherQuery s)
                      (world_after (handler "PUT" id body) w)
            = Return (Some (Some (ObjectId_toString oid), q'))
            /\ userNotes q' = Some notes.
Proof.
  intros Hflag. cbv zeta. split.
  - destruct id as [|s|l]; try (eexists; split; [reflexivity | now left]).
    destruct s as [|a s]; [eexists; split; [reflexivity | now left]|].
    unfold result_of.
    rewrite (handler_PUT_run _ _ _ _ _ (String a s)) by discriminate.
    pose proof (handlePut_status_without_metadata apiKey post parseAIResponse
                  LocationContext (String a s) body w Hflag) as Hs.
    unfold result_of in Hs.
    destruct (QueryHandlers.handlePut _ _ _ _ _ _ w) as [[r|m] w1];
      cbn [fst] in *.
    + exists r. split; [reflexivity|]. tauto.
    + eexists. split; [reflexivity|]. now right; right.
  - intros s oid q notes -> Hs Eoid Efind ->.
    unfold result_of, world_after.
    rewrite (handler_PUT_run _ _ _ _ _ s) by exact Hs.
    rewrite (handlePut_notes_run _ _ _ _ s oid notes w Eoid Hflag).
    cbv zeta. rewrite (find_update_one _ _ _ _ Efind). cbn [fst snd].
    split; [reflexivity|].
    rewrite getWeatherQuery_run, Eoid.
    cbn [fst weather_queries with_queries].
    rewrite (find_update_one _ _ _ _ Efind). cbn [fst snd option_map].
    eexists. split; [reflexivity|]. reflexivity.
Qed.

Lemma handler_PUT_never_succeeds_without_metadata_witness :
  result_of
    (HandlerSample.handler "PUT" (QueryHandlers.One Sample.london_id)
       (Some (HandlerSample.notes "sunny after all")))
    Sample.london_world
  = Return HandlerSample.not_found
  /\ exists q',
       result_of (getWeatherQuery (H := Sample.platform) Sample.london_id)
         (world_after
            (HandlerSample.handler "PUT" (QueryHandlers.One Sample.london_id)
               (Some (HandlerSample.notes "sunny after all")))
            Sample.london_world)
       = Return (Some (Some (ObjectId_toString (Platform := Sample.platform)
                               1%N), q'))
       /\ userNotes q' = Some "sunny after all".
Proof.
  apply (proj2 (handler_PUT_never_succeeds_without_metadata
                  (H := Sample.platform) AISample.apiKey AISample.post
                  AISample.parseAIResponse unit (fun _ _ _ => Return tt)
                  (QueryHandlers.One Sample.london_id)
                  (Some (HandlerSample.notes "sunny after all"))
                  Sample.london_world eq_refl)
               Sample.london_id 1%N Sample.london_document
               "sunny after all" eq_refl).
  - discriminate.
  - vm_compute. reflexivity.
  - vm_compute. reflexivity.
  - reflexivity.
Defined.

(** X19.  For an id that is no ObjectId, GET and DELETE answer 404, but a
    PUT that changes notes or tags answers 500, with the message of the
    ObjectId constructor: the three methods do not agree on an id that
    cannot exist. *)
Theorem handler_malformed_id
  `{Platform} (apiKey : string) (post : string -> option (option string))
  (parseAIResponse : string -> AIService.PartialInsight)
  (LocationContext : Type)
  (getLocationContext :
     string -> WeatherData -> option ForecastData -> Result LocationContext)
  (id : string) (updates : UpdateWeatherQueryRequest) (w : World) :
  id <> "" ->
  ObjectId_parse id = None ->
  up_location updates = None ->
  up_dateRange updates = None ->
  QueryHandlers.keys_length updates <> 0%nat ->
  let handler :=
    QueryHandlers.handler apiKey post parseAIResponse LocationContext
      getLocationContext in
  let not_found :=
    QueryHandlers.error 404 "Not found" "Weather query not found" in
  result_of (handler "GET" (QueryHandlers.One id) None) w = Return not_found
  /\ result_of (handler "DELETE" (QueryHandlers.One id) None) w
     = Return not_found
  /\ result_of (handler "PUT" (QueryHandlers.One id) (Some updates)) w
     = Return
         (QueryHandlers.error 500 "Internal server error"
            "Failed to update weather query: input must be a 24 character hex string, 12 byte Uint8Array, or an integer")
  /\ same_store w
       (world_after (handler "PUT" (QueryHandlers.One id) (Some updates)) w).
Proof.
  intros Hid Eoid El Ed Hk. cbv zeta.
  assert (Hq : stored_query id w = None)
    by (unfold stored_query; now rewrite Eoid).
  unfold result_of, world_after.
  rewrite (handler_GET_not_found _ _ _ _ _ _ _ _ Hid Hq).
  rewrite (handler_DELETE_run _ _ _ _ _ _ _ _ Hid), Hq.
  rewrite (handler_PUT_run _ _ _ _ _ id) by exact Hid.
  unfold QueryHandlers.handlePut.
  apply Nat.eqb_neq in Hk. rewrite Hk, Ed.
  rewrite try_catch_run, bind_run.
  rewrite (updateWeatherQuery_malformed_run id updates w Eoid El Ed).
  cbn. repeat split.
Qed.

Lemma handler_malformed_id_witness :
  result_of (HandlerSample.handler "GET" (QueryHandlers.One "london") None)
            Sample.london_world
  = Return HandlerSample.not_found
  /\ result_of
       (HandlerSample.handler "DELETE" (QueryHandlers.One "london") None)
       Sample.london_world
     = Return HandlerSample.not_found
  /\ result_of
       (HandlerSample.handler "PUT" (QueryHandlers.One "london")
          (Some (HandlerSample.notes "sunny after all")))
       Sample.london_world
     = Return
         (QueryHandlers.error 500 "Internal server error"
            "Failed to update weather query: input must be a 24 character hex string, 12 byte Uint8Array, or an integer")
  /\ same_store Sample.london_world
       (world_after
          (HandlerSample.handler "PUT" (QueryHandlers.One "london")
             (Some (HandlerSample.notes "sunny after all")))
          Sample.london_world).
Proof.
  apply (handler_malformed_id (H := Sample.platform) AISample.apiKey
           AISample.post AISample.parseAIResponse unit
           (fun _ _ _ => Return tt) "london"
           (HandlerSample.notes "sunny after all") Sample.london_world).
  - discriminate.
  - vm_compute. reflexivity.
  - reflexivity.
  - reflexivity.
  - discriminate.
Defined.





(* ===================================================================== *)
(** ** The verdict of the date range validator *)
(* ===================================================================== *)

Section Verdict.

Context `{Platform}.

Lemma no_errors_iff (l : list string) : no_errors l = true <-> l = [].
Proof.
  split; [apply no_errors_nil | now intros ->].
Qed.

(** The validator's answer when a date does not parse. *)
Lemma validateDateRange_unparsed (dr : DateRange) (w : World) :
  parseISO (startDate dr) = None \/ parseISO (endDate dr) = None ->
  exists errs,
    validateDateRange dr w
    = (Return {| isValid := false; errors := errs;
                 adjustedRange :=
                   Some {| startDate := format_yyyy_MM_dd (clock w 0%nat);
                           endDate :=
                             format_yyyy_MM_dd
                               (clock w 1%nat + 5 * 24 * 60 * 60 * 1000) |} |},
       tick_clock (tick_clock w))
    /\ errs <> []
    /\ Forall (fun e => e = "Start date is invalid"
                        \/ e = "End date is invalid") errs.
Proof.
  intros Hp. unfold validateDateRange.
  destruct (parseISO (startDate dr)) as [ts|];
    destruct (parseISO (endDate dr)) as [te|];
    try (destruct Hp; discriminate);
    (eexists; split; [reflexivity|]; split; [discriminate|]);
    repeat (apply Forall_cons; [first [now left | now right]|]);
    apply Forall_nil.
Qed.

End Verdict.

(** X22.  The validator always answers, and it accepts a range exactly
    when both dates parse, the start is not after the end, the start is
    not before one year ago, and neither date is after five days from
    now; the length of the range is not looked at.  It has no error
    exactly when it accepts; it hands an accepted range back unchanged,
    and when a date does not parse its only errors are that the start or
    the end date is invalid. *)
Theorem validateDateRange_verdict
  `{Platform} (dr : DateRange) (w : World) :
  exists v,
    result_of (validateDateRange dr) w = Return v
    /\ (isValid v = true <-> errors v = [])
    /\ (isValid v = true <->
        exists ts te,
          parseISO (startDate dr) = Some ts
          /\ parseISO (endDate dr) = Some te
          /\ ts <= te
          /\ oneYearAgo (clock w 0%nat) <= ts
          /\ ts <= fiveDaysFromNow (clock w 1%nat)
          /\ te <= fiveDaysFromNow (clock w 1%nat))
    /\ (isValid v = true -> adjustedRange v = Some dr)
    /\ (parseISO (startDate dr) = None \/ parseISO (endDate dr) = None ->
        Forall (fun e => e = "Start date is invalid"
                         \/ e = "End date is invalid") (errors v)
        /\ adjustedRange v
           = Some {| startDate := format_yyyy_MM_dd (clock w 0%nat);
                     endDate :=
                       format_yyyy_MM_dd
                         (clock w 1%nat + 5 * 24 * 60 * 60 * 1000) |}).
Proof.
  destruct (parseISO (startDate dr)) as [ts|] eqn:Hs;
    [destruct (parseISO (endDate dr)) as [te|] eqn:He|].
  - destruct (validateDateRange_parsed dr w ts te Hs He)
      as (v & w' & E & Hv & Hok & _).
    exists v. unfold result_of. rewrite E. cbn [fst].
    split; [reflexivity|].
    assert (Hiff : isValid v = true <->
                   ts <= te /\ oneYearAgo (clock w 0%nat) <= ts
                   /\ ts <= fiveDaysFromNow (clock w 1%nat)
                   /\ te <= fiveDaysFromNow (clock w 1%nat)).
    { rewrite Hv, !andb_true_iff, !negb_true_iff, !Z.ltb_ge. tauto. }
    assert (Hval : isValid v = no_errors (errors v)).
    { revert E. unfold validateDateRange. rewrite Hs, He.
      unfold bind, Date_now, new_Date, ret.
      simpl JSDate.isValid. simpl negb.
      rewrite !push_if_false. change (no_errors []) with true. cbv iota.
      unfold isAfter, isBefore.
      set (errs := push_if _ _ (push_if _ _ (push_if _ _ (push_if _ _ [])))).
      destruct (no_errors errs) eqn:En; intros [= <- _];
        cbn [isValid errors]; now rewrite En. }
    split; [rewrite Hval; apply no_errors_iff|].
    split.
    + rewrite Hiff. split.
      * intros Hc. exists ts, te. tauto.
      * intros (ts' & te' & [= <-] & [= <-] & Hc). exact Hc.
    + split.
      * intros Ht. rewrite Ht in Hv. symmetry in Hv. now apply Hok.
      * intros [Hn | Hn]; discriminate Hn.
  - destruct (validateDateRange_unparsed dr w) as (errs & E & Hne & Hall);
      [right; exact He|].
    eexists. unfold result_of. rewrite E. cbn [fst isValid errors adjustedRange].
    split; [reflexivity|]. split; [split; [discriminate | intros Habs; now contradiction Hne]|].
    split; [split; [discriminate|]|].
    + intros (ts' & te' & _ & Hte & _). discriminate Hte.
    + split; [discriminate|]. intros _. now split.
  - destruct (validateDateRange_unparsed dr w) as (errs & E & Hne & Hall);
      [left; exact Hs|].
    eexists. unfold result_of. rewrite E. cbn [fst isValid errors adjustedRange].
    split; [reflexivity|]. split; [split; [discriminate | intros Habs; now contradiction Hne]|].
    split; [split; [discriminate|]|].
    + intros (ts' & te' & Hts & _). discriminate Hts.
    + split; [discriminate|]. intros _. now split.
Qed.

Lemma validateDateRange_verdict_witness :
  exists v,
    result_of (validateDateRange (H := Sample.platform)
                 {| startDate := "tomorrow"; endDate := "2024-01-12" |})
              Sample.empty_world = Return v
    /\ Forall (fun e => e = "Start date is invalid"
                        \/ e = "End date is invalid") (errors v)
    /\ adjustedRange v
       = Some {| startDate := "2024-01-10"; endDate := "2024-01-15" |}.
Proof.
  destruct (validateDateRange_verdict (H := Sample.platform)
              {| startDate := "tomorrow"; endDate := "2024-01-12" |}
              Sample.empty_world) as (v & E & _ & _ & _ & H5).
  exists v. split; [exact E|]. apply H5. left. reflexivity.
Defined.

(* ===================================================================== *)
(** ** The bounds of a listing *)
(* ===================================================================== *)

Section ListingBounds.

Context `{Platform}.

Lemma parseInt_or_not_zero (s : string) (d : Z) :
  d <> 0 -> JS.parseInt_or s d <> 0.
Proof.
  intros Hd. unfold JS.parseInt_or.
  destruct (JS.parseInt s) as [[|n|n]|]; [exact Hd | easy | easy | exact Hd].
Qed.

Lemma ceil_div_negative (n l : Z) :
  0 <= n -> l < 0 -> exists z, JS.ceil_div n l = JS.Fin z /\ z <= 0.
Proof.
  intros Hn Hl. unfold JS.ceil_div.
  destruct (Z.eqb_spec l 0) as [E|_]; [lia|].
  eexists. split; [reflexivity|].
  change 0 with (Qceiling 0). apply Qceiling_resp_le.
  destruct l as [|l|l]; try lia.
  unfold Qle, Qdiv, Qmult, Qinv. cbn. nia.
Qed.

Lemma listWeatherQueries_refused (filters : WeatherQueryFilters)
  (page limit : Z) (w : World) :
  (page - 1) * limit < 0 ->
  listWeatherQueries filters page limit w
  = (Throw "Failed to fetch weather queries", w).
Proof.
  intros Hs. unfold listWeatherQueries.
  rewrite try_catch_run, bind_run.
  unfold Promise_all2, find_page, countDocuments.
  apply Z.ltb_lt in Hs. now rewrite Hs.
Qed.

End ListingBounds.



(* ===================================================================== *)
(** ** Filters that do nothing *)
(* ===================================================================== *)

(** X26.  [listWeatherQueries] never looks at the filter [hasAIInsight]:
    whatever its value, the listing is the same.  An empty location, an
    empty date bound and an empty list of tags filter nothing either. *)
Theorem listWeatherQueries_ignores_hasAIInsight
  `{Platform} (filters : WeatherQueryFilters) (hasAIInsight : option bool)
  (page limit : Z) (w : World) :
  let none_if_empty (o : option string) :=
    match o with Some EmptyString => None | _ => o end in
  listWeatherQueries filters page limit w
  = listWeatherQueries
      {| f_location := none_if_empty (f_location filters);
         f_dateFrom := none_if_empty (f_dateFrom filters);
         f_dateTo := none_if_empty (f_dateTo filters);
         f_tags := match f_tags filters with Some [] => None | t => t end;
         f_hasAIInsight := hasAIInsight |}
      page limit w.
Proof.
  cbv zeta. unfold listWeatherQueries.
  replace (build_query
             {| f_location := match f_location filters with
                              | Some EmptyString => None
                              | _ => f_location filters
                              end;
                f_dateFrom := match f_dateFrom filters with
                              | Some EmptyString => None
                              | _ => f_dateFrom filters
                              end;
                f_dateTo := match f_dateTo filters with
                            | Some EmptyString => None
                            | _ => f_dateTo filters
                            end;
                f_tags := match f_tags filters with
                          | Some [] => None
                          | t => t
                          end;
                f_hasAIInsight := hasAIInsight |})
    with (build_query filters); [reflexivity|].
  destruct filters as [[[|a l]|] [[|b f]|] [[|c t]|] [[|g gs]|] h];
    reflexivity.
Qed.

(* ===================================================================== *)
(** ** The normalized location of a record *)
(* ===================================================================== *)

(** X27.  In every store the service reaches from an empty collection,
    the field [locationNormalized] of every record is the normalization
    of some name, so it is in normal form: normalizing it again leaves it
    as it is. *)
Theorem locationNormalized_normal_at_rest
  `{Platform} (this : WeatherService) (w : World) :
  reachable this w ->
  Forall (fun d =>
            (exists name,
               locationNormalized (snd d) = normalizeLocation name)
            /\ normalizeLocation (locationNormalized (snd d))
               = locationNormalized (snd d))
         (weather_queries w).
Proof.
  intros R.
  assert (Hn : forall name,
             normalizeLocation (normalizeLocation name)
             = normalizeLocation name).
  { intros name. unfold normalizeLocation, JS.trim.
    set (t := JS.trim_end (JS.skip_spaces (JS.toLowerCase name))).
    assert (Hs : Spacing.starts_clean t = true)
      by apply trim_end_starts_clean, skip_spaces_starts_clean.
    assert (He : Spacing.ends_clean t = true) by apply trim_end_ends_clean.
    assert (Hl : JS.toLowerCase t = t).
    { unfold t. now rewrite toLowerCase_trim_end, toLowerCase_skip_spaces,
        toLowerCase_idem. }
    rewrite toLowerCase_collapse, Hl.
    rewrite (starts_clean_skip _ (collapse_false_starts_clean _ Hs)).
    rewrite (ends_clean_trim_end _ (collapse_ends_clean false _ He)).
    apply single_spaced_collapse. now apply collapse_single_spaced. }
  apply (reachable_Forall this
           (fun q => (exists name, locationNormalized q = normalizeLocation name)
                     /\ normalizeLocation (locationNormalized q)
                        = locationNormalized q)); [| |exact R].
  - intros request w0 v w1 bestMatch rest snapshot forecast t1 t2 _ _ _.
    cbn [created_document locationNormalized].
    split; [eexists; reflexivity | apply Hn].
  - intros updates w0 u q (_ & Hl & _) [(name & Hq) Hi].
    cbn [apply_set locationNormalized].
    unfold location_assigned in Hl.
    destruct (JS.truthy (up_location updates)).
    + destruct Hl as (b & rest & s & _ & _ & _ & -> & _).
      cbn [assign]. split; [eexists; reflexivity | apply Hn].
    + destruct Hl as (_ & -> & _). cbn [assign]. split; [now exists name|].
      exact Hi.
Qed.

Lemma locationNormalized_normal_at_rest_witness :
  Forall (fun d =>
            (exists name,
               locationNormalized (snd d) = normalizeLocation name)
            /\ normalizeLocation (locationNormalized (snd d))
               = locationNormalized (snd d))
         (weather_queries Sample.london_world).
Proof.
  apply (locationNormalized_normal_at_rest (H := Sample.platform)
           weatherService Sample.london_world).
  apply reachable_call with (w := Sample.empty_world).
  - now apply reachable_empty.
  - exact (call_create weatherService Sample.london_request
             Sample.empty_world).
Defined.

(* ===================================================================== *)
(** ** What a record costs the provider *)
(* ===================================================================== *)

Section ProviderRequests.

Context `{Platform}.

Lemma createWeatherQuery_requests_run (this : WeatherService)
  (request : CreateWeatherQueryRequest) (w : World) r w' :
  createWeatherQuery this request w = (r, w') ->
  (weather_api w' = weather_api w /\ forecast_api w' = forecast_api w
   \/ weather_api w' = next (weather_api w)
      /\ forecast_api w' = forecast_api w
   \/ weather_api w' = next (next (weather_api w))
      /\ forecast_api w' = next (forecast_api w))
  /\ forall record,
       r = Return record ->
       weather_api w' = next (next (weather_api w))
       /\ forecast_api w' = next (forecast_api w)
       /\ exists asked,
            weather_api w 1%nat asked = Some (weatherData (snd record))
            /\ forecastData (snd record) = forecast_api w 0%nat asked.
Proof.
  unfold createWeatherQuery.
  destruct (validateDateRange_total (cr_dateRange request) w)
    as (v & w1 & E & Hv & Hq & Hi & Hw & Hwa & Hfa & Hno).
  rewrite bind_run, E.
  destruct (isValid v) eqn:Ev; cbn [negb]; cbv beta iota.
  2:{ unfold throw. intros [= <- <-]. split; [now left | discriminate]. }
  rewrite bind_run, validateLocation_run.
  rewrite (location_matches_frame _ _ _ _ Hwa).
  destruct (location_matches this (cr_location request) w)
    as [|bestMatch rest] eqn:El.
  { unfold throw. intros [= <- <-].
    cbn [weather_api forecast_api tick_weather].
    split; [right; left; now rewrite Hwa, Hfa | discriminate]. }
  fold (final_location bestMatch (cr_location request)).
  set (fl := final_location bestMatch (cr_location request)).
  rewrite try_catch_run, bind_run, fetch_run.
  cbn [weather_api forecast_api tick_weather next].
  change (next (weather_api w1) 0%nat fl) with (weather_api w1 1%nat fl).
  rewrite Hfa, Hwa.
  destruct (weather_api w 1%nat fl) as [wd|] eqn:Ewd.
  2:{ unfold throw. intros [= <- <-].
      cbn [weather_api forecast_api tick_weather tick_forecast].
      split; [right; right; now rewrite Hwa, Hfa | discriminate]. }
  cbv beta iota.
  rewrite bind_run. unfold new_Date at 1. cbv beta iota.
  rewrite bind_run. unfold new_Date at 1. cbv beta iota.
  rewrite insert_then_find. cbv zeta.
  destruct (Db.find_by_id _ _) eqn:Efind.
  - unfold throw. intros [= <- <-].
    cbn [weather_api forecast_api tick_weather tick_forecast tick_clock
         tick_oids log_write].
    rewrite Hwa, Hfa. split; [now right; right | discriminate].
  - intros [= <- <-].
    cbn [weather_api forecast_api tick_weather tick_forecast tick_clock
         tick_oids log_write with_queries].
    rewrite Hwa, Hfa. split; [now right; right|]. intros record [= <-].
    split; [reflexivity|]. split; [reflexivity|].
    exists fl. cbn [snd weatherData forecastData]. now split.
Qed.

End ProviderRequests.



Section UpdateRequests.

Context `{Platform}.

Lemma handle_dateRange_update_oracles (updates : UpdateWeatherQueryRequest)
  (u0 : UpdateDoc) (w : World) r w' :
  handle_dateRange_update updates u0 w = (r, w') ->
  weather_api w' = weather_api w /\ forecast_api w' = forecast_api w.
Proof.
  unfold handle_dateRange_update.
  destruct (up_dateRange updates) as [range|];
    [|unfold ret; intros [= <- <-]; now split].
  destruct (validateDateRange_total range w)
    as (v & w1 & E & _ & _ & _ & _ & Hwa & Hfa & _).
  rewrite bind_run, E.
  destruct (negb (isValid v)); unfold throw, ret; intros [= <- <-];
    now split.
Qed.

Lemma updateWeatherQuery_tail_oracles (id : string) (u : UpdateDoc)
  (w : World) r w' :
  (oid <- new_ObjectId id ;;
   result <- findOneAndUpdate oid u ;;
   value <- result_value result ;;
   match value with
   | None => ret None
   | Some d => ret (Some (with_id d))
   end) w = (r, w') ->
  weather_api w' = weather_api w /\ forecast_api w' = forecast_api w.
Proof.
  rewrite bind_run. unfold new_ObjectId.
  destruct (ObjectId_parse id) as [oid|];
    [|unfold throw; intros [= <- <-]; now split].
  unfold ret at 1. cbv beta iota.
  rewrite bind_run. unfold findOneAndUpdate at 1. cbv beta iota zeta.
  rewrite bind_run. unfold result_value.
  destruct includeResultMetadata.
  - unfold ret at 1. cbv beta iota.
    destruct (Db.find_by_id oid _); unfold ret; intros [= <- <-]; now split.
  - destruct (Db.find_by_id oid _); unfold ret, throw; intros [= <- <-];
      now split.
Qed.

Lemma updateWeatherQuery_requests_run (this : WeatherService) (id : string)
  (updates : UpdateWeatherQueryRequest) (w : World) r w' :
  updateWeatherQuery this id updates w = (r, w') ->
  if JS.truthy (up_location updates)
  then match location_matches this (JS.or_string (up_location updates) "")
               w with
       | [] => weather_api w' = next (weather_api w)
               /\ forecast_api w' = forecast_api w
       | _ :: _ => weather_api w' = next (next (weather_api w))
                   /\ forecast_api w' = next (forecast_api w)
       end
  else weather_api w' = weather_api w /\ forecast_api w' = forecast_api w.
Proof.
  unfold updateWeatherQuery.
  rewrite try_catch_run, bind_run. unfold new_Date at 1. cbv beta iota zeta.
  rewrite bind_run. unfold handle_location_update at 1.
  destruct (JS.truthy (up_location updates)).
  - set (loc := JS.or_string (up_location updates) "").
    rewrite bind_run, validateLocation_run.
    change (location_matches this loc (tick_clock w))
      with (location_matches this loc w).
    destruct (location_matches this loc w) as [|bestMatch rest].
    { unfold throw. intros [= <- <-]. now split. }
    rewrite bind_run, fetch_run.
    destruct (weather_api (tick_weather (tick_clock w)) 0%nat _) as [wd|].
    2:{ unfold throw. intros [= <- <-]. now split. }
    unfold ret at 1. cbv beta iota. rewrite bind_run.
    match goal with
    | |- context [handle_dateRange_update updates ?u ?w0] =>
        destruct (handle_dateRange_update updates u w0) as [r2 w2] eqn:E2
    end.
    apply handle_dateRange_update_oracles in E2. destruct E2 as [Ewa Efa].
    destruct r2 as [u2|m2]; [|unfold throw; intros [= <- <-]; now split].
    match goal with
    | |- context [bind (new_ObjectId id) ?k w2] =>
        destruct (bind (new_ObjectId id) k w2) as [r3 w3] eqn:E3
    end.
    apply updateWeatherQuery_tail_oracles in E3. destruct E3 as [Ewa3 Efa3].
    destruct r3; unfold throw; intros [= <- <-];
      rewrite Ewa3, Efa3, Ewa, Efa; now split.
  - unfold ret at 1. cbv beta iota. rewrite bind_run.
    match goal with
    | |- context [handle_dateRange_update updates ?u ?w0] =>
        destruct (handle_dateRange_update updates u w0) as [r2 w2] eqn:E2
    end.
    apply handle_dateRange_update_oracles in E2. destruct E2 as [Ewa Efa].
    destruct r2 as [u2|m2]; [|unfold throw; intros [= <- <-]; now split].
    match goal with
    | |- context [bind (new_ObjectId id) ?k w2] =>
        destruct (bind (new_ObjectId id) k w2) as [r3 w3] eqn:E3
    end.
    apply updateWeatherQuery_tail_oracles in E3. destruct E3 as [Ewa3 Efa3].
    destruct r3; unfold throw; intros [= <- <-];
      rewrite Ewa3, Efa3, Ewa, Efa; now split.
Qed.

End UpdateRequests.

(** X29.  [updateWeatherQuery] asks the provider before it looks at the
    id.  What it asks depends on the updates and the provider alone: no
    request when the location does not change, one current weather when
    the new location has no candidate, two current weathers and one
    forecast otherwise, and the same for an id that is malformed or that
    names no record, where nothing is then updated. *)
Theorem updateWeatherQuery_provider_requests
  `{Platform} (this : WeatherService) (id : string)
  (updates : UpdateWeatherQueryRequest) (w : World) :
  let w' := world_after (updateWeatherQuery this id updates) w in
  (if JS.truthy (up_location updates)
   then match location_matches this (JS.or_string (up_location updates) "")
                w with
        | [] => weather_api w' = next (weather_api w)
                /\ forecast_api w' = forecast_api w
        | _ :: _ => weather_api w' = next (next (weather_api w))
                    /\ forecast_api w' = next (forecast_api w)
        end
   else weather_api w' = weather_api w /\ forecast_api w' = forecast_api w)
  /\ (result_of (getWeatherQuery id) w = Return None ->
      weather_queries w' = weather_queries w).
Proof.
  cbv zeta. unfold world_after.
  destruct (updateWeatherQuery this id updates w) as [r w'] eqn:E.
  cbn [snd]. split; [exact (updateWeatherQuery_requests_run _ _ _ _ _ _ E)|].
  rewrite stored_query_getWeatherQuery. unfold stored_query. intros Hq.
  apply updateWeatherQuery_run in E.
  inversion E as [m w2 S | oid u w2 Eoid Hu Sq Si Sw Hans]; subst.
  - apply S.
  - rewrite Sq. rewrite Eoid in Hq.
    destruct (Db.find_by_id oid (weather_queries w)) as [d|] eqn:Ef;
      [discriminate Hq|].
    clear - Ef. induction (weather_queries w) as [|e c IH]; [reflexivity|].
    rewrite find_by_id_cons in Ef. rewrite update_one_cons.
    destruct (N.eqb (fst e) oid); [discriminate Ef|]. now rewrite IH.
Qed.

Lemma updateWeatherQuery_provider_requests_witness :
  let w' :=
    world_after (updateWeatherQuery (H := Sample.platform) weatherService
                   "london" Sample.tokyo_update) Sample.london_world in
  (weather_api w' = next (next (weather_api Sample.london_world))
   /\ forecast_api w' = next (forecast_api Sample.london_world))
  /\ weather_queries w' = weather_queries Sample.london_world.
Proof.
  destruct (updateWeatherQuery_provider_requests (H := Sample.platform)
              weatherService "london" Sample.tokyo_update
              Sample.london_world) as [Hr Hq].
  split; [exact Hr | apply Hq; reflexivity].
Defined.

(* ===================================================================== *)
(** ** The tips on the weather *)
(* ===================================================================== *)

(** X30.  [generateWeatherTips] gives at most four tips, cut from the
    end.  In hot or freezing weather with a humidity above 80 the four
    are the two on the temperature and the two on the humidity, whatever
    the wind, the sky and the forecast: the warnings of strong winds, of
    rain or snow, and of rain in the coming days are then never given. *)
Theorem generateWeatherTips_cap
  (weatherData : WeatherData) (forecastData : option ForecastData) :
  let tips :=
    LocationContextService.generateWeatherTips weatherData forecastData in
  let humid :=
    ["High humidity - you may feel warmer than the actual temperature";
     "Stay hydrated and take breaks in air-conditioned spaces if needed"] in
  (List.length tips <= 4)%nat
  /\ ((80 < wd_humidity weatherData)%Q ->
      ((30 < temperature weatherData)%Q ->
       tips
       = ["Very hot weather - stay hydrated and avoid prolonged sun exposure";
          "Use SPF 30+ sunscreen and seek shade during peak hours (10 AM - 4 PM)"]
         ++ humid)%list
      /\ ((temperature weatherData < 0)%Q ->
          tips
          = ["Freezing temperatures - dress in layers and protect exposed skin";
             "Be cautious of icy conditions when walking or driving"]
            ++ humid)%list
      /\ ((30 < temperature weatherData)%Q \/ (temperature weatherData < 0)%Q ->
          forallb (fun tip => negb (LocationContextService.warning tip)) tips
          = true)).
Proof.
  cbv zeta. split; [apply firstn_le_length|].
  intros Hh.
  assert (Eh : LocationContextService.gt (wd_humidity weatherData) (80 # 1)
               = true).
  { unfold LocationContextService.gt. apply negb_true_iff.
    destruct (Qle_bool _ _) eqn:E; [|reflexivity].
    apply Qle_bool_iff in E. exfalso. apply (Qlt_not_le _ _ Hh E). }
  assert (Hot : (30 < temperature weatherData)%Q ->
                LocationContextService.generateWeatherTips weatherData
                  forecastData
                = ["Very hot weather - stay hydrated and avoid prolonged sun exposure";
                   "Use SPF 30+ sunscreen and seek shade during peak hours (10 AM - 4 PM)";
                   "High humidity - you may feel warmer than the actual temperature";
                   "Stay hydrated and take breaks in air-conditioned spaces if needed"]).
  { intros Ht. unfold LocationContextService.generateWeatherTips.
    rewrite Eh.
    assert (Et : LocationContextService.gt (temperature weatherData) (30 # 1)
                 = true).
    { unfold LocationContextService.gt. apply negb_true_iff.
      destruct (Qle_bool _ _) eqn:E; [|reflexivity].
      apply Qle_bool_iff in E. exfalso. apply (Qlt_not_le _ _ Ht E). }
    rewrite Et. cbn [app].
    unfold LocationContextService.push_when.
    repeat match goal with
           | |- context [if ?c then _ else _] => destruct c
           | |- context [match ?o with Some _ => _ | None => _ end] =>
               destruct o
           | |- context [match ?l with [] => _ | _ :: _ => _ end] =>
               destruct l
           end; reflexivity. }
  assert (Cold : (temperature weatherData < 0)%Q ->
                 LocationContextService.generateWeatherTips weatherData
                   forecastData
                 = ["Freezing temperatures - dress in layers and protect exposed skin";
                    "Be cautious of icy conditions when walking or driving";
                    "High humidity - you may feel warmer than the actual temperature";
                    "Stay hydrated and take breaks in air-conditioned spaces if needed"]).
  { intros Ht. unfold LocationContextService.generateWeatherTips.
    rewrite Eh.
    assert (Et : LocationContextService.gt (temperature weatherData) (30 # 1)
                 = false).
    { unfold LocationContextService.gt. apply negb_false_iff.
      apply Qle_bool_iff. apply Qlt_le_weak.
      apply Qlt_trans with 0%Q; [exact Ht | reflexivity]. }
    assert (Ec : LocationContextService.lt (temperature weatherData) (0 # 1)
                 = true).
    { unfold LocationContextService.lt. apply negb_true_iff.
      destruct (Qle_bool _ _) eqn:E; [|reflexivity].
      apply Qle_bool_iff in E. exfalso. apply (Qlt_not_le _ _ Ht E). }
    rewrite Et, Ec. cbn [app].
    unfold LocationContextService.push_when.
    repeat match goal with
           | |- context [if ?c then _ else _] => destruct c
           | |- context [match ?o with Some _ => _ | None => _ end] =>
               destruct o
           | |- context [match ?l with [] => _ | _ :: _ => _ end] =>
               destruct l
           end; reflexivity. }
  split; [exact Hot|]. split; [exact Cold|].
  intros [Ht | Ht]; [rewrite (Hot Ht) | rewrite (Cold Ht)]; reflexivity.
Qed.

Lemma generateWeatherTips_cap_witness :
  LocationContextService.generateWeatherTips TipsSample.monsoon None
  = ["Very hot weather - stay hydrated and avoid prolonged sun exposure";
     "Use SPF 30+ sunscreen and seek shade during peak hours (10 AM - 4 PM)";
     "High humidity - you may feel warmer than the actual temperature";
     "Stay hydrated and take breaks in air-conditioned spaces if needed"].
Proof.
  apply (proj2 (generateWeatherTips_cap TipsSample.monsoon None));
    reflexivity.
Defined.

From Stdlib Require Import Lqa.

(* ===================================================================== *)
(** ** The pages of the PDF report *)
(* ===================================================================== *)

Section PdfPages.

Context `{Platform}.

Variable pageWidth pageHeight : number.
Variable substring_0_100 : string -> string.
Variable format_date_time : Date -> string.

Local Abbreviation query_block :=
  (PdfExport.query_block pageHeight substring_0_100).
Local Abbreviation header :=
  (PdfExport.header pageWidth format_date_time).

Local Abbreviation on_page := (PdfExport.on_page pageHeight).

Lemma text_heights_app (a b : list PdfExport.Call) :
  PdfExport.text_heights (a ++ b)
  = (PdfExport.text_heights a ++ PdfExport.text_heights b)%list.
Proof. apply flat_map_app. Qed.

Lemma blocks_app (a b : list PdfExport.Call) :
  PdfExport.blocks (a ++ b)
  = (PdfExport.blocks a + PdfExport.blocks b)%nat.
Proof. unfold PdfExport.blocks. now rewrite filter_app, length_app. Qed.

Lemma blocks_text (line : string) (x y : number) (c : bool) :
  PdfExport.blocks [PdfExport.Text [line] x y c]
  = if String.prefix "Location: " line then 1%nat else 0%nat.
Proof.
  unfold PdfExport.blocks. cbn [filter PdfExport.is_block_line].
  now destruct (String.prefix "Location: " line).
Qed.

Lemma not_location (a : ascii) (p s : string) :
  a <> "L"%char -> String.prefix "Location: " (String a p ++ s) = false.
Proof.
  intros Ha. cbn [append String.prefix].
  destruct (ascii_dec "L" a) as [E|_]; [now contradiction Ha | reflexivity].
Qed.

Lemma query_block_fits (doc : PdfExport.Doc) (query : WithId WeatherQuery) :
  (80 <= pageHeight)%Q ->
  (20 <= PdfExport.currentY doc)%Q ->
  Forall on_page (PdfExport.text_heights (PdfExport.calls doc)) ->
  (20 <= PdfExport.currentY (query_block doc query))%Q
  /\ Forall on_page
       (PdfExport.text_heights (PdfExport.calls (query_block doc query)))
  /\ PdfExport.blocks (PdfExport.calls (query_block doc query))
     = S (PdfExport.blocks (PdfExport.calls doc)).
Proof.
  intros Hh Hy Hall. unfold PdfExport.query_block, PdfExport.break_after.
  destruct (Qle_bool (PdfExport.currentY doc) (pageHeight - 60)) eqn:E;
    [apply Qle_bool_iff in E|];
    destruct (JS.truthy (userNotes (snd query)));
    cbn [PdfExport.calls PdfExport.currentY PdfExport.call PdfExport.text
         PdfExport.advance];
    rewrite !text_heights_app, !blocks_app, !blocks_text, prefix_app,
      !not_location by discriminate;
    cbn [PdfExport.text_heights PdfExport.blocks PdfExport.is_block_line
         flat_map app filter List.length];
    (split; [lra|]); (split; [|lia]);
    rewrite ?app_nil_r; repeat (apply Forall_app; split);
    try exact Hall; repeat constructor; unfold PdfExport.on_page; lra.
Qed.

Lemma query_blocks_fit (queries : list (WithId WeatherQuery))
  (doc : PdfExport.Doc) :
  (80 <= pageHeight)%Q ->
  (20 <= PdfExport.currentY doc)%Q ->
  Forall on_page (PdfExport.text_heights (PdfExport.calls doc)) ->
  let doc' := fold_left query_block queries doc in
  (20 <= PdfExport.currentY doc')%Q
  /\ Forall on_page (PdfExport.text_heights (PdfExport.calls doc'))
  /\ PdfExport.blocks (PdfExport.calls doc')
     = (PdfExport.blocks (PdfExport.calls doc) + List.length queries)%nat.
Proof.
  intros Hh. revert doc.
  induction queries as [|q queries IH]; intros doc Hy Hall; cbn [fold_left].
  - cbn [List.length]. split; [exact Hy|]. split; [exact Hall | lia].
  - destruct (query_block_fits doc q Hh Hy Hall) as (Hy' & Hall' & Hb).
    destruct (IH (query_block doc q) Hy' Hall') as (Hy2 & Hall2 & Hb2).
    split; [exact Hy2|]. split; [exact Hall2|].
    rewrite Hb2, Hb. cbn [List.length]. lia.
Qed.

Lemma header_fits (generated : Date) (queries : list (WithId WeatherQuery))
  (insights : list (WithId AIInsight)) :
  (103 <= pageHeight)%Q ->
  let doc := header generated queries insights in
  (20 <= PdfExport.currentY doc)%Q
  /\ Forall on_page (PdfExport.text_heights (PdfExport.calls doc))
  /\ PdfExport.blocks (PdfExport.calls doc) = 0%nat.
Proof.
  intros Hh. cbv zeta. unfold PdfExport.header.
  cbn [PdfExport.calls PdfExport.currentY PdfExport.call PdfExport.text
       PdfExport.advance app].
  split; [lra|]. split.
  - cbn [PdfExport.text_heights flat_map app].
    repeat constructor; unfold PdfExport.on_page; lra.
  - unfold PdfExport.blocks.
    cbn [filter PdfExport.is_block_line].
    rewrite !(not_location _ _ _) by discriminate.
    change (String.prefix "Location: " "SkyCast Weather Report") with false.
    change (String.prefix "Location: " "Weather Queries") with false.
    reflexivity.
Qed.

End PdfPages.


